(** * tfe-ephemeral: dependency resolution and multi-workspace orchestration

    A shallow embedding of [src/dependency-resolver.ts],
    [src/workspace-manager.ts] and [src/tfe-client.ts], and the properties
    the specification states about them. *)

From Equations Require Import Equations.
From Stdlib Require Import ZArith Lia.
From stdpp Require Import gmap strings list pretty.

(* String literals read as strings; every other notation keeps its usual
   meaning (string concatenation is [+:+]). *)
#[local] Set Warnings "-clear-no-such-hyp".
Open Scope string_scope.
Open Scope list_scope.
Open Scope nat_scope.
Open Scope stdpp_scope.

(** ** JavaScript values the code throws and returns *)

(** What a [throw] carries: an [Error] object with its [message], or any
    other value (only the HTTP client can reject with one), kept as the text
    [String(value)] gives. *)
Inductive Thrown : Type :=
  | JsError (message : string)
  | NonError (text : string).

(** A call either returns or throws. *)
Inductive Res (A : Type) : Type :=
  | Ok (a : A)
  | Throw (e : Thrown).
Arguments Ok {A} a.
Arguments Throw {A} e.

(** [error instanceof Error ? error.message : String(error)] *)
Definition message_or_String (e : Thrown) : string :=
  match e with
  | JsError m => m
  | NonError t => t
  end.

(** [error instanceof Error ? error.message : 'Unknown error'] *)
Definition message_or_unknown (e : Thrown) : string :=
  match e with
  | JsError m => m
  | NonError _ => "Unknown error"
  end.

(** [Array.prototype.join] on an array of strings. *)
Definition join (sep : string) (l : list string) : string := String.concat sep l.

(** ** types.ts *)

Inductive ActionType : Type := Create | Delete | Apply | Destroy.

Record VCSConfig : Type := {
  repository : string;
  branch : option string;
  oauth_token_id : string
}.

Inductive ExecutionMode : Type := Remote | Local | Agent.

(** A value of [WorkspaceVariables]: string, number (integers only here) or
    boolean. *)
Inductive VariableValue : Type :=
  | VString (s : string)
  | VNumber (n : Z)
  | VBoolean (b : bool).

(** Optional fields are [option]s; [None] is an absent ([undefined]) field. *)
Record WorkspaceConfig : Type := {
  vcs : option VCSConfig;
  variables : option (list (string * VariableValue));
  auto_apply : option bool;
  terraform_version : option string;
  execution_mode : option ExecutionMode;
  variable_set_id : option string;
  dependsOn : option (list string)
}.

(** [workspaces] is a JavaScript object used as a map. It is kept as the list
    of its own entries in the order [Object.keys] and [Object.entries]
    enumerate them. *)
Record TFEConfig : Type := {
  action : ActionType;
  workspaces : list (string * WorkspaceConfig)
}.

Inductive RunStatus : Type :=
  | pending | plan_queued | planning | planned | cost_estimating
  | cost_estimated | policy_checking | policy_override | policy_soft_failed
  | policy_checked | confirmed | apply_queued | applying | applied
  | discarded | errored | canceled | force_canceled.

(** ** Property access on the [workspaces] object *)

Definition Object_keys (ws : list (string * WorkspaceConfig)) : list string :=
  ws.*1.

(** The own property [name] of the object, if it has one. *)
Fixpoint own_property (ws : list (string * WorkspaceConfig)) (name : string)
  : option WorkspaceConfig :=
  match ws with
  | [] => None
  | (k, v) :: ws' => if decide (k = name) then Some v else own_property ws' name
  end.

(** The string-keyed properties every plain object inherits from
    [Object.prototype]; each reads as a truthy value (a function, or the
    prototype itself for [__proto__]) that has no [dependsOn]. *)
Definition Object_prototype : list string :=
  [ "constructor"; "__defineGetter__"; "__defineSetter__"; "hasOwnProperty";
    "__lookupGetter__"; "__lookupSetter__"; "isPrototypeOf";
    "propertyIsEnumerable"; "toString"; "valueOf"; "__proto__";
    "toLocaleString" ].

(** What [workspaces[name]] evaluates to. *)
Inductive Property : Type :=
  | OwnValue (w : WorkspaceConfig)
  | Inherited
  | Undefined.

Definition get (ws : list (string * WorkspaceConfig)) (name : string) : Property :=
  match own_property ws name with
  | Some w => OwnValue w
  | None => if bool_decide (name ∈ Object_prototype) then Inherited else Undefined
  end.

Definition truthy (p : Property) : bool :=
  match p with
  | OwnValue _ | Inherited => true
  | Undefined => false
  end.

(** [workspace.dependsOn || []] (an array, even an empty one, is truthy). *)
Definition dependsOn_or_empty (w : WorkspaceConfig) : list string :=
  default [] (dependsOn w).

(** [workspace?.dependsOn || []] *)
Definition optional_dependsOn (p : Property) : list string :=
  match p with
  | OwnValue w => dependsOn_or_empty w
  | Inherited | Undefined => []
  end.

(** ** dependency-resolver.ts *)

(** The three variables [topologicalSort] closes over. *)
Record SortState : Type := {
  sorted : list string;
  visited : gset string;
  visiting : gset string
}.

Definition circular_message (cycle : list string) : string :=
  "Circular dependency detected: " +:+ join " -> " cycle.

Definition undefined_message (name dep : string) : string :=
  "Workspace '" +:+ name +:+ "' depends on '" +:+ dep +:+ "', but '" +:+ dep
  +:+ "' is not defined".

(** The [for (const dep of dependencies)] loop of [visit]; [visit_dep] is the
    recursive call [visit(dep, [...path, name])]. [None] is passed on. *)
Fixpoint visit_dependencies
    (ws : list (string * WorkspaceConfig))
    (visit_dep : string → SortState → option (Res SortState))
    (name : string) (dependencies : list string) (st : SortState)
  : option (Res SortState) :=
  match dependencies with
  | [] => Some (Ok st)
  | dep :: rest =>
      if negb (truthy (get ws dep))
      then Some (Throw (JsError (undefined_message name dep)))
      else match visit_dep dep st with
           | Some (Ok st') => visit_dependencies ws visit_dep name rest st'
           | other => other
           end
  end.

(** The inner function [visit]. [fuel] bounds the depth of the recursion;
    [None] means the bound was reached. *)
Fixpoint visit (fuel : nat) (ws : list (string * WorkspaceConfig))
    (name : string) (path : list string) (st : SortState)
  : option (Res SortState) :=
  match fuel with
  | O => None
  | S fuel' =>
      if bool_decide (name ∈ visiting st)
      then Some (Throw (JsError (circular_message (path ++ [name]))))
      else if bool_decide (name ∈ visited st)
      then Some (Ok st)
      else
        let st1 := {| sorted := sorted st;
                      visited := visited st;
                      visiting := {[name]} ∪ visiting st |} in
        let dependencies := optional_dependsOn (get ws name) in
        match visit_dependencies ws
                (λ dep, visit fuel' ws dep (path ++ [name]))
                name dependencies st1 with
        | Some (Ok st2) =>
            Some (Ok {| sorted := sorted st2 ++ [name];
                        visited := {[name]} ∪ visited st2;
                        visiting := visiting st2 ∖ {[name]} |})
        | other => other
        end
  end.

(** The loop [for (const name of names) visit(name)]. *)
Fixpoint visit_all (fuel : nat) (ws : list (string * WorkspaceConfig))
    (names : list string) (st : SortState) : option (Res SortState) :=
  match names with
  | [] => Some (Ok st)
  | name :: rest =>
      match visit fuel ws name [] st with
      | Some (Ok st') => visit_all fuel ws rest st'
      | other => other
      end
  end.

Definition initial_state : SortState :=
  {| sorted := []; visited := ∅; visiting := ∅ |}.

(** A chain of nested [visit] calls names distinct own keys, except that its
    last call may name an inherited property; so the recursion is never
    deeper than this. *)
Definition recursion_bound (ws : list (string * WorkspaceConfig)) : nat :=
  S (length (Object_keys ws)).

(** [topologicalSort]. The bound [recursion_bound] is never reached
    (lemma [visit_all_fuel]), so the last branch is never taken; it stands for
    the engine's answer to a recursion deeper than its stack. *)
Definition topologicalSort (ws : list (string * WorkspaceConfig))
    (names : list string) : Res (list string) :=
  match visit_all (recursion_bound ws) ws names initial_state with
  | Some (Ok st) => Ok (sorted st)
  | Some (Throw e) => Throw e
  | None => Throw (JsError "Maximum call stack size exceeded")
  end.

(** [resolveExecutionOrder]. [ActionType] has only the four actions, so the
    final [throw new Error(`Unknown action: ...`)] has no case here. *)
Definition resolveExecutionOrder (config : TFEConfig) : Res (list string) :=
  let workspaceNames := Object_keys (workspaces config) in
  match action config with
  | Create | Delete => Ok workspaceNames
  | Apply => topologicalSort (workspaces config) workspaceNames
  | Destroy =>
      match topologicalSort (workspaces config) workspaceNames with
      | Ok l => Ok (reverse l)
      | Throw e => Throw e
      end
  end.

Definition not_in_configuration_message (name dep : string) : string :=
  "Workspace '" +:+ name +:+ "' depends on '" +:+ dep +:+ "', but '" +:+ dep
  +:+ "' is not defined in the configuration".

Definition self_dependency_message (name : string) : string :=
  "Workspace '" +:+ name +:+ "' cannot depend on itself".

(** The inner loop of [validateDependencies] over one workspace's
    dependencies. *)
Fixpoint check_dependencies (workspaceNames : gset string) (name : string)
    (dependencies : list string) : Res unit :=
  match dependencies with
  | [] => Ok ()
  | dep :: rest =>
      if negb (bool_decide (dep ∈ workspaceNames))
      then Throw (JsError (not_in_configuration_message name dep))
      else if bool_decide (dep = name)
      then Throw (JsError (self_dependency_message name))
      else check_dependencies workspaceNames name rest
  end.

(** The outer loop of [validateDependencies] over [Object.entries]. *)
Fixpoint check_entries (workspaceNames : gset string)
    (entries : list (string * WorkspaceConfig)) : Res unit :=
  match entries with
  | [] => Ok ()
  | (name, workspace) :: rest =>
      match check_dependencies workspaceNames name (dependsOn_or_empty workspace) with
      | Ok _ => check_entries workspaceNames rest
      | Throw e => Throw e
      end
  end.

(** [validateDependencies] *)
Definition validateDependencies (config : TFEConfig) : Res unit :=
  let workspaceNames : gset string := list_to_set (Object_keys (workspaces config)) in
  match check_entries workspaceNames (workspaces config) with
  | Throw e => Throw e
  | Ok _ =>
      match action config with
      | Apply | Destroy =>
          match resolveExecutionOrder config with
          | Ok _ => Ok ()
          | Throw (JsError m) =>
              Throw (JsError ("Dependency validation failed: " +:+ m))
          | Throw e => Throw e
          end
      | Create | Delete => Ok ()
      end
  end.

(** ** The world outside: HTTP client, clock, warnings *)

Record VcsRepo : Type := {
  identifier : string;
  vcs_oauth_token_id : string;
  vcs_branch : option string
}.

Record WorkspaceAttributes : Type := {
  attr_name : string;
  attr_auto_apply : bool;
  attr_terraform_version : string;
  attr_execution_mode : ExecutionMode;
  attr_vcs_repo : option VcsRepo
}.

Inductive VariableCategory : Type := terraform | env.

(** The request bodies of types.ts. *)
Inductive Payload : Type :=
  | TFEWorkspaceRequest (attributes : WorkspaceAttributes)
  | TFEVariableRequest (key value : string) (category : VariableCategory)
      (hcl sensitive : bool)
  | TFEVariableSetAttachRequest (workspaceId : string)
  | TFERunRequest (message : string) (auto_apply is_destroy : bool)
      (workspaceId : string).

(** A call of the HTTP client: [postJson(url, payload)], [getJson(url)] or
    [del(url)]. *)
Inductive Request : Type :=
  | PostJson (url : string) (payload : Payload)
  | GetJson (url : string)
  | Del (url : string).

Record ApiError : Type := {
  err_status : option string;
  err_title : option string;
  err_detail : option string
}.

(** A property that should hold an object, as the JSON of an answer may have
    it: the object, [null], or no such property ([undefined]). *)
Inductive Field (A : Type) : Type :=
  | Has (a : A)
  | Null
  | Missing.
Arguments Has {A} a.
Arguments Null {A}.
Arguments Missing {A}.

(** [data.attributes], with the two fields the code reads. Either may be
    absent ([undefined]): an answer about a run has no ['html-url'], one
    about a workspace no [status]. [None] for [status] also stands for a
    value that is none of [RunStatus]. *)
Record Attributes : Type := {
  html_url : option string;
  status : option RunStatus
}.

(** [data]: its [id], a string as types.ts has it, and its [attributes]. *)
Record Data : Type := {
  data_id : string;
  attributes : Field Attributes
}.

(** A response body: [data], which an error answer lacks, and [errors]. *)
Record Body : Type := {
  data : Field Data;
  errors : option (list ApiError)
}.

(** The [TypeError] of reading [property] of [null] or [undefined], with the
    message of V8. *)
Definition TypeError_reading (value property : string) : Thrown :=
  JsError ("Cannot read properties of " +:+ value
           +:+ " (reading '" +:+ property +:+ "')").

(** [holder.property], where [holder] evaluated to [field]. *)
Definition member {A : Type} (field : Field A) (property : string) : Res A :=
  match field with
  | Has a => Ok a
  | Null => Throw (TypeError_reading "null" property)
  | Missing => Throw (TypeError_reading "undefined" property)
  end.

(** [body.data.id] *)
Definition read_data_id (body : Body) : Res string :=
  match member (data body) "id" with
  | Ok d => Ok (data_id d)
  | Throw e => Throw e
  end.

(** [body.data.attributes['html-url']] *)
Definition read_html_url (body : Body) : Res (option string) :=
  match member (data body) "attributes" with
  | Ok d =>
      match member (attributes d) "html-url" with
      | Ok a => Ok (html_url a)
      | Throw e => Throw e
      end
  | Throw e => Throw e
  end.

(** [body.data.attributes.status] *)
Definition read_status (body : Body) : Res (option RunStatus) :=
  match member (data body) "attributes" with
  | Ok d =>
      match member (attributes d) "status" with
      | Ok a => Ok (status a)
      | Throw e => Throw e
      end
  | Throw e => Throw e
  end.

(** What the HTTP client resolves to: a status code (which may be
    [undefined]) and a body (which may be [null]). For [del] the status code
    is [response.message.statusCode]. *)
Record Response : Type := {
  statusCode : option Z;
  result : option Body
}.

Inductive Reply : Type :=
  | Resolves (response : Response)
  | Rejects (e : Thrown).

(** The remote side. What a request is answered depends on the request and on
    the requests sent before it; so does the time the answer takes, and the
    time by which a timer fires late. Times are in milliseconds. *)
Record Backend : Type := {
  reply : list Request → Request → Reply;
  latency : list Request → Request → N;
  timer_lag : list Request → N
}.

(** What the program has done to the world, and the time. *)
Record World : Type := {
  clock : Z;
  requests : list Request;
  warnings : list string
}.

(** An asynchronous computation: it runs in a world, returns or throws, and
    leaves a world. Of the action's log only the [core.warning] lines are
    kept. *)
Definition M (A : Type) : Type := World → Res A * World.

Global Instance M_ret : MRet M := λ A a w, (Ok a, w).

Global Instance M_bind : MBind M := λ A B f m w,
  match m w with
  | (Ok a, w') => f a w'
  | (Throw e, w') => (Throw e, w')
  end.

Definition throw {A : Type} (e : Thrown) : M A := λ w, (Throw e, w).

(** [try { body } catch (error) { handler }] *)
Definition try_catch {A : Type} (body : M A) (handler : Thrown → M A) : M A :=
  λ w, match body w with
       | (Ok a, w') => (Ok a, w')
       | (Throw e, w') => handler e w'
       end.

(** A synchronous call that returns or throws. *)
Definition lift {A : Type} (r : Res A) : M A := λ w, (r, w).

(** The world [w] with one more warning. *)
Definition warned (line : string) (w : World) : World :=
  {| clock := clock w; requests := requests w;
     warnings := warnings w ++ [line] |}.

(** [core.warning(line)] *)
Definition core_warning (line : string) : M unit := λ w, (Ok (), warned line w).

(** [Date.now()] *)
Definition Date_now : M Z := λ w, (Ok (clock w), w).

Definition pollInterval : Z := 5000.

Section remote.
Variable backend : Backend.

(** The world once the answer to [req] has arrived. *)
Definition after_request (req : Request) (w : World) : World :=
  {| clock := clock w + Z.of_N (latency backend (requests w) req);
     requests := requests w ++ [req];
     warnings := warnings w |}.

(** [await] of a call of the HTTP client. *)
Definition send (req : Request) : M Response := λ w,
  match reply backend (requests w) req with
  | Resolves response => (Ok response, after_request req w)
  | Rejects e => (Throw e, after_request req w)
  end.

(** The world after [await new Promise((resolve) => setTimeout(resolve, ms))]:
    the timer has fired, [ms] milliseconds later or more. *)
Definition after_timer (ms : Z) (w : World) : World :=
  {| clock := clock w + ms + Z.of_N (timer_lag backend (requests w));
     requests := requests w;
     warnings := warnings w |}.
End remote.

(** ** tfe-client.ts *)

(** [String(value)] of a variable's value. *)
Definition String_of_value (value : VariableValue) : string :=
  match value with
  | VString s => s
  | VNumber n => pretty n
  | VBoolean true => "true"
  | VBoolean false => "false"
  end.

(** [a || d] for an optional string [a]: the empty string is falsy. *)
Definition or_string (a : option string) (d : string) : string :=
  match a with
  | Some s => if bool_decide (s = "") then d else s
  | None => d
  end.

(** [`${statusCode}`] *)
Definition statusCode_text (statusCode : option Z) : string :=
  match statusCode with
  | Some c => pretty c
  | None => "undefined"
  end.

(** [formatError] *)
Definition formatError (statusCode : option Z) (errorData : option Body) : string :=
  let status := match statusCode with Some c => pretty c | None => "unknown" end in
  match errorData ≫= errors with
  | Some (err :: errs) =>
      let errorMessages :=
        join ", " ((λ err, or_string (err_detail err)
                             (or_string (err_title err) "Unknown error"))
                   <$> err :: errs) in
      "HTTP " +:+ status +:+ ": " +:+ errorMessages
  | _ =>
      match statusCode with
      | Some 401%Z => "HTTP 401: Unauthorized - Invalid TFE token"
      | Some 404%Z => "HTTP 404: Organization not found"
      | Some 422%Z =>
          "HTTP 422: Unprocessable Entity - Check workspace name and organization"
      | _ => "HTTP " +:+ status +:+ ": Request failed"
      end
  end.

(** The [options] argument of [createWorkspace]. *)
Record WorkspaceOptions : Type := {
  autoApply : option bool;
  terraformVersion : option string;
  executionMode : option ExecutionMode;
  options_vcs : option VCSConfig
}.

Definition RunStatus_text (s : RunStatus) : string :=
  match s with
  | pending => "pending" | plan_queued => "plan_queued"
  | planning => "planning" | planned => "planned"
  | cost_estimating => "cost_estimating" | cost_estimated => "cost_estimated"
  | policy_checking => "policy_checking" | policy_override => "policy_override"
  | policy_soft_failed => "policy_soft_failed"
  | policy_checked => "policy_checked" | confirmed => "confirmed"
  | apply_queued => "apply_queued" | applying => "applying"
  | applied => "applied" | discarded => "discarded" | errored => "errored"
  | canceled => "canceled" | force_canceled => "force_canceled"
  end.

Global Instance RunStatus_eq_dec : EqDecision RunStatus.
Proof. solve_decision. Defined.

Definition terminalStates : list RunStatus :=
  [applied; errored; canceled; force_canceled; discarded].

(** [states.includes(status)] *)
Definition includes (states : list RunStatus) (status : option RunStatus) : bool :=
  match status with
  | Some s => bool_decide (s ∈ states)
  | None => false
  end.

(** [`${status}`] *)
Definition status_text (status : option RunStatus) : string :=
  match status with
  | Some s => RunStatus_text s
  | None => "undefined"
  end.

(** The digits of [timeout / 1000] as JavaScript prints the number, for a
    whole number of milliseconds below 2^53 in size. *)
Definition seconds_text (timeout : Z) : string :=
  let a := Z.abs timeout in
  let whole := (a / 1000)%Z in
  let frac := (a mod 1000)%Z in
  let digits :=
    if bool_decide (frac = 0%Z) then ""
    else if bool_decide ((frac mod 100)%Z = 0%Z) then "." +:+ pretty (frac / 100)%Z
    else if bool_decide ((frac mod 10)%Z = 0%Z)
         then "." +:+ pretty (frac / 100)%Z +:+ pretty ((frac / 10) mod 10)%Z
    else "." +:+ pretty (frac / 100)%Z +:+ pretty ((frac / 10) mod 10)%Z
             +:+ pretty (frac mod 10)%Z in
  (if bool_decide (timeout < 0)%Z then "-" else "") +:+ pretty whole +:+ digits.

Definition timed_out_message (runId : string) (timeout : Z) : string :=
  "Run " +:+ runId +:+ " timed out after " +:+ seconds_text timeout +:+ " seconds".

(** What one poll of [waitForRun] found. *)
Inductive Poll : Type :=
  | Terminal (run : Body)
  | NotYet.

Section TFEClient.
Variable backend : Backend.
(** The field [hostname]. The token only sets a request header. *)
Variable hostname : string.

Definition postJson (url : string) (payload : Payload) : M Response :=
  send backend (PostJson url payload).
Definition getJson (url : string) : M Response := send backend (GetJson url).
Definition del (url : string) : M Response := send backend (Del url).

Definition workspaces_url (organization : string) : string :=
  "https://" +:+ hostname +:+ "/api/v2/organizations/" +:+ organization
  +:+ "/workspaces".

Definition workspace_url (organization workspaceName : string) : string :=
  "https://" +:+ hostname +:+ "/api/v2/organizations/" +:+ organization
  +:+ "/workspaces/" +:+ workspaceName.

Definition run_url (runId : string) : string :=
  "https://" +:+ hostname +:+ "/api/v2/runs/" +:+ runId.

(** [createWorkspace] *)
Definition createWorkspace (organization workspaceName : string)
    (options : WorkspaceOptions) : M Body :=
  let url := workspaces_url organization in
  let payload := TFEWorkspaceRequest
    {| attr_name := workspaceName;
       attr_auto_apply := default false (autoApply options);
       attr_terraform_version := default "latest" (terraformVersion options);
       attr_execution_mode := default Remote (executionMode options);
       attr_vcs_repo :=
         (λ v, {| identifier := repository v;
                  vcs_oauth_token_id := oauth_token_id v;
                  vcs_branch := branch v |}) <$> options_vcs options |} in
  try_catch
    (response ← postJson url payload;
     if negb (bool_decide (statusCode response = Some 201%Z))
     then throw (JsError (formatError (statusCode response) (result response)))
     else match result response with
          | None => throw (JsError "No response data from TFE API")
          | Some body => mret body
          end)
    (λ error, throw (JsError ("Failed to create workspace: "
                              +:+ message_or_String error))).

(** One turn of the loop of [createVariables]. *)
Definition createVariable (url : string) (key : string) (value : VariableValue)
  : M Body :=
  let payload := TFEVariableRequest key (String_of_value value) terraform false false in
  try_catch
    (response ← postJson url payload;
     if negb (bool_decide (statusCode response = Some 201%Z))
     then throw (JsError (formatError (statusCode response) (result response)))
     else match result response with
          | None => throw (JsError "No response data from TFE API")
          | Some body => mret body
          end)
    (λ error, throw (JsError ("Failed to create variable '" +:+ key +:+ "': "
                              +:+ message_or_String error))).

Fixpoint createVariables_loop (url : string)
    (entries : list (string * VariableValue)) (results : list Body)
  : M (list Body) :=
  match entries with
  | [] => mret results
  | (key, value) :: rest =>
      body ← createVariable url key value;
      createVariables_loop url rest (results ++ [body])
  end.

(** [createVariables]; [variables] is the list [Object.entries] gives. *)
Definition createVariables (workspaceId : string)
    (variables : list (string * VariableValue)) : M (list Body) :=
  let url := "https://" +:+ hostname +:+ "/api/v2/workspaces/" +:+ workspaceId
             +:+ "/vars" in
  createVariables_loop url variables [].

(** [attachVariableSet] *)
Definition attachVariableSet (variableSetId workspaceId : string) : M unit :=
  let url := "https://" +:+ hostname +:+ "/api/v2/varsets/" +:+ variableSetId
             +:+ "/relationships/workspaces" in
  let payload := TFEVariableSetAttachRequest workspaceId in
  try_catch
    (response ← postJson url payload;
     if negb (bool_decide (statusCode response = Some 204%Z))
     then throw (JsError (formatError (statusCode response) (result response)))
     else mret ())
    (λ error, throw (JsError ("Failed to attach variable set: "
                              +:+ message_or_String error))).

(** [deleteWorkspace] *)
Definition deleteWorkspace (organization workspaceName : string) : M unit :=
  let url := workspace_url organization workspaceName in
  try_catch
    (response ← del url;
     if negb (bool_decide (statusCode response = Some 204%Z))
     then throw (JsError ("HTTP " +:+ statusCode_text (statusCode response)
                          +:+ ": Failed to delete workspace"))
     else mret ())
    (λ error, throw (JsError ("Failed to delete workspace: "
                              +:+ message_or_String error))).

(** [getWorkspace] *)
Definition getWorkspace (organization workspaceName : string) : M Body :=
  let url := workspace_url organization workspaceName in
  try_catch
    (response ← getJson url;
     if negb (bool_decide (statusCode response = Some 200%Z))
     then throw (JsError (formatError (statusCode response) (result response)))
     else match result response with
          | None => throw (JsError "No response data from TFE API")
          | Some body =>
              (* core.info(`... ${response.result.data.id}`) *)
              lift (read_data_id body);;
              mret body
          end)
    (λ error, throw (JsError ("Failed to get workspace: "
                              +:+ message_or_String error))).

(** [createRun] *)
Definition createRun (workspaceId message : string) (isDestroy autoApply : bool)
  : M Body :=
  let url := "https://" +:+ hostname +:+ "/api/v2/runs" in
  let payload := TFERunRequest message autoApply isDestroy workspaceId in
  try_catch
    (response ← postJson url payload;
     if negb (bool_decide (statusCode response = Some 201%Z))
     then throw (JsError (formatError (statusCode response) (result response)))
     else match result response with
          | None => throw (JsError "No response data from TFE API")
          | Some body =>
              (* core.info(`... ${response.result.data.id}`) *)
              lift (read_data_id body);;
              mret body
          end)
    (λ error, throw (JsError ("Failed to create run: "
                              +:+ message_or_String error))).

(** The [try] block of one turn of the loop of [waitForRun], up to the
    wait; the [catch] passes an [Error] on and wraps anything else. *)
Definition poll (runId : string) : M Poll :=
  try_catch
    (response ← getJson (run_url runId);
     if negb (bool_decide (statusCode response = Some 200%Z))
     then throw (JsError ("Failed to get run status: HTTP "
                          +:+ statusCode_text (statusCode response)))
     else match result response with
          | None => throw (JsError "No response data from TFE API")
          | Some run =>
              status ← lift (read_status run);
              if includes terminalStates status
              then
                (if bool_decide (status = Some applied) then mret ()
                 else if bool_decide (status = Some errored)
                 then throw (JsError ("Run failed with status: "
                                      +:+ status_text status))
                 else core_warning ("Run ended with status: "
                                    +:+ status_text status));;
                mret (Terminal run)
              else mret NotYet
          end)
    (λ error,
       match error with
       | JsError _ => throw error
       | NonError text =>
           throw (JsError ("Failed to poll run status: " +:+ text))
       end).

(** How many more turns the loop of [waitForRun] can take at most. *)
Definition turns_left (timeout startTime : Z) (w : World) : nat :=
  Z.to_nat ((timeout - (clock w - startTime)) / pollInterval + 1).

(** The loop [while (true)] of [waitForRun]. The wait between two polls
    stands after the [try] here: it cannot throw. The loop ends because the
    clock of the world advances with every wait. *)
Equations? waitForRun_loop (runId : string) (timeout startTime : Z) (w : World)
  : Res Body * World by wf (turns_left timeout startTime w) lt :=
waitForRun_loop runId timeout startTime w with decide (timeout < clock w - startTime)%Z := {
  | left _ => (Throw (JsError (timed_out_message runId timeout)), w)
  | right _ =>
      match (poll runId w).1 with
      | Throw e => (Throw e, (poll runId w).2)
      | Ok (Terminal run) => (Ok run, (poll runId w).2)
      | Ok NotYet =>
          waitForRun_loop runId timeout startTime
            (after_timer backend pollInterval (poll runId w).2)
      end }.
Proof.
  assert (clock w ≤ clock (poll runId w).2)%Z as Hclock.
  { unfold poll, try_catch, getJson, send, mbind, M_bind, after_request.
    destruct (reply backend (requests w) (GetJson (run_url runId)))
      as [response|[]]; simpl; [|lia..].
    destruct (bool_decide (statusCode response = Some 200%Z)); simpl; [|lia].
    destruct (result response) as [run|]; simpl; [|lia].
    unfold lift. destruct (read_status run) as [status|[]]; simpl; [|lia..].
    destruct (includes terminalStates status); simpl; [|lia].
    repeat (case_bool_decide; simpl); lia. }
  unfold turns_left, after_timer, pollInterval in *. simpl.
  set (c := clock (poll runId w).2) in *.
  set (lag := Z.of_N (timer_lag backend (requests (poll runId w).2))).
  assert (0 ≤ lag)%Z by lia.
  replace (timeout - (c + 5000 + lag - startTime))%Z
    with ((timeout - (c - startTime) - lag) + (-1) * 5000)%Z by lia.
  rewrite Z.div_add by lia.
  assert (0 ≤ (timeout - (clock w - startTime)) / 5000)%Z
    by (apply Z.div_pos; lia).
  assert ((timeout - (c - startTime) - lag) / 5000
          ≤ (timeout - (clock w - startTime)) / 5000)%Z
    by (apply Z.div_le_mono; lia).
  lia.
Qed.

(** [waitForRun]; [None] for [timeout] is a call that leaves it out. *)
Definition waitForRun (runId : string) (timeout : option Z) : M Body :=
  startTime ← Date_now;
  waitForRun_loop runId (default 1800000%Z timeout) startTime.
End TFEClient.

(** ** workspace-manager.ts *)

Record WorkspaceOperationResult : Type := {
  workspace : string;
  success : bool;
  workspaceId : option string;
  workspaceUrl : option string;
  error : option string
}.

(** A workspace configuration with every field absent. *)
Definition no_fields : WorkspaceConfig :=
  {| vcs := None; variables := None; auto_apply := None;
     terraform_version := None; execution_mode := None;
     variable_set_id := None; dependsOn := None |}.

(** The fields of [config.workspaces[name]] as [createSingleWorkspace] reads
    them: an inherited property has none of them, and reading a field of
    [undefined] throws a [TypeError]. *)
Definition fields_of (config : Property) : Res WorkspaceConfig :=
  match config with
  | OwnValue w => Ok w
  | Inherited => Ok no_fields
  | Undefined =>
      Throw (JsError "Cannot read properties of undefined (reading 'auto-apply')")
  end.

(** All promises of a [Promise.all] fulfilled, or a rejection. The first
    rejection in the array stands for the one that comes first in time. *)
Fixpoint all_fulfilled {A : Type} (l : list (Res A)) : Res (list A) :=
  match l with
  | [] => Ok []
  | Ok a :: l' =>
      match all_fulfilled l' with
      | Ok r => Ok (a :: r)
      | Throw e => Throw e
      end
  | Throw e :: _ => Throw e
  end.

(** The world after concurrent tasks that all started in [w]: the requests
    and warnings of each, task after task, and the latest clock. *)
Definition joined (w : World) (ends : list World) : World :=
  {| clock := foldr Z.max (clock w) (clock <$> ends);
     requests := requests w
       ++ mjoin ((λ w', drop (length (requests w)) (requests w')) <$> ends);
     warnings := warnings w
       ++ mjoin ((λ w', drop (length (warnings w)) (warnings w')) <$> ends) |}.

(** [await Promise.all(names.map(task))]. Every task starts in the world of
    the call and runs against the answers it gets itself: its own world holds
    its own requests, and what the other tasks do to the remote side shows
    only in the answers of the backend. How the tasks interleave in time is
    not modelled. *)
Definition Promise_all_map {A : Type} (task : string → M A) (names : list string)
  : M (list A) := λ w,
  let outcomes := (λ name, task name w) <$> names in
  (all_fulfilled (outcomes.*1), joined w (outcomes.*2)).

Section WorkspaceManager.
Variable backend : Backend.
Variable hostname : string.
(** The field [organization]. *)
Variable organization : string.

(** The [try] block of [createSingleWorkspace]. *)
Definition createSingleWorkspace_try (name : string) (config : Property)
  : M WorkspaceOperationResult :=
  config ← lift (fields_of config);
  response ← createWorkspace backend hostname organization name
    {| autoApply := auto_apply config;
       terraformVersion := terraform_version config;
       executionMode := execution_mode config;
       options_vcs := vcs config |};
  workspaceId ← lift (read_data_id response);
  workspaceUrl ← lift (read_html_url response);
  (* if (config['variable-set-id']): the empty string is falsy *)
  match variable_set_id config with
  | Some id =>
      if bool_decide (id = "") then mret ()
      else attachVariableSet backend hostname id workspaceId
  | None => mret ()
  end;;
  (* if (config.variables && Object.keys(config.variables).length > 0) *)
  match variables config with
  | Some (v :: vs) =>
      createVariables backend hostname workspaceId (v :: vs);; mret ()
  | _ => mret ()
  end;;
  mret {| workspace := name; success := true;
          workspaceId := Some workspaceId;
          workspaceUrl := workspaceUrl; error := None |}.

(** What every [catch] of the manager returns. *)
Definition failed (name : string) (error : Thrown) : WorkspaceOperationResult :=
  {| workspace := name; success := false; workspaceId := None;
     workspaceUrl := None; error := Some (message_or_unknown error) |}.

(** [createSingleWorkspace] *)
Definition createSingleWorkspace (name : string) (config : Property)
  : M WorkspaceOperationResult :=
  try_catch (createSingleWorkspace_try name config)
            (λ error, mret (failed name error)).

(** [createWorkspaces] *)
Definition createWorkspaces (config : TFEConfig) (workspaceNames : list string)
  : M (list WorkspaceOperationResult) :=
  Promise_all_map
    (λ name, createSingleWorkspace name (get (workspaces config) name))
    workspaceNames.

Definition deleteSingleWorkspace_try (name : string)
  : M WorkspaceOperationResult :=
  deleteWorkspace backend hostname organization name;;
  mret {| workspace := name; success := true; workspaceId := None;
          workspaceUrl := None; error := None |}.

(** [deleteSingleWorkspace] *)
Definition deleteSingleWorkspace (name : string) : M WorkspaceOperationResult :=
  try_catch (deleteSingleWorkspace_try name)
            (λ error, mret (failed name error)).

(** [deleteWorkspaces] *)
Definition deleteWorkspaces (config : TFEConfig) (workspaceNames : list string)
  : M (list WorkspaceOperationResult) :=
  Promise_all_map deleteSingleWorkspace workspaceNames.

(** The [try] block of [applySingleWorkspace] ([isDestroy = false]) and of
    [destroySingleWorkspace] ([isDestroy = true]), which differ in the
    run's message and flag only. *)
Definition runSingleWorkspace_try (isDestroy : bool) (name : string)
  : M WorkspaceOperationResult :=
  workspace ← getWorkspace backend hostname organization name;
  workspaceId ← lift (read_data_id workspace);
  run ← createRun backend hostname workspaceId
          (if isDestroy then "Destroy triggered by GitHub Actions"
           else "Apply triggered by GitHub Actions")
          isDestroy true;
  runId ← lift (read_data_id run);
  waitForRun backend hostname runId None;;
  mret {| workspace := name; success := true;
          workspaceId := Some workspaceId;
          workspaceUrl := None; error := None |}.

(** [applySingleWorkspace] *)
Definition applySingleWorkspace (name : string) : M WorkspaceOperationResult :=
  try_catch (runSingleWorkspace_try false name)
            (λ error, mret (failed name error)).

(** The loop of [applyWorkspaces]. *)
Fixpoint applyWorkspaces_loop (workspaceNames : list string)
    (results : list WorkspaceOperationResult)
  : M (list WorkspaceOperationResult) :=
  match workspaceNames with
  | [] => mret results
  | name :: rest =>
      result ← applySingleWorkspace name;
      let results := results ++ [result] in
      if negb (success result)
      then mret results (* break *)
      else applyWorkspaces_loop rest results
  end.

(** [applyWorkspaces] *)
Definition applyWorkspaces (config : TFEConfig) (workspaceNames : list string)
  : M (list WorkspaceOperationResult) :=
  applyWorkspaces_loop workspaceNames [].

(** [destroySingleWorkspace] *)
Definition destroySingleWorkspace (name : string) : M WorkspaceOperationResult :=
  try_catch (runSingleWorkspace_try true name)
            (λ error, mret (failed name error)).

Definition continuing_message (name : string) : string :=
  "Failed to destroy workspace " +:+ name
  +:+ ", continuing with remaining workspaces...".

(** The loop of [destroyWorkspaces]. *)
Fixpoint destroyWorkspaces_loop (workspaceNames : list string)
    (results : list WorkspaceOperationResult)
  : M (list WorkspaceOperationResult) :=
  match workspaceNames with
  | [] => mret results
  | name :: rest =>
      result ← destroySingleWorkspace name;
      let results := results ++ [result] in
      (if negb (success result)
       then core_warning (continuing_message name)
       else mret ());;
      destroyWorkspaces_loop rest results
  end.

(** [destroyWorkspaces] *)
Definition destroyWorkspaces (config : TFEConfig) (workspaceNames : list string)
  : M (list WorkspaceOperationResult) :=
  destroyWorkspaces_loop workspaceNames [].

(** [execute] *)
Definition execute (config : TFEConfig) : M (list WorkspaceOperationResult) :=
  lift (validateDependencies config);;
  workspaceNames ← lift (resolveExecutionOrder config);
  match action config with
  | Create => createWorkspaces config workspaceNames
  | Delete => deleteWorkspaces config workspaceNames
  | Apply => applyWorkspaces config workspaceNames
  | Destroy => destroyWorkspaces config workspaceNames
  end.
End WorkspaceManager.

(** ** The dependency relation of a configuration *)

(** Workspace [x] of the configuration lists [y] in its [dependsOn]. *)
Definition declares (ws : list (string * WorkspaceConfig)) (x y : string) : Prop :=
  ∃ w, own_property ws x = Some w ∧ y ∈ dependsOn_or_empty w.

(** Some workspace depends on itself through one or more declared
    dependencies. *)
Definition has_cycle (ws : list (string * WorkspaceConfig)) : Prop :=
  ∃ x, tc (declares ws) x x.

(** Every declared dependency names a workspace of the configuration. *)
Definition dependencies_defined (ws : list (string * WorkspaceConfig)) : Prop :=
  ∀ x y, declares ws x y → y ∈ Object_keys ws.

(** Each element of [l] declares the next one. *)
Definition chain (ws : list (string * WorkspaceConfig)) (l : list string) : Prop :=
  ∀ i x y, l !! i = Some x → l !! S i = Some y → declares ws x y.

(** What a returning call leaves behind, whatever the state it started in:
    [visiting] is as before, [sorted] and [visited] have only grown. *)
Definition frame (st st' : SortState) : Prop :=
  visiting st' = visiting st
  ∧ (∃ added, sorted st' = sorted st ++ added)
  ∧ visited st ⊆ visited st'.

(** In [l], every declared dependency of an element stands before it. *)
Definition dependencies_first (ws : list (string * WorkspaceConfig))
    (l : list string) : Prop :=
  ∀ i x y, l !! i = Some x → declares ws x y → ∃ j, l !! j = Some y ∧ j < i.

(** [x] is a workspace of the configuration or a name some workspace lists. *)
Definition mentioned (ws : list (string * WorkspaceConfig)) (x : string) : Prop :=
  x ∈ Object_keys ws ∨ ∃ k, declares ws k x.

(** The invariant of the traversal between two calls of [visit]. *)
Definition sort_invariant (ws : list (string * WorkspaceConfig))
    (st : SortState) : Prop :=
  (∀ x, x ∈ visited st ↔ x ∈ sorted st)
  ∧ NoDup (sorted st)
  ∧ visiting st ## visited st
  ∧ dependencies_first ws (sorted st)
  ∧ (∀ x, x ∈ sorted st → mentioned ws x).

(** The error [e] is the cycle error of a traversal that went down [path]
    and then into [name]: its message lists the whole path of nested calls,
    from the outer loop's workspace down to the node [x] it met again, the
    part from the first [x] on being a cycle. *)
Definition circular_report (ws : list (string * WorkspaceConfig))
    (path : list string) (name : string) (e : Thrown) : Prop :=
  ∃ lead x cyc rest,
    e = JsError (circular_message (lead ++ x :: cyc ++ [x]))
    ∧ lead ++ x :: cyc ++ [x] = path ++ name :: rest
    ∧ chain ws (lead ++ x :: cyc ++ [x])
    ∧ NoDup (lead ++ x :: cyc).

(** The error [e] is [topologicalSort]'s error for a dependency that reads
    as a falsy value. *)
Definition undefined_report (ws : list (string * WorkspaceConfig))
    (e : Thrown) : Prop :=
  ∃ x dep,
    e = JsError (undefined_message x dep)
    ∧ declares ws x dep ∧ truthy (get ws dep) = false.

(** The configuration [config] with another action. *)
Definition with_action (a : ActionType) (config : TFEConfig) : TFEConfig :=
  {| action := a; workspaces := workspaces config |}.

(** Some workspace lists itself, or a name that is no workspace of the
    configuration, among its dependencies. *)
Definition invalid_dependency (config : TFEConfig) : Prop :=
  ∃ name w dep,
    (name, w) ∈ workspaces config ∧ dep ∈ dependsOn_or_empty w
    ∧ (dep = name ∨ dep ∉ Object_keys (workspaces config)).

(** Resolution throws the cycle error for a path of workspaces of the
    configuration that starts and ends at the same node. *)
Definition reports_closed_path (config : TFEConfig) : Prop :=
  ∃ path x,
    resolveExecutionOrder config = Throw (JsError (circular_message path))
    ∧ path ⊆ Object_keys (workspaces config)
    ∧ head path = Some x ∧ last path = Some x.

(** ** What the specification says of results and runs *)

(** The shape of a result: a failure carries a message and neither an id
    nor a URL, a success carries no message. *)
Definition well_formed_result (r : WorkspaceOperationResult) : Prop :=
  if success r
  then error r = None
  else (∃ message, error r = Some message)
       ∧ workspaceId r = None ∧ workspaceUrl r = None.

(** The requests sent between the worlds [w] and [w']. *)
Definition requests_since (w w' : World) : list Request :=
  drop (length (requests w)) (requests w').

(** What an attempt records for the outcome of its [try] block. *)
Definition recorded (name : string) (outcome : Res WorkspaceOperationResult)
  : WorkspaceOperationResult :=
  match outcome with
  | Ok r => r
  | Throw e => failed name e
  end.

(** Attempts of apply on [names], one after the other from the world [w] on,
    none of which throws in its [try] block, with their results and the
    world they leave. *)
Inductive all_applied (backend : Backend) (hostname organization : string)
  : list string → World → list WorkspaceOperationResult → World → Prop :=
  | all_applied_nil w : all_applied backend hostname organization [] w [] w
  | all_applied_cons name names w r w1 rs w2 :
      runSingleWorkspace_try backend hostname organization false name w
        = (Ok r, w1) →
      all_applied backend hostname organization names w1 rs w2 →
      all_applied backend hostname organization (name :: names) w (r :: rs) w2.

(** Attempts of destroy on [names], one after the other from the world [w]
    on, whatever the outcome of their [try] blocks; one that throws is
    recorded as a failure and followed by the warning. *)
Inductive each_destroyed (backend : Backend) (hostname organization : string)
  : list string → World → list WorkspaceOperationResult → World → Prop :=
  | each_destroyed_nil w : each_destroyed backend hostname organization [] w [] w
  | each_destroyed_cons name names w outcome w1 rs w2 :
      runSingleWorkspace_try backend hostname organization true name w
        = (outcome, w1) →
      each_destroyed backend hostname organization names
        (match outcome with
         | Ok _ => w1
         | Throw _ => warned (continuing_message name) w1
         end) rs w2 →
      each_destroyed backend hostname organization (name :: names) w
        (recorded name outcome :: rs) w2.

(** Polling the run [runId] from the world [w] on, within [timeout] of
    [startTime], sees statuses that are not terminal and then the terminal
    [run], whose answer leaves the world [w']. *)
Inductive observes (backend : Backend) (hostname runId : string)
    (timeout startTime : Z) : World → Body → World → Prop :=
  | observes_now w run status :
      ¬ (timeout < clock w - startTime)%Z →
      reply backend (requests w) (GetJson (run_url hostname runId))
        = Resolves {| statusCode := Some 200%Z; result := Some run |} →
      read_status run = Ok status →
      includes terminalStates status = true →
      observes backend hostname runId timeout startTime w run
        (after_request backend (GetJson (run_url hostname runId)) w)
  | observes_later w r status run w' :
      ¬ (timeout < clock w - startTime)%Z →
      reply backend (requests w) (GetJson (run_url hostname runId))
        = Resolves {| statusCode := Some 200%Z; result := Some r |} →
      read_status r = Ok status →
      includes terminalStates status = false →
      observes backend hostname runId timeout startTime
        (after_timer backend pollInterval
           (after_request backend (GetJson (run_url hostname runId)) w))
        run w' →
      observes backend hostname runId timeout startTime w run w'.

(** Whenever the run [runId] is polled, the answer is a status that is not
    terminal. *)
Definition never_terminal (backend : Backend) (hostname runId : string) : Prop :=
  ∀ log, ∃ run status,
    reply backend log (GetJson (run_url hostname runId))
      = Resolves {| statusCode := Some 200%Z; result := Some run |}
    ∧ read_status run = Ok status
    ∧ includes terminalStates status = false.

(** The computation [m] only adds to the requests sent. *)
Definition grows {A : Type} (m : M A) : Prop :=
  ∀ w, requests w `prefix_of` requests (m w).2.

(** The world after [n] rounds of the loop of [waitForRun] that found no
    terminal status: each round is one request for the run followed by one
    timer of [pollInterval]. *)
Fixpoint poll_rounds (backend : Backend) (hostname runId : string) (n : nat)
    (w : World) : World :=
  match n with
  | O => w
  | S n' =>
      poll_rounds backend hostname runId n'
        (after_timer backend pollInterval
           (after_request backend (GetJson (run_url hostname runId)) w))
  end.

(** [applySingleWorkspace] or [destroySingleWorkspace]. *)
Definition attempt (backend : Backend) (hostname organization : string)
    (isDestroy : bool) : string → M WorkspaceOperationResult :=
  if isDestroy then destroySingleWorkspace backend hostname organization
  else applySingleWorkspace backend hostname organization.

(** The message of the run that [applySingleWorkspace] or
    [destroySingleWorkspace] creates. *)
Definition run_message (isDestroy : bool) : string :=
  if isDestroy then "Destroy triggered by GitHub Actions"
  else "Apply triggered by GitHub Actions".

(** ** Sample configurations *)

(** A workspace with these dependencies and nothing else. *)
Definition depending_on (deps : list string) : WorkspaceConfig :=
  {| vcs := None; variables := None; auto_apply := None;
     terraform_version := None; execution_mode := None;
     variable_set_id := None; dependsOn := Some deps |}.

(** [app] needs [db] and [net], [db] needs [net]. *)
Definition layered (a : ActionType) : TFEConfig :=
  {| action := a;
     workspaces := [("app", depending_on ["db"; "net"]);
                    ("db", depending_on ["net"]);
                    ("net", depending_on [])] |}.

(** [a] leads into the cycle of [b] and [c]. *)
Definition tailed_cycle : TFEConfig :=
  {| action := Apply;
     workspaces := [("a", depending_on ["b"]);
                    ("b", depending_on ["c"]);
                    ("c", depending_on ["b"])] |}.

(** [app] lists itself. *)
Definition self_dependent (a : ActionType) : TFEConfig :=
  {| action := a; workspaces := [("app", depending_on ["app"])] |}.

(** ** Sample worlds and backends *)

(** The world at the start: no request sent, no warning logged. *)
Definition epoch : World := {| clock := 0; requests := []; warnings := [] |}.

(** The body of an answer about the workspace or run [id], with a URL and
    the status [s]. *)
Definition resource (id : string) (s : RunStatus) : Body :=
  {| data := Has {| data_id := id;
                    attributes :=
                      Has {| html_url := Some ("https://app.terraform.io/" +:+ id);
                             status := Some s |} |};
     errors := None |}.

(** A response with status [code] and such a body. *)
Definition responds (code : Z) (id : string) (s : RunStatus) : Reply :=
  Resolves {| statusCode := Some code; result := Some (resource id s) |}.

(** A backend whose every request is rejected by the network. *)
Definition silent : Backend :=
  {| reply := λ _ _, Rejects (JsError "connect ECONNREFUSED");
     latency := λ _ _, 0%N;
     timer_lag := λ _, 0%N |}.

(** A backend that knows every workspace but [db] of the organization
    [acme]: it creates and deletes on request, and its runs are applied when
    first polled. *)
Definition without_db : Backend :=
  {| reply := λ _ req,
       match req with
       | GetJson url =>
           if bool_decide
                (url = "https://app.terraform.io/api/v2/organizations/acme/workspaces/db")
           then Resolves {| statusCode := Some 404%Z; result := None |}
           else responds 200 "ws-1" applied
       | PostJson _ _ => responds 201 "run-1" pending
       | Del _ => Resolves {| statusCode := Some 204%Z; result := None |}
       end;
     latency := λ _ _, 120%N;
     timer_lag := λ _, 3%N |}.

(** One workspace, [app], to be created with a variable set. *)
Definition with_variable_set : TFEConfig :=
  {| action := Create;
     workspaces :=
       [("app", {| vcs := None; variables := None; auto_apply := Some true;
                   terraform_version := None; execution_mode := None;
                   variable_set_id := Some "varset-1"; dependsOn := None |})] |}.

(** A backend that creates workspaces but fails to attach variable sets. *)
Definition without_variable_sets : Backend :=
  {| reply := λ _ req,
       match req with
       | PostJson _ (TFEVariableSetAttachRequest _) =>
           Resolves {| statusCode := Some 500%Z; result := None |}
       | PostJson _ _ => responds 201 "ws-7" pending
       | _ => responds 200 "ws-7" pending
       end;
     latency := λ _ _, 80%N;
     timer_lag := λ _, 0%N |}.

(** A backend on which the run of every workspace is canceled: the first
    poll of a run finds it planning, the second finds it canceled. *)
Definition canceling : Backend :=
  {| reply := λ log req,
       match req with
       | GetJson url =>
           if existsb (λ sent, match sent with
                                | GetJson u => bool_decide (u = url)
                                | _ => false
                                end) log
           then responds 200 "run-9" canceled
           else responds 200 "ws-9" planning
       | PostJson _ _ => responds 201 "run-9" pending
       | Del _ => Resolves {| statusCode := Some 204%Z; result := None |}
       end;
     latency := λ _ _, 40%N;
     timer_lag := λ _, 2%N |}.

(** A backend on which runs plan for ever. *)
Definition always_planning : Backend :=
  {| reply := λ _ _, responds 200 "run-3" planning;
     latency := λ _ _, 25%N;
     timer_lag := λ _, 1%N |}.

(** ** Further notions *)

(** Every workspace stands after each of its dependencies in the order of
    the keys of the configuration. *)
Definition keys_in_dependency_order (ws : list (string * WorkspaceConfig)) : Prop :=
  ∀ i name w dep,
    ws !! i = Some (name, w) → dep ∈ dependsOn_or_empty w →
    ∃ j, j < i ∧ Object_keys ws !! j = Some dep.

(** The first pass of [validateDependencies] finds nothing: every dependency
    of every entry is a workspace of the configuration other than the entry's
    own. *)
Definition dependencies_valid (ws : list (string * WorkspaceConfig)) : Prop :=
  ∀ name w dep,
    (name, w) ∈ ws → dep ∈ dependsOn_or_empty w →
    dep ∈ Object_keys ws ∧ dep ≠ name.

(** [app] lists a name that is no workspace but a property every object
    inherits. *)
Definition inheriting (a : ActionType) : TFEConfig :=
  {| action := a; workspaces := [("app", depending_on ["toString"])] |}.

(** The workspaces of [layered], listed from the bottom up. *)
Definition bottom_up (a : ActionType) : TFEConfig :=
  {| action := a;
     workspaces := [("net", depending_on []);
                    ("db", depending_on ["net"]);
                    ("app", depending_on ["db"; "net"])] |}.

(** The URL [createVariables] posts to. *)
Definition variables_url (hostname workspaceId : string) : string :=
  "https://" +:+ hostname +:+ "/api/v2/workspaces/" +:+ workspaceId +:+ "/vars".

(** The request [createVariables] sends for one entry of the variables. *)
Definition variable_request (url : string) (entry : string * VariableValue)
  : Request :=
  PostJson url
    (TFEVariableRequest entry.1 (String_of_value entry.2) terraform false false).

(** The first [n] polls of the run [runId], from the world [w] on, are made
    within [timeout] of [startTime] and find a status that is not
    terminal. *)
Fixpoint still_pending (backend : Backend) (hostname runId : string)
    (timeout startTime : Z) (n : nat) (w : World) : Prop :=
  match n with
  | O => True
  | S n' =>
      ¬ (timeout < clock w - startTime)%Z
      ∧ (∃ run status,
           reply backend (requests w) (GetJson (run_url hostname runId))
             = Resolves {| statusCode := Some 200%Z; result := Some run |}
           ∧ read_status run = Ok status
           ∧ includes terminalStates status = false)
      ∧ still_pending backend hostname runId timeout startTime n'
          (after_timer backend pollInterval
             (after_request backend (GetJson (run_url hostname runId)) w))
  end.

(** The message of the error a poll ends with when the answer is not a
    status 200 with a body in which the status can be read; [None] for an
    answer that is. *)
Definition poll_error (answer : Reply) : option string :=
  match answer with
  | Rejects (JsError m) => Some m
  | Rejects (NonError text) => Some ("Failed to poll run status: " +:+ text)
  | Resolves response =>
      if bool_decide (statusCode response = Some 200%Z)
      then match result response with
           | Some run =>
               match read_status run with
               | Ok _ => None
               | Throw (JsError m) => Some m
               | Throw (NonError text) =>
                   Some ("Failed to poll run status: " +:+ text)
               end
           | None => Some "No response data from TFE API"
           end
      else Some ("Failed to get run status: HTTP "
                 +:+ statusCode_text (statusCode response))
  end.

(** A backend whose runs are planning when first polled and whose second
    answer to a poll is a server error. *)
Definition failing_second_poll : Backend :=
  {| reply := λ log _,
       match log with
       | [] => responds 200 "run-5" planning
       | _ => Resolves {| statusCode := Some 503%Z; result := None |}
       end;
     latency := λ _ _, 30%N;
     timer_lag := λ _, 0%N |}.

(** The request that attaches the variable set [variableSetId] to a
    workspace. *)
Definition attach_request (hostname variableSetId workspaceId : string) : Request :=
  PostJson ("https://" +:+ hostname +:+ "/api/v2/varsets/" +:+ variableSetId
            +:+ "/relationships/workspaces")
    (TFEVariableSetAttachRequest workspaceId).

(** What [createSingleWorkspace] has left to send once the workspace
    [workspaceId] is created: the variable set, if one is configured, then
    the variables in the order of their entries. *)
Definition requests_after_creation (hostname workspaceId : string)
    (config : WorkspaceConfig) : list Request :=
  match variable_set_id config with
  | Some id =>
      if bool_decide (id = "") then []
      else [attach_request hostname id workspaceId]
  | None => []
  end
  ++ (variable_request (variables_url hostname workspaceId)
      <$> default [] (variables config)).

(** The request that creates the run of an attempt of apply or destroy. *)
Definition run_request (hostname : string) (isDestroy : bool)
    (workspaceId : string) : Request :=
  PostJson ("https://" +:+ hostname +:+ "/api/v2/runs")
    (TFERunRequest (run_message isDestroy) true isDestroy workspaceId).

(** A body whose [data] has an id and no [attributes]. *)
Definition bare (id : string) : Body :=
  {| data := Has {| data_id := id; attributes := Missing |}; errors := None |}.

(** A backend that answers every request with the expected status and a
    body whose [data] has no [attributes]. *)
Definition without_attributes : Backend :=
  {| reply := λ _ req,
       match req with
       | GetJson _ => Resolves {| statusCode := Some 200%Z;
                                  result := Some (bare "ws-abc123") |}
       | PostJson _ _ => Resolves {| statusCode := Some 201%Z;
                                     result := Some (bare "ws-abc123") |}
       | Del _ => Resolves {| statusCode := Some 204%Z; result := None |}
       end;
     latency := λ _ _, 10%N;
     timer_lag := λ _, 0%N |}.

(** A backend that finds every workspace and answers the creation of a run
    with 201 and a body without [data]. *)
Definition run_without_data : Backend :=
  {| reply := λ _ req,
       match req with
       | GetJson _ => responds 200 "ws-2" pending
       | PostJson _ _ =>
           Resolves {| statusCode := Some 201%Z;
                       result := Some {| data := Missing; errors := None |} |}
       | Del _ => Resolves {| statusCode := Some 204%Z; result := None |}
       end;
     latency := λ _ _, 10%N;
     timer_lag := λ _, 0%N |}.


(** A workspace with a variable set and two variables. *)
Definition with_variables : WorkspaceConfig :=
  {| vcs := None;
     variables := Some [("region", VString "eu"); ("replicas", VNumber 2)];
     auto_apply := None; terraform_version := None; execution_mode := None;
     variable_set_id := Some "varset-1"; dependsOn := None |}.

(** The computation [m] only adds to the warnings logged. *)
Definition logs_on {A : Type} (m : M A) : Prop :=
  ∀ w, warnings w `prefix_of` warnings (m w).2.

(** The warnings logged between the worlds [w] and [w']. *)
Definition warnings_since (w w' : World) : list string :=
  drop (length (warnings w)) (warnings w').

(** * Properties *)

(** ** Property access *)

Lemma own_property_elem_of ws name w :
  own_property ws name = Some w → (name, w) ∈ ws.
Proof.
  induction ws as [|[k v] ws IH]; simpl; [done|].
  case_decide; intros; simplify_eq; [left | right; auto].
Qed.

Lemma own_property_None ws name :
  own_property ws name = None ↔ name ∉ Object_keys ws.
Proof.
  unfold Object_keys. induction ws as [|[k v] ws IH]; simpl.
  - split; [intros _; apply not_elem_of_nil | done].
  - rewrite not_elem_of_cons. case_decide; naive_solver.
Qed.

Lemma own_property_is_Some ws name :
  is_Some (own_property ws name) ↔ name ∈ Object_keys ws.
Proof.
  rewrite <- not_eq_None_Some, own_property_None.
  split; [apply dec_stable | auto].
Qed.

Lemma own_property_NoDup ws name w :
  NoDup (Object_keys ws) → (name, w) ∈ ws → own_property ws name = Some w.
Proof.
  unfold Object_keys. induction ws as [|[k v] ws IH]; simpl.
  - intros _ H. by apply elem_of_nil in H.
  - rewrite NoDup_cons. intros [Hk Hnd] Hin.
    apply elem_of_cons in Hin as [Heq | Hin].
    + simplify_eq. by rewrite decide_True.
    + case_decide as Hkn; [|auto].
      subst k. exfalso. apply Hk.
      apply (list_elem_of_fmap_2 fst) in Hin. done.
  Qed.

Lemma elem_of_optional_dependsOn ws x y :
  y ∈ optional_dependsOn (get ws x) ↔ declares ws x y.
Proof.
  unfold get, declares. destruct (own_property ws x) as [w|] eqn:Hx; simpl.
  - naive_solver.
  - split; [|naive_solver]. case_bool_decide; simpl; by intros ?%elem_of_nil.
Qed.

Lemma declares_own ws x y : declares ws x y → x ∈ Object_keys ws.
Proof. intros (w & Hw & _). apply own_property_is_Some. eauto. Qed.

(** ** The traversal *)

(** One unfolding of [visit]. *)
Lemma visit_unfold fuel ws name path st :
  visit (S fuel) ws name path st =
    if bool_decide (name ∈ visiting st)
    then Some (Throw (JsError (circular_message (path ++ [name]))))
    else if bool_decide (name ∈ visited st)
    then Some (Ok st)
    else
      match visit_dependencies ws (λ dep, visit fuel ws dep (path ++ [name]))
              name (optional_dependsOn (get ws name))
              {| sorted := sorted st; visited := visited st;
                 visiting := {[name]} ∪ visiting st |} with
      | Some (Ok st2) =>
          Some (Ok {| sorted := sorted st2 ++ [name];
                      visited := {[name]} ∪ visited st2;
                      visiting := visiting st2 ∖ {[name]} |})
      | other => other
      end.
Proof. reflexivity. Qed.

Lemma frame_refl st : frame st st.
Proof. repeat split; [by exists []; rewrite app_nil_r | done]. Qed.

Lemma frame_trans st1 st2 st3 : frame st1 st2 → frame st2 st3 → frame st1 st3.
Proof.
  intros (Hv1 & [a1 Hs1] & Hd1) (Hv2 & [a2 Hs2] & Hd2). repeat split.
  - congruence.
  - exists (a1 ++ a2). by rewrite Hs2, Hs1, app_assoc.
  - set_solver.
Qed.

Lemma visit_dependencies_frame ws visit_dep name deps st st' :
  (∀ dep s s', visit_dep dep s = Some (Ok s') → frame s s' ∧ dep ∈ visited s') →
  visit_dependencies ws visit_dep name deps st = Some (Ok st') →
  frame st st' ∧ ∀ dep, dep ∈ deps → dep ∈ visited st'.
Proof.
  intros Hdep. revert st. induction deps as [|dep deps IH]; simpl; intros st H.
  - simplify_eq. split; [apply frame_refl | by intros ? ?%elem_of_nil].
  - destruct (truthy (get ws dep)); simpl in H; [|done].
    destruct (visit_dep dep st) as [[s|]|] eqn:Hv; try done.
    apply Hdep in Hv as [Hf Hin]. apply IH in H as [Hf' Hall].
    split; [by eapply frame_trans|].
    intros d [->|Hd]%elem_of_cons; [|auto].
    destruct Hf' as (_ & _ & Hsub). set_solver.
Qed.

Lemma visit_frame fuel ws name path st st' :
  visit fuel ws name path st = Some (Ok st') →
  frame st st' ∧ name ∈ visited st'.
Proof.
  revert name path st st'. induction fuel as [|fuel IH]; intros name path st st'; [done|].
  rewrite visit_unfold.
  case_bool_decide as Hving; [done|].
  case_bool_decide as Hved.
  - intros ?; simplify_eq. split; [apply frame_refl | done].
  - destruct (visit_dependencies _ _ _ _ _) as [[st2|]|] eqn:Hdeps; try done.
    intros ?; simplify_eq.
    apply visit_dependencies_frame in Hdeps as [(Hv & [added Hs] & Hd) _];
      [|intros; by eapply IH].
    simpl in *. repeat split; simpl.
    + rewrite Hv. set_solver.
    + exists (added ++ [name]). by rewrite Hs, app_assoc.
    + set_solver.
    + set_solver.
Qed.

Lemma visit_all_frame fuel ws names st st' :
  visit_all fuel ws names st = Some (Ok st') →
  frame st st' ∧ ∀ name, name ∈ names → name ∈ visited st'.
Proof.
  revert st. induction names as [|name names IH]; simpl; intros st H.
  - simplify_eq. split; [apply frame_refl | by intros ? ?%elem_of_nil].
  - destruct (visit fuel ws name [] st) as [[s|]|] eqn:Hv; try done.
    apply visit_frame in Hv as [Hf Hin]. apply IH in H as [Hf' Hall].
    split; [by eapply frame_trans|].
    intros d [->|Hd]%elem_of_cons; [|auto].
    destruct Hf' as (_ & _ & Hsub). set_solver.
Qed.

(** *** The recursion bound is never reached *)

Lemma size_list_to_set_le (l : list string) :
  size (list_to_set l : gset string) ≤ length l.
Proof.
  induction l as [|x l IH].
  - rewrite list_to_set_nil, size_empty. simpl. lia.
  - rewrite list_to_set_cons, size_union_alt, size_singleton. simpl.
    assert (size (list_to_set l ∖ {[x]} : gset string) ≤ size (list_to_set l : gset string))
      by (apply subseteq_size; set_solver).
    lia.
Qed.

Lemma visit_dependencies_fuel ws visit_dep name deps st :
  (∀ dep s, visiting s = visiting st → is_Some (visit_dep dep s)) →
  (∀ dep s s', visit_dep dep s = Some (Ok s') → visiting s' = visiting s) →
  is_Some (visit_dependencies ws visit_dep name deps st).
Proof.
  intros Hsome Hkeep. revert st Hsome.
  induction deps as [|dep deps IH]; simpl; intros st Hsome; [by eexists|].
  destruct (negb _); [by eexists|].
  destruct (Hsome dep st eq_refl) as [[s|e] Hv]; rewrite Hv; [|by eexists].
  apply IH. intros d s' Hs'. apply Hsome. rewrite Hs'. by eapply Hkeep.
Qed.

Lemma visit_fuel fuel ws name path st :
  size (list_to_set (Object_keys ws) ∖ visiting st : gset string) < fuel →
  is_Some (visit fuel ws name path st).
Proof.
  revert name path st.
  induction fuel as [|fuel IH]; intros name path st Hsize; [lia|].
  rewrite visit_unfold.
  case_bool_decide as Hving; [by eexists|].
  case_bool_decide as Hved; [by eexists|].
  match goal with
  | |- is_Some (match ?d with _ => _ end) => assert (is_Some d) as [[s|e] ->]
  end; [|by eexists..].
  destruct (own_property ws name) as [w|] eqn:Hown.
  - apply visit_dependencies_fuel; simpl.
    + intros dep s Hs. apply IH. rewrite Hs.
      assert (name ∈ Object_keys ws) by (apply own_property_is_Some; eauto).
      assert (list_to_set (Object_keys ws) ∖ ({[name]} ∪ visiting st)
              ⊂ (list_to_set (Object_keys ws) ∖ visiting st : gset string)) as Hlt.
      { split; [set_solver|]. intros Hsub. specialize (Hsub name). set_solver. }
      apply subset_size in Hlt. lia.
    + intros dep s s' Hv. by apply visit_frame in Hv as [(? & _) _].
  - unfold get. rewrite Hown. case_bool_decide; simpl; by eexists.
Qed.

Lemma visit_all_fuel ws names :
  is_Some (visit_all (recursion_bound ws) ws names initial_state).
Proof.
  assert (∀ st, visiting st = ∅ →
            is_Some (visit_all (recursion_bound ws) ws names st)) as H;
    [|by apply H].
  induction names as [|name names IH]; cbn [visit_all]; intros st Hst; [by eexists|].
  destruct (visit_fuel (recursion_bound ws) ws name [] st) as [[s|e] Hv].
  - rewrite Hst, difference_empty_L. unfold recursion_bound.
    pose proof (size_list_to_set_le (Object_keys ws)). lia.
  - rewrite Hv. apply IH. apply visit_frame in Hv as [(-> & _) _]. done.
  - rewrite Hv. by eexists.
Qed.

(** *** What a returning traversal has built *)

Lemma sort_invariant_initial ws : sort_invariant ws initial_state.
Proof.
  repeat split; simpl; try set_solver.
  - apply NoDup_nil_2.
  - intros i x y Hi. by rewrite lookup_nil in Hi.
Qed.

Lemma visit_dependencies_invariant ws visit_dep name deps st st' :
  (∀ dep s s', declares ws name dep → visit_dep dep s = Some (Ok s') →
               sort_invariant ws s → sort_invariant ws s') →
  (∀ dep, dep ∈ deps → declares ws name dep) →
  visit_dependencies ws visit_dep name deps st = Some (Ok st') →
  sort_invariant ws st → sort_invariant ws st'.
Proof.
  intros Hdep. revert st. induction deps as [|dep deps IH]; simpl; intros st Hdecl H Hinv.
  - by simplify_eq.
  - destruct (truthy (get ws dep)); simpl in H; [|done].
    destruct (visit_dep dep st) as [[s|]|] eqn:Hv; try done.
    apply (IH s); [set_solver | done |].
    eapply Hdep; [|done..]. apply Hdecl. left.
Qed.

Lemma dependencies_first_snoc ws l name :
  dependencies_first ws l →
  (∀ y, declares ws name y → y ∈ l) →
  dependencies_first ws (l ++ [name]).
Proof.
  intros Hl Hname i x y Hi Hxy.
  destruct (decide (i < length l)) as [Hlt|Hge].
  - rewrite lookup_app_l in Hi by done.
    destruct (Hl i x y Hi Hxy) as (j & Hj & Hji).
    exists j. split; [|done]. rewrite lookup_app_l by lia. done.
  - rewrite lookup_app_r in Hi by lia.
    apply list_lookup_singleton_Some in Hi as [Hi ->].
    apply Hname, list_elem_of_lookup in Hxy as [j Hj].
    exists j. pose proof (lookup_lt_Some _ _ _ Hj).
    split; [|lia]. rewrite lookup_app_l by lia. done.
Qed.

Lemma visit_invariant fuel ws name path st st' :
  visit fuel ws name path st = Some (Ok st') →
  mentioned ws name →
  sort_invariant ws st → sort_invariant ws st'.
Proof.
  revert name path st st'. induction fuel as [|fuel IH]; intros name path st st'; [done|].
  rewrite visit_unfold.
  case_bool_decide as Hving; [done|].
  case_bool_decide as Hved; [by intros; simplify_eq|].
  destruct (visit_dependencies _ _ _ _ _) as [[st2|]|] eqn:Hdeps; try done.
  intros ? Hname (Hvs & Hnd & Hdisj & Hord & Hmen); simplify_eq.
  pose proof Hdeps as Hframe.
  apply visit_dependencies_frame in Hframe as [(Hv & _ & _) Hall];
    [|intros; by eapply visit_frame].
  apply visit_dependencies_invariant in Hdeps.
  - destruct Hdeps as (Hvs2 & Hnd2 & Hdisj2 & Hord2 & Hmen2). simpl in *.
    assert (name ∉ sorted st2) by (rewrite <- Hvs2; set_solver).
    repeat split; simpl.
    + rewrite elem_of_app, list_elem_of_singleton, <- Hvs2. set_solver.
    + rewrite elem_of_app, list_elem_of_singleton, <- Hvs2. set_solver.
    + apply NoDup_app. repeat split; [done | | apply NoDup_singleton].
      intros x Hx ->%list_elem_of_singleton. done.
    + set_solver.
    + apply dependencies_first_snoc; [done|].
      intros y Hy. apply Hvs2, Hall, elem_of_optional_dependsOn, Hy.
    + intros x [Hx| ->%list_elem_of_singleton]%elem_of_app; auto.
  - intros dep s s' Hd Hvisit. eapply IH; [done|]. right. eauto.
  - intros dep. apply elem_of_optional_dependsOn.
  - repeat split; simpl; try done; [apply Hvs | apply Hvs | set_solver].
Qed.

Lemma visit_all_invariant fuel ws names st st' :
  visit_all fuel ws names st = Some (Ok st') →
  names ⊆ Object_keys ws →
  sort_invariant ws st → sort_invariant ws st'.
Proof.
  revert st. induction names as [|name names IH]; cbn [visit_all]; intros st H Hsub Hinv.
  - by simplify_eq.
  - destruct (visit fuel ws name [] st) as [[s|]|] eqn:Hv; try done.
    apply (IH s); [done | set_solver |].
    eapply visit_invariant; [done | | done]. left. set_solver.
Qed.

(** *** What a throwing traversal reports *)

Lemma chain_snoc ws l x y :
  chain ws (l ++ [x]) → declares ws x y → chain ws ((l ++ [x]) ++ [y]).
Proof.
  intros Hl Hxy i a b Ha Hb.
  pose proof (lookup_lt_Some _ _ _ Hb) as Hlen.
  rewrite !length_app in Hlen. simpl in Hlen.
  destruct (decide (S i < length (l ++ [x]))) as [Hlt|Hge].
  - rewrite lookup_app_l in Ha by lia. rewrite lookup_app_l in Hb by done.
    by eapply Hl.
  - rewrite length_app in Hge. simpl in Hge.
    assert (i = length l) as -> by lia.
    rewrite lookup_app_l in Ha by (rewrite length_app; simpl; lia).
    rewrite lookup_app_r in Ha by lia.
    rewrite lookup_app_r in Hb by (rewrite length_app; simpl; lia).
    rewrite Nat.sub_diag in Ha. rewrite length_app in Hb. simpl in Hb.
    replace (S (length l) - (length l + 1)) with 0 in Hb by lia.
    simpl in *. by simplify_eq.
Qed.

Lemma chain_singleton ws x : chain ws [x].
Proof. intros i a b _ Hb. by destruct i. Qed.

Lemma visit_dependencies_throw ws visit_dep name deps st e (P : Thrown → Prop) :
  (∀ dep s, declares ws name dep → visiting s = visiting st →
            visit_dep dep s = Some (Throw e) → P e) →
  (∀ dep s s', visit_dep dep s = Some (Ok s') → visiting s' = visiting s) →
  (∀ dep, dep ∈ deps → declares ws name dep) →
  visit_dependencies ws visit_dep name deps st = Some (Throw e) →
  P e ∨ undefined_report ws e.
Proof.
  intros Hthrow Hkeep. revert st Hthrow.
  induction deps as [|dep deps IH]; simpl; intros st Hthrow Hdecl H; [done|].
  assert (declares ws name dep) as Hd by (apply Hdecl; left).
  destruct (truthy (get ws dep)) eqn:Htruthy; simpl in H.
  - destruct (visit_dep dep st) as [[s|e']|] eqn:Hv; try done.
    + apply (IH s); [|set_solver|done].
      intros d s' Hdd Hs'. apply Hthrow; [done|].
      rewrite Hs'. by eapply Hkeep.
    + simplify_eq. left. by eapply Hthrow.
  - simplify_eq. right. by exists name, dep.
Qed.

Lemma visit_throw fuel ws name path st e :
  visit fuel ws name path st = Some (Throw e) →
  (∀ x, x ∈ visiting st ↔ x ∈ path) → NoDup path → chain ws (path ++ [name]) →
  circular_report ws path name e ∨ undefined_report ws e.
Proof.
  revert name path st. induction fuel as [|fuel IH]; intros name path st; [done|].
  rewrite visit_unfold.
  case_bool_decide as Hving.
  - intros ? Hpath Hnd Hchain; simplify_eq. left.
    apply Hpath, list_elem_of_split in Hving as (lead & cyc & ->).
    exists lead, name, cyc, [].
    by rewrite <- !app_assoc, <- !app_comm_cons in *.
  - case_bool_decide as Hved; [done|].
    destruct (visit_dependencies _ _ _ _ _) as [[st2|e']|] eqn:Hdeps; try done.
    intros ? Hpath Hnd Hchain; simplify_eq.
    eapply (visit_dependencies_throw _ _ _ _ _ _
              (λ e, circular_report ws path name e ∨ undefined_report ws e))
      in Hdeps.
    + tauto.
    + simpl. intros dep s Hd Hs Hv. apply IH in Hv as [Hc|Hu]; [| by right | | |].
      * left. destruct Hc as (lead & x & cyc & rest & He & Heq & Hch & Hnd').
        exists lead, x, cyc, (dep :: rest).
        split; [done|]. split; [|done]. by rewrite Heq, <- app_assoc.
      * intros x. rewrite Hs, elem_of_app, list_elem_of_singleton, <- Hpath. set_solver.
      * apply NoDup_app. repeat split; [done | | apply NoDup_singleton].
        intros x Hx ->%list_elem_of_singleton. by apply Hving, Hpath.
      * by apply chain_snoc.
    + intros dep s s' Hv. by apply visit_frame in Hv as [(? & _) _].
    + intros dep. apply elem_of_optional_dependsOn.
Qed.

Lemma visit_all_throw fuel ws names st e :
  visit_all fuel ws names st = Some (Throw e) →
  visiting st = ∅ →
  (∃ name, name ∈ names ∧ circular_report ws [] name e) ∨ undefined_report ws e.
Proof.
  revert st. induction names as [|name names IH]; cbn [visit_all]; intros st H Hst; [done|].
  destruct (visit fuel ws name [] st) as [[s|e']|] eqn:Hv; try done.
  - apply visit_frame in Hv as [(Hs & _) _].
    apply IH in H as [(n & Hn & Hc)|Hu]; [left | by right | congruence].
    exists n. split; [by right | done].
  - simplify_eq. apply visit_throw in Hv as [Hc|Hu]; [left | by right | | |].
    + exists name. split; [by left | done].
    + intros x. rewrite Hst. set_solver.
    + apply NoDup_nil_2.
    + apply chain_singleton.
Qed.

(** ** [topologicalSort] *)

Lemma topologicalSort_Ok ws names l :
  topologicalSort ws names = Ok l →
  names ⊆ Object_keys ws →
  NoDup l
  ∧ (∀ x, x ∈ names → x ∈ l)
  ∧ dependencies_first ws l
  ∧ (∀ x, x ∈ l → mentioned ws x).
Proof.
  unfold topologicalSort.
  destruct (visit_all _ _ _ _) as [[st|e]|] eqn:Hv; try done.
  intros ? Hsub; simplify_eq.
  pose proof Hv as Hf. apply visit_all_frame in Hf as [_ Hall].
  apply visit_all_invariant in Hv as (Hvs & Hnd & _ & Hord & Hmen);
    [|done|apply sort_invariant_initial].
  repeat split; try done. intros x Hx. by apply Hvs, Hall.
Qed.

Lemma topologicalSort_Throw ws names e :
  topologicalSort ws names = Throw e →
  (∃ name, name ∈ names ∧ circular_report ws [] name e) ∨ undefined_report ws e.
Proof.
  unfold topologicalSort.
  destruct (visit_all_fuel ws names) as [[st|e'] Hv]; rewrite Hv; [done|].
  intros ?; simplify_eq. by apply visit_all_throw in Hv.
Qed.

(** ** Cycles *)

Lemma chain_tail ws x l : chain ws (x :: l) → chain ws l.
Proof. intros H i a b Ha Hb. by apply (H (S i)). Qed.

Lemma chain_drop ws l1 l2 : chain ws (l1 ++ l2) → chain ws l2.
Proof.
  induction l1 as [|x l1 IH]; simpl; [done|].
  intros H. by apply chain_tail, IH in H.
Qed.

Lemma chain_tc ws x l y : chain ws (x :: l ++ [y]) → tc (declares ws) x y.
Proof.
  revert x. induction l as [|a l IH]; simpl; intros x H.
  - apply tc_once. by apply (H 0).
  - eapply tc_l; [by apply (H 0)|]. by apply chain_tail, IH in H.
Qed.

Lemma circular_report_cycle ws path name e :
  circular_report ws path name e → has_cycle ws.
Proof.
  intros (lead & x & cyc & rest & _ & _ & Hch & _).
  exists x. by apply chain_drop, chain_tc in Hch.
Qed.

Lemma dependencies_first_tc ws l x y i :
  dependencies_first ws l → tc (declares ws) x y →
  l !! i = Some x → ∃ j, l !! j = Some y ∧ j < i.
Proof.
  intros Hl Hxy. revert i. induction Hxy as [x y Hxy | x y z Hxy _ IH]; intros i Hi.
  - by eapply Hl.
  - destruct (Hl i x y Hi Hxy) as (j & Hj & Hji).
    destruct (IH j Hj) as (k & Hk & Hkj). exists k. split; [done | lia].
Qed.

Lemma tc_declares_own ws x y : tc (declares ws) x y → x ∈ Object_keys ws.
Proof. intros [???%declares_own|????%declares_own]; done. Qed.

(** A list that holds every workspace after its dependencies shows that
    there is no cycle. *)
Lemma dependencies_first_acyclic ws l :
  NoDup l → (∀ x, x ∈ Object_keys ws → x ∈ l) → dependencies_first ws l →
  ¬ has_cycle ws.
Proof.
  intros Hnd Hall Hl [x Hx].
  pose proof (tc_declares_own _ _ _ Hx) as Hown.
  apply Hall, list_elem_of_lookup in Hown as [i Hi].
  destruct (dependencies_first_tc _ _ _ _ _ Hl Hx Hi) as (j & Hj & Hji).
  pose proof (NoDup_lookup _ _ _ _ Hnd Hi Hj). lia.
Qed.

Lemma undefined_report_defined ws e :
  dependencies_defined ws → ¬ undefined_report ws e.
Proof.
  intros Hdef (x & dep & _ & Hd & Hfalsy).
  apply Hdef, own_property_is_Some in Hd as [w Hw].
  unfold get in Hfalsy. by rewrite Hw in Hfalsy.
Qed.

(** Without a cycle and with every dependency defined, the sort returns. *)
Lemma topologicalSort_returns ws :
  dependencies_defined ws → ¬ has_cycle ws →
  ∃ l, topologicalSort ws (Object_keys ws) = Ok l.
Proof.
  intros Hdef Hacyc.
  destruct (topologicalSort ws (Object_keys ws)) as [l|e] eqn:H; [by eexists|].
  apply topologicalSort_Throw in H as [(name & _ & Hc)|Hu].
  - by apply circular_report_cycle in Hc.
  - by apply undefined_report_defined in Hu.
Qed.

(** With a cycle and every dependency defined, the sort throws the cycle
    error. *)
Lemma topologicalSort_cycle ws :
  dependencies_defined ws → has_cycle ws →
  ∃ e name, topologicalSort ws (Object_keys ws) = Throw e
            ∧ name ∈ Object_keys ws ∧ circular_report ws [] name e.
Proof.
  intros Hdef Hcyc.
  destruct (topologicalSort ws (Object_keys ws)) as [l|e] eqn:H.
  - apply topologicalSort_Ok in H as (Hnd & Hall & Hl & _); [|done].
    by destruct (dependencies_first_acyclic ws l).
  - pose proof H as H'. apply topologicalSort_Throw in H' as [(name & Hn & Hc)|Hu].
    + by exists e, name.
    + by apply undefined_report_defined in Hu.
Qed.

(** ** [validateDependencies] *)

Lemma check_dependencies_Ok names name deps :
  check_dependencies names name deps = Ok () ↔
  ∀ dep, dep ∈ deps → dep ∈ names ∧ dep ≠ name.
Proof.
  induction deps as [|dep deps IH]; simpl.
  - split; [by intros _ ? ?%elem_of_nil | done].
  - repeat case_bool_decide; simpl; rewrite ?IH; set_solver.
Qed.

Lemma check_dependencies_Throw names name deps e :
  check_dependencies names name deps = Throw e →
  ∃ dep, dep ∈ deps
    ∧ (((dep ∉ names) ∧ e = JsError (not_in_configuration_message name dep))
       ∨ (dep = name ∧ e = JsError (self_dependency_message name))).
Proof.
  induction deps as [|dep deps IH]; simpl; [done|].
  case_bool_decide as Hin; simpl.
  - case_bool_decide as Heq.
    + intros [= <-]. exists dep. split; [left | by right].
    + intros Hthrow. destruct (IH Hthrow) as (d & Hd & Hcase).
      exists d. split; [by right | done].
  - intros [= <-]. exists dep. split; [left | by left].
Qed.

Lemma check_entries_Ok names entries :
  check_entries names entries = Ok () ↔
  ∀ name w dep, (name, w) ∈ entries → dep ∈ dependsOn_or_empty w →
                dep ∈ names ∧ dep ≠ name.
Proof.
  induction entries as [|[name w] entries IH]; simpl.
  - split; [by intros _ ? ? ? ?%elem_of_nil | done].
  - destruct (check_dependencies names name (dependsOn_or_empty w)) as [[]|e] eqn:Hc.
    + rewrite check_dependencies_Ok in Hc. rewrite IH. split.
      * intros H n w' d [?|?]%elem_of_cons; simplify_eq; eauto.
      * intros H n w' d ?. apply H. by right.
    + split; [done|]. intros H. exfalso.
      apply check_dependencies_Throw in Hc as (d & Hd & Hcase).
      destruct (H name w d); [left | done | naive_solver].
Qed.

Lemma check_entries_Throw names entries e :
  check_entries names entries = Throw e →
  ∃ name w dep, (name, w) ∈ entries ∧ dep ∈ dependsOn_or_empty w
    ∧ (((dep ∉ names) ∧ e = JsError (not_in_configuration_message name dep))
       ∨ (dep = name ∧ e = JsError (self_dependency_message name))).
Proof.
  induction entries as [|[name w] entries IH]; simpl; [done|].
  destruct (check_dependencies names name (dependsOn_or_empty w)) as [[]|e'] eqn:Hc.
  - intros H. destruct (IH H) as (n & w' & d & Hin & Hd & Hcase).
    exists n, w', d. split; [by right | done].
  - intros ?; simplify_eq.
    apply check_dependencies_Throw in Hc as (d & Hd & Hcase).
    exists name, w, d. split; [left | done].
Qed.

(** The first pass of the validation implies that every dependency is
    defined. *)
Lemma check_entries_defined ws :
  check_entries (list_to_set (Object_keys ws)) ws = Ok () →
  dependencies_defined ws.
Proof.
  rewrite check_entries_Ok. intros H x y (w & Hw & Hy).
  apply own_property_elem_of in Hw.
  destruct (H x w y Hw Hy) as [Hin _]. set_solver.
Qed.

Lemma validateDependencies_Ok config :
  validateDependencies config = Ok () →
  check_entries (list_to_set (Object_keys (workspaces config))) (workspaces config)
    = Ok ()
  ∧ (action config = Apply ∨ action config = Destroy →
     ∃ l, topologicalSort (workspaces config) (Object_keys (workspaces config)) = Ok l).
Proof.
  unfold validateDependencies, resolveExecutionOrder.
  destruct (check_entries _ _) as [[]|e]; [|done].
  intros H. split; [done|].
  destruct (topologicalSort _ _) as [l|[m|t]]; [by eexists|..];
    intros [Ha|Ha]; rewrite Ha in H; done.
Qed.

(** A configuration without a cycle whose dependencies are all other
    workspaces of it passes the validation, whatever its action. *)
Lemma validateDependencies_passes config :
  (∀ name w dep, (name, w) ∈ workspaces config → dep ∈ dependsOn_or_empty w →
                 dep ∈ Object_keys (workspaces config) ∧ dep ≠ name) →
  ¬ has_cycle (workspaces config) →
  validateDependencies config = Ok ().
Proof.
  intros Hdeps Hacyc. unfold validateDependencies, resolveExecutionOrder.
  assert (check_entries (list_to_set (Object_keys (workspaces config)))
            (workspaces config) = Ok ()) as Hcheck.
  { apply check_entries_Ok. intros name w dep Hin Hd.
    destruct (Hdeps name w dep Hin Hd). set_solver. }
  rewrite Hcheck.
  destruct (topologicalSort_returns (workspaces config)) as [l ->];
    [by apply check_entries_defined | done |].
  by destruct (action config).
Qed.

(** ** The claims about the resolver *)

(** C1. For a configuration with action apply that passes the validation
    (which, for this action, includes that the trial resolution found no
    cycle), [resolveExecutionOrder] returns a permutation of the
    configuration's workspace names, each name once, in which every
    workspace stands at a greater index than each of its declared
    dependencies. *)
Theorem resolveExecutionOrder_apply_topological (config : TFEConfig) :
  action config = Apply →
  NoDup (Object_keys (workspaces config)) →
  validateDependencies config = Ok () →
  ∃ order,
    resolveExecutionOrder config = Ok order
    ∧ order ≡ₚ Object_keys (workspaces config)
    ∧ NoDup order
    ∧ ∀ name w dep i,
        (name, w) ∈ workspaces config → dep ∈ dependsOn_or_empty w →
        order !! i = Some name →
        ∃ j, order !! j = Some dep ∧ j < i.
Proof.
  intros Haction Hkeys Hvalid.
  apply validateDependencies_Ok in Hvalid as [Hcheck Hsort].
  destruct Hsort as [order Horder]; [by left|].
  exists order. unfold resolveExecutionOrder. rewrite Haction, Horder.
  pose proof (check_entries_defined _ Hcheck) as Hdef.
  apply topologicalSort_Ok in Horder as (Hnd & Hall & Hfirst & Hmen); [|done].
  repeat split; try done.
  - apply NoDup_Permutation; [done..|].
    intros x. split; [|apply Hall].
    intros [Hx|[k Hk]]%Hmen; [done | by eapply Hdef].
  - intros name w dep i Hin Hdep Hi.
    apply (Hfirst i name dep Hi). exists w. split; [|done].
    by apply own_property_NoDup.
Qed.

Lemma resolveExecutionOrder_apply_topological_witness :
  ∃ order,
    resolveExecutionOrder (layered Apply) = Ok order
    ∧ order ≡ₚ ["app"; "db"; "net"]
    ∧ NoDup order
    ∧ ∀ name w dep i,
        (name, w) ∈ workspaces (layered Apply) → dep ∈ dependsOn_or_empty w →
        order !! i = Some name →
        ∃ j, order !! j = Some dep ∧ j < i.
Proof.
  apply (resolveExecutionOrder_apply_topological (layered Apply));
    [reflexivity | compute_done | reflexivity].
Defined.

(** C2. For a configuration that passes the validation and has no cycle,
    [resolveExecutionOrder] with action destroy returns the reverse of what
    it returns for the same workspaces with action apply. *)
Theorem resolveExecutionOrder_destroy_reverse (config : TFEConfig) :
  validateDependencies config = Ok () →
  ¬ has_cycle (workspaces config) →
  ∃ order,
    resolveExecutionOrder (with_action Apply config) = Ok order
    ∧ resolveExecutionOrder (with_action Destroy config) = Ok (reverse order).
Proof.
  intros Hvalid Hacyc.
  apply validateDependencies_Ok in Hvalid as [Hcheck _].
  destruct (topologicalSort_returns (workspaces config)) as [order Horder];
    [by apply check_entries_defined | done |].
  exists order. unfold resolveExecutionOrder. simpl. by rewrite Horder.
Qed.

(** A returning sort shows that there is no cycle. *)
Lemma topologicalSort_acyclic ws l :
  topologicalSort ws (Object_keys ws) = Ok l → ¬ has_cycle ws.
Proof.
  intros (Hnd & Hall & Hfirst & _)%topologicalSort_Ok; [|done].
  by apply (dependencies_first_acyclic ws l).
Qed.

Lemma resolveExecutionOrder_destroy_reverse_witness :
  ∃ order,
    resolveExecutionOrder (with_action Apply (layered Destroy)) = Ok order
    ∧ resolveExecutionOrder (with_action Destroy (layered Destroy))
      = Ok (reverse order).
Proof.
  apply (resolveExecutionOrder_destroy_reverse (layered Destroy));
    [reflexivity|].
  apply (topologicalSort_acyclic _ ["net"; "db"; "app"]). reflexivity.
Defined.

(** With a cycle the sort never returns an order. *)
Lemma topologicalSort_cycle_throws ws :
  has_cycle ws →
  ∃ e, topologicalSort ws (Object_keys ws) = Throw e
       ∧ ((∃ name, name ∈ Object_keys ws ∧ circular_report ws [] name e)
          ∨ undefined_report ws e).
Proof.
  intros Hcyc.
  destruct (topologicalSort ws (Object_keys ws)) as [l|e] eqn:H.
  - by apply topologicalSort_acyclic in H.
  - exists e. split; [done|]. by apply topologicalSort_Throw.
Qed.

Lemma resolveExecutionOrder_ordered config :
  action config = Apply ∨ action config = Destroy →
  ∀ e, topologicalSort (workspaces config) (Object_keys (workspaces config)) = Throw e →
       resolveExecutionOrder config = Throw e.
Proof.
  intros Ha e He. unfold resolveExecutionOrder. rewrite He.
  by destruct Ha as [-> | ->].
Qed.

(** C6, as the code has it. For a configuration whose dependency relation
    has a cycle, resolution for an ordered action (apply or destroy) throws.
    The error is the one for an undefined dependency if the traversal meets
    such a dependency first; otherwise, and always when every dependency is
    defined, it is the cycle error. The path in its message is the whole path
    of the traversal: it starts at the workspace [name] of the configuration
    at which the outer loop entered ([lead] may be empty), leads to a
    workspace [x] and from there along declared dependencies back to [x],
    where it ends; no workspace but [x] occurs twice. *)
Theorem resolveExecutionOrder_cycle (config : TFEConfig) :
  action config = Apply ∨ action config = Destroy →
  has_cycle (workspaces config) →
  ∃ e,
    resolveExecutionOrder config = Throw e
    ∧ ((∃ name lead x cyc rest,
          e = JsError (circular_message (lead ++ x :: cyc ++ [x]))
          ∧ name ∈ Object_keys (workspaces config)
          ∧ lead ++ x :: cyc ++ [x] = name :: rest
          ∧ chain (workspaces config) (lead ++ x :: cyc ++ [x])
          ∧ NoDup (lead ++ x :: cyc))
       ∨ (¬ dependencies_defined (workspaces config)
          ∧ ∃ x dep,
              e = JsError (undefined_message x dep)
              ∧ declares (workspaces config) x dep
              ∧ truthy (get (workspaces config) dep) = false)).
Proof.
  intros Ha Hcyc.
  destruct (topologicalSort_cycle_throws _ Hcyc) as (e & He & Hreport).
  exists e. split; [by apply resolveExecutionOrder_ordered|].
  destruct Hreport as [(name & Hname & lead & x & cyc & rest & H)|Hu].
  - left. exists name, lead, x, cyc, rest. naive_solver.
  - right. split; [|done]. intros Hdef. by eapply undefined_report_defined.
Qed.

Lemma tailed_cycle_has_cycle : has_cycle (workspaces tailed_cycle).
Proof.
  exists "b". eapply tc_l; [|apply tc_once].
  - exists (depending_on ["c"]). split; [reflexivity | by left].
  - exists (depending_on ["b"]). split; [reflexivity | by left].
Qed.

Lemma resolveExecutionOrder_cycle_witness :
  ∃ e,
    resolveExecutionOrder tailed_cycle = Throw e
    ∧ ((∃ name lead x cyc rest,
          e = JsError (circular_message (lead ++ x :: cyc ++ [x]))
          ∧ name ∈ Object_keys (workspaces tailed_cycle)
          ∧ lead ++ x :: cyc ++ [x] = name :: rest
          ∧ chain (workspaces tailed_cycle) (lead ++ x :: cyc ++ [x])
          ∧ NoDup (lead ++ x :: cyc))
       ∨ (¬ dependencies_defined (workspaces tailed_cycle)
          ∧ ∃ x dep,
              e = JsError (undefined_message x dep)
              ∧ declares (workspaces tailed_cycle) x dep
              ∧ truthy (get (workspaces tailed_cycle) dep) = false)).
Proof.
  apply (resolveExecutionOrder_cycle tailed_cycle);
    [left; reflexivity | apply tailed_cycle_has_cycle].
Defined.

(** What the traversal of [tailed_cycle] throws. *)
Example resolveExecutionOrder_tailed_cycle :
  resolveExecutionOrder tailed_cycle
  = Throw (JsError "Circular dependency detected: a -> b -> c -> b").
Proof. reflexivity. Qed.

(** Paths of one-letter names are joined to different texts. *)
Lemma join_arrow_inj (p q : list string) :
  Forall (λ s, String.length s = 1) p → Forall (λ s, String.length s = 1) q →
  join " -> " p = join " -> " q → p = q.
Proof.
  intros Hp. revert q. induction Hp as [|x p Hx Hp IH]; intros q Hq H.
  - destruct Hq as [|y q Hy Hq]; [done|].
    destruct y as [|c [|]]; try done. by destruct q.
  - destruct Hq as [|y q Hy Hq].
    + destruct x as [|c [|]]; try done. by destruct p.
    + destruct x as [|c [|]]; try done. destruct y as [|d [|]]; try done.
      destruct p as [|x' p], q as [|y' q]; simpl in H.
      * by simplify_eq.
      * by injection H.
      * by injection H.
      * injection H as -> H. f_equal. by apply IH.
Qed.

(** C6, as the specification states it, fails on [tailed_cycle]: the
    dependency relation has a cycle, but the path the error reports,
    a -> b -> c -> b, starts at [a] and ends at [b]. *)
Lemma reports_closed_path_counterexample :
  has_cycle (workspaces tailed_cycle) ∧ ¬ reports_closed_path tailed_cycle.
Proof.
  split; [apply tailed_cycle_has_cycle|].
  intros (path & x & Hres & Hsub & Hhead & Hlast).
  rewrite resolveExecutionOrder_tailed_cycle in Hres.
  injection Hres as Hres.
  change (Object_keys (workspaces tailed_cycle)) with ["a"; "b"; "c"] in Hsub.
  assert (path = ["a"; "b"; "c"; "b"]) as ->.
  { apply join_arrow_inj; [| by repeat constructor | by symmetry].
    apply Forall_forall. intros s Hs%Hsub.
    repeat (apply elem_of_cons in Hs as [->|Hs]; [done|]).
    by apply elem_of_nil in Hs. }
  simpl in *. congruence.
Qed.

(** ** The claims about the orchestrator *)

(** C5. If a workspace lists itself in its [dependsOn], or lists a name that
    is no workspace of the configuration, then for each of the four actions
    the validation throws (the error for a self-dependency or the one for an
    undefined dependency), and [execute] throws that error and leaves the
    world as it found it: no request has been sent. *)
Theorem execute_rejects_invalid_dependency
    (backend : Backend) (hostname organization : string)
    (config : TFEConfig) (w : World) :
  invalid_dependency config →
  ∃ e,
    (∃ name dep, e = JsError (self_dependency_message name)
                 ∨ e = JsError (not_in_configuration_message name dep))
    ∧ ∀ a,
        validateDependencies (with_action a config) = Throw e
        ∧ execute backend hostname organization (with_action a config) w
          = (Throw e, w).
Proof.
  intros (name & wk & dep & Hin & Hdep & Hbad).
  destruct (check_entries (list_to_set (Object_keys (workspaces config)))
              (workspaces config)) as [[]|e] eqn:Hcheck.
  - exfalso. rewrite check_entries_Ok in Hcheck.
    destruct (Hcheck name wk dep Hin Hdep) as [Hdef Hself].
    destruct Hbad; [done | set_solver].
  - exists e. split.
    + apply check_entries_Throw in Hcheck as (n & _ & d & _ & _ & [[_ ->]|[_ ->]]);
        exists n, d; auto.
    + intros a.
      assert (validateDependencies (with_action a config) = Throw e) as Hvalid
        by (unfold validateDependencies; simpl; by rewrite Hcheck).
      split; [done|].
      unfold execute, mbind, M_bind, lift. by rewrite Hvalid.
Qed.

Lemma execute_rejects_invalid_dependency_witness :
  ∃ e,
    (∃ name dep, e = JsError (self_dependency_message name)
                 ∨ e = JsError (not_in_configuration_message name dep))
    ∧ ∀ a,
        validateDependencies (with_action a (self_dependent Create)) = Throw e
        ∧ execute silent "app.terraform.io" "acme"
            (with_action a (self_dependent Create)) epoch
          = (Throw e, epoch).
Proof.
  apply (execute_rejects_invalid_dependency silent "app.terraform.io" "acme"
           (self_dependent Create) epoch).
  exists "app", (depending_on ["app"]), "app".
  split; [by left|]. split; [by left|]. by left.
Defined.

(** ** Asynchronous computations *)

Lemma bind_Ok {A B : Type} (m : M A) (f : A → M B) w a w' :
  m w = (Ok a, w') → (m ≫= f) w = f a w'.
Proof. unfold mbind, M_bind. by intros ->. Qed.

Lemma bind_Throw {A B : Type} (m : M A) (f : A → M B) w e w' :
  m w = (Throw e, w') → (m ≫= f) w = (Throw e, w').
Proof. unfold mbind, M_bind. by intros ->. Qed.

Lemma bind_Ok_inv {A B : Type} (m : M A) (f : A → M B) w b w' :
  (m ≫= f) w = (Ok b, w') →
  ∃ a w1, m w = (Ok a, w1) ∧ f a w1 = (Ok b, w').
Proof.
  unfold mbind, M_bind. destruct (m w) as [[a|e] w1]; [eauto | done].
Qed.

(** A [catch] that returns the failure record never throws: the result is
    the one of the [try] block, or the failure record of what it threw. *)
Lemma caught {A : Type} (body : M A) (handle : Thrown → A) w :
  try_catch body (λ error, mret (handle error)) w
  = match body w with
    | (Ok a, w') => (Ok a, w')
    | (Throw e, w') => (Ok (handle e), w')
    end.
Proof. unfold try_catch. by destruct (body w) as [[a|e] w']. Qed.

(** Inverts a returning sequence of binds in hypothesis [H]. *)
Ltac invert_binds H :=
  repeat
    (let a := fresh "a" in
     let w := fresh "w" in
     let Hm := fresh "Hm" in
     apply bind_Ok_inv in H as (a & w & Hm & H)).

(** ** The attempts on one workspace *)

Section attempts.
Variable backend : Backend.
Variables hostname organization : string.

Lemma createSingleWorkspace_try_result name config w r w' :
  createSingleWorkspace_try backend hostname organization name config w = (Ok r, w') →
  workspace r = name ∧ success r = true ∧ error r = None.
Proof.
  unfold createSingleWorkspace_try. intros H. invert_binds H.
  unfold mret, M_ret in H. by simplify_eq.
Qed.

Lemma deleteSingleWorkspace_try_result name w r w' :
  deleteSingleWorkspace_try backend hostname organization name w = (Ok r, w') →
  workspace r = name ∧ success r = true ∧ error r = None.
Proof.
  unfold deleteSingleWorkspace_try. intros H. invert_binds H.
  unfold mret, M_ret in H. by simplify_eq.
Qed.

Lemma runSingleWorkspace_try_result isDestroy name w r w' :
  runSingleWorkspace_try backend hostname organization isDestroy name w = (Ok r, w') →
  workspace r = name ∧ success r = true ∧ error r = None.
Proof.
  unfold runSingleWorkspace_try. intros H. invert_binds H.
  unfold mret, M_ret in H. by simplify_eq.
Qed.

(** An attempt whose [try] block returns results of the shape above never
    throws and returns a well-formed result for its workspace. *)
Lemma attempt_returns (body : M WorkspaceOperationResult) name w :
  (∀ r w', body w = (Ok r, w') →
           workspace r = name ∧ success r = true ∧ error r = None) →
  ∃ r w', try_catch body (λ error, mret (failed name error)) w = (Ok r, w')
          ∧ workspace r = name ∧ well_formed_result r
          ∧ (success r = true ↔ ∃ r0, body w = (Ok r0, w')).
Proof.
  intros Hbody. rewrite caught. destruct (body w) as [[r|e] w'] eqn:Hb.
  - destruct (Hbody r w' eq_refl) as (Hn & Hs & He).
    exists r, w'. unfold well_formed_result. rewrite Hs. repeat split; eauto.
  - exists (failed name e), w'. unfold well_formed_result. simpl.
    repeat split; eauto; [done | by intros [? ?]].
Qed.

Lemma createSingleWorkspace_returns name config w :
  ∃ r w', createSingleWorkspace backend hostname organization name config w = (Ok r, w')
          ∧ workspace r = name ∧ well_formed_result r.
Proof.
  destruct (attempt_returns
              (createSingleWorkspace_try backend hostname organization name config)
              name w) as (r & w' & H & Hn & Hwf & _);
    [apply createSingleWorkspace_try_result | by exists r, w'].
Qed.

Lemma deleteSingleWorkspace_returns name w :
  ∃ r w', deleteSingleWorkspace backend hostname organization name w = (Ok r, w')
          ∧ workspace r = name ∧ well_formed_result r.
Proof.
  destruct (attempt_returns
              (deleteSingleWorkspace_try backend hostname organization name)
              name w) as (r & w' & H & Hn & Hwf & _);
    [apply deleteSingleWorkspace_try_result | by exists r, w'].
Qed.

Lemma applySingleWorkspace_returns name w :
  ∃ r w', applySingleWorkspace backend hostname organization name w = (Ok r, w')
          ∧ workspace r = name ∧ well_formed_result r.
Proof.
  destruct (attempt_returns
              (runSingleWorkspace_try backend hostname organization false name)
              name w) as (r & w' & H & Hn & Hwf & _);
    [apply runSingleWorkspace_try_result | by exists r, w'].
Qed.

Lemma destroySingleWorkspace_returns name w :
  ∃ r w', destroySingleWorkspace backend hostname organization name w = (Ok r, w')
          ∧ workspace r = name ∧ well_formed_result r.
Proof.
  destruct (attempt_returns
              (runSingleWorkspace_try backend hostname organization true name)
              name w) as (r & w' & H & Hn & Hwf & _);
    [apply runSingleWorkspace_try_result | by exists r, w'].
Qed.

End attempts.

(** ** The strategies *)

Section strategies.
Variable backend : Backend.
Variables hostname organization : string.

(** Tasks that never reject: [Promise.all] fulfils with their results in the
    order of the array. *)
Lemma Promise_all_map_fulfilled {A : Type} (task : string → M A) names w :
  (∀ name, ∃ a w', task name w = (Ok a, w')) →
  ∃ rs w',
    Promise_all_map task names w = (Ok rs, w')
    ∧ length rs = length names
    ∧ ∀ i name, names !! i = Some name →
        ∃ r wi, task name w = (Ok r, wi) ∧ rs !! i = Some r.
Proof.
  intros Htask. unfold Promise_all_map.
  assert (∃ rs, all_fulfilled (((λ name, task name w) <$> names).*1) = Ok rs
                ∧ length rs = length names
                ∧ ∀ i name, names !! i = Some name →
                    ∃ r wi, task name w = (Ok r, wi) ∧ rs !! i = Some r)
    as (rs & Hrs & Hlen & Hnth).
  { induction names as [|name names (rs & Hrs & Hlen & Hnth)].
    - exists []. repeat split. intros i name Hi. by rewrite lookup_nil in Hi.
    - destruct (Htask name) as (a & w' & Ha).
      rewrite !fmap_cons. cbn [all_fulfilled]. rewrite Ha. cbn [fst]. rewrite Hrs.
      exists (a :: rs). repeat split; [simpl; by f_equal|].
      intros [|i] n Hi; simpl in *; [|by apply Hnth].
      simplify_eq. by exists a, w'. }
  eexists rs, _. by rewrite Hrs.
Qed.

Lemma applyWorkspaces_loop_returns names acc w :
  ∃ rs w',
    applyWorkspaces_loop backend hostname organization names acc w = (Ok rs, w')
    ∧ ∃ new, rs = acc ++ new ∧ Forall well_formed_result new.
Proof.
  revert acc w. induction names as [|name names IH]; intros acc w; simpl.
  - exists acc, w. split; [done|]. exists []. by rewrite app_nil_r.
  - destruct (applySingleWorkspace_returns backend hostname organization name w)
      as (r & w1 & Hr & _ & Hwf).
    rewrite (bind_Ok _ _ _ _ _ Hr).
    destruct (success r); simpl.
    + destruct (IH (acc ++ [r]) w1) as (rs & w' & Hloop & new & -> & Hnew).
      exists ((acc ++ [r]) ++ new), w'. split; [done|].
      exists (r :: new). rewrite <- app_assoc. split; [done | by constructor].
    + exists (acc ++ [r]), w1. split; [done|]. exists [r]. split; [done|].
      by repeat constructor.
Qed.

Lemma destroyWorkspaces_loop_returns names acc w :
  ∃ rs w',
    destroyWorkspaces_loop backend hostname organization names acc w
      = (Ok (acc ++ rs), w')
    ∧ each_destroyed backend hostname organization names w rs w'.
Proof.
  revert acc w. induction names as [|name names IH]; intros acc w; simpl.
  - exists [], w. rewrite app_nil_r. split; [done | constructor].
  - unfold destroySingleWorkspace. unfold mbind at 1, M_bind at 1. rewrite caught.
    destruct (runSingleWorkspace_try backend hostname organization true name w)
      as [outcome w1] eqn:Htry.
    destruct (IH (acc ++ [recorded name outcome])
                (match outcome with
                 | Ok _ => w1
                 | Throw _ => warned (continuing_message name) w1
                 end)) as (rs & w' & Hloop & Heach).
    exists (recorded name outcome :: rs), w'. split; [|by econstructor].
    rewrite <- app_assoc in Hloop. simpl in Hloop. rewrite <- Hloop.
    destruct outcome as [r|e]; simpl; [|done].
    apply runSingleWorkspace_try_result in Htry as (_ & -> & _). done.
Qed.

Lemma recorded_well_formed isDestroy name w outcome w1 :
  runSingleWorkspace_try backend hostname organization isDestroy name w
    = (outcome, w1) →
  workspace (recorded name outcome) = name
  ∧ well_formed_result (recorded name outcome)
  ∧ (success (recorded name outcome) = false ↔ ∃ e, outcome = Throw e).
Proof.
  intros Htry. destruct outcome as [r|e]; simpl.
  - apply runSingleWorkspace_try_result in Htry as (Hn & Hs & He).
    unfold well_formed_result. rewrite Hs.
    repeat split; [done..| |]; [done | by intros [? ?]].
  - unfold well_formed_result. simpl. repeat split; eauto.
Qed.

Lemma each_destroyed_results names w rs w' :
  each_destroyed backend hostname organization names w rs w' →
  length rs = length names ∧ workspace <$> rs = names
  ∧ Forall well_formed_result rs.
Proof.
  induction 1 as [|name names w outcome w1 rs w2 Htry _ (IHl & IHn & IHwf)];
    [by repeat split|].
  apply recorded_well_formed in Htry as (Hname & Hwf & _).
  split; [|split].
  - cbn [length]. by f_equal.
  - rewrite fmap_cons. by f_equal.
  - by constructor.
Qed.

Lemma all_applied_results names w rs w' :
  all_applied backend hostname organization names w rs w' →
  workspace <$> rs = names
  ∧ Forall (λ r, success r = true) rs.
Proof.
  induction 1 as [|name names w r w1 rs w2 Htry _ (IHn & IHs)];
    [by repeat split|].
  apply runSingleWorkspace_try_result in Htry as (Hname & Hs & _).
  split; [rewrite fmap_cons; by f_equal | by constructor].
Qed.

Lemma applyWorkspaces_loop_stops before wk after acc w rs w1 e w2 :
  all_applied backend hostname organization before w rs w1 →
  runSingleWorkspace_try backend hostname organization false wk w1
    = (Throw e, w2) →
  applyWorkspaces_loop backend hostname organization (before ++ wk :: after) acc w
  = (Ok (acc ++ rs ++ [failed wk e]), w2).
Proof.
  intros Hbefore Hwk. revert acc.
  induction Hbefore as [|name names w r w1 rs w3 Htry _ IH]; intros acc; simpl.
  - unfold applySingleWorkspace, mbind, M_bind. rewrite caught, Hwk. done.
  - unfold applySingleWorkspace. unfold mbind at 1, M_bind at 1.
    rewrite caught, Htry.
    apply runSingleWorkspace_try_result in Htry as (_ & -> & _). simpl.
    rewrite (IH Hwk). by rewrite <- app_assoc.
Qed.

End strategies.

(** ** The requests sent *)

Lemma grows_ret {A : Type} (a : A) : grows (mret a).
Proof. by intros w. Qed.

Lemma grows_throw {A : Type} (e : Thrown) : grows (@throw A e).
Proof. by intros w. Qed.

Lemma grows_lift {A : Type} (r : Res A) : grows (lift r).
Proof. by intros w. Qed.

Lemma grows_core_warning line : grows (core_warning line).
Proof. by intros w. Qed.

Lemma grows_send backend req : grows (send backend req).
Proof.
  intros w. unfold send.
  destruct (reply _ _ _); simpl; by apply prefix_app_r.
Qed.

Lemma grows_bind {A B : Type} (m : M A) (f : A → M B) :
  grows m → (∀ a, grows (f a)) → grows (m ≫= f).
Proof.
  intros Hm Hf w. unfold mbind, M_bind.
  specialize (Hm w). destruct (m w) as [[a|e] w1]; simpl in *; [|done].
  etrans; [done | apply Hf].
Qed.

Lemma grows_try_catch {A : Type} (body : M A) (handler : Thrown → M A) :
  grows body → (∀ e, grows (handler e)) → grows (try_catch body handler).
Proof.
  intros Hb Hh w. unfold try_catch.
  specialize (Hb w). destruct (body w) as [[a|e] w1]; simpl in *; [done|].
  etrans; [done | apply Hh].
Qed.

(** Proves that a computation built from the pieces above grows. *)
Ltac solve_grows :=
  repeat first
    [ apply grows_ret | apply grows_throw | apply grows_lift
    | apply grows_core_warning | apply grows_send
    | apply grows_bind; [|intros ?] | apply grows_try_catch; [|intros ?]
    | progress case_match | progress case_bool_decide ].

Section requests.
Variable backend : Backend.
Variables hostname organization : string.

Lemma grows_poll runId : grows (poll backend hostname runId).
Proof. unfold poll, getJson. solve_grows. Qed.

(** One turn of the loop of [waitForRun]. *)
Lemma waitForRun_loop_step runId timeout startTime w :
  waitForRun_loop backend hostname runId timeout startTime w
  = if decide (timeout < clock w - startTime)%Z
    then (Throw (JsError (timed_out_message runId timeout)), w)
    else match (poll backend hostname runId w).1 with
         | Ok (Terminal run) => (Ok run, (poll backend hostname runId w).2)
         | Ok NotYet =>
             waitForRun_loop backend hostname runId timeout startTime
               (after_timer backend pollInterval (poll backend hostname runId w).2)
         | Throw e => (Throw e, (poll backend hostname runId w).2)
         end.
Proof.
  rewrite waitForRun_loop_equation_1.
  by destruct (decide (timeout < clock w - startTime)%Z).
Qed.

Lemma waitForRun_loop_grows runId timeout startTime :
  grows (waitForRun_loop backend hostname runId timeout startTime).
Proof.
  intros w. funelim (waitForRun_loop backend hostname runId timeout startTime w);
    [done|].
  pose proof (grows_poll runId w) as Hpoll.
  destruct (poll backend hostname runId w) as [[[run|]|e] w1]; simpl in *; try done.
  etrans; [exact Hpoll|]. apply H. exact NotYet.
Qed.

Lemma grows_waitForRun runId timeout :
  grows (waitForRun backend hostname runId timeout).
Proof.
  unfold waitForRun. apply grows_bind; [by intros w|].
  intros startTime. apply waitForRun_loop_grows.
Qed.

Lemma grows_getWorkspace name : grows (getWorkspace backend hostname organization name).
Proof. unfold getWorkspace, getJson. solve_grows. Qed.

Lemma grows_createRun workspaceId message isDestroy autoApply :
  grows (createRun backend hostname workspaceId message isDestroy autoApply).
Proof. unfold createRun, postJson. solve_grows. Qed.

Lemma getWorkspace_request name w :
  requests (getWorkspace backend hostname organization name w).2
  = requests w ++ [GetJson (workspace_url hostname organization name)].
Proof.
  unfold getWorkspace, try_catch, getJson, mbind, M_bind, send.
  destruct (reply _ _ _) as [response|e]; simpl; [|done].
  case_bool_decide; simpl; [|done].
  destruct (result response) as [body|]; simpl; [|done].
  unfold lift. by destruct (read_data_id body).
Qed.

(** An attempt of apply or destroy first asks for the workspace. *)
Lemma runSingleWorkspace_first_request isDestroy name w :
  requests w ++ [GetJson (workspace_url hostname organization name)]
  `prefix_of`
  requests (try_catch
              (runSingleWorkspace_try backend hostname organization isDestroy name)
              (λ error, mret (failed name error)) w).2.
Proof.
  rewrite caught.
  assert (requests w ++ [GetJson (workspace_url hostname organization name)]
          `prefix_of`
          requests (runSingleWorkspace_try backend hostname organization
                      isDestroy name w).2) as H.
  { unfold runSingleWorkspace_try, mbind at 1, M_bind at 1.
    pose proof (getWorkspace_request name w) as Hget.
    destruct (getWorkspace backend hostname organization name w) as [[ws|e] w1];
      simpl in Hget; rewrite <- Hget; [|done].
    apply grows_bind; [apply grows_lift|]. intros workspaceId.
    apply grows_bind; [apply grows_createRun|].
    intros run. apply grows_bind; [apply grows_lift|]. intros runId.
    apply grows_bind; [apply grows_waitForRun|].
    intros _. apply grows_ret. }
  by destruct (runSingleWorkspace_try _ _ _ _ _ _) as [[r|e] w'].
Qed.

Lemma grows_applySingleWorkspace name :
  grows (applySingleWorkspace backend hostname organization name).
Proof.
  intros w. etrans; [|apply (runSingleWorkspace_first_request false)].
  by apply prefix_app_r.
Qed.

Lemma grows_destroySingleWorkspace name :
  grows (destroySingleWorkspace backend hostname organization name).
Proof.
  intros w. etrans; [|apply (runSingleWorkspace_first_request true)].
  by apply prefix_app_r.
Qed.

(** Every workspace of a run of destroy attempts was asked for. *)
Lemma each_destroyed_requests names w rs w' :
  each_destroyed backend hostname organization names w rs w' →
  requests w `prefix_of` requests w'
  ∧ ∀ name, name ∈ names →
      GetJson (workspace_url hostname organization name) ∈ requests_since w w'.
Proof.
  induction 1 as [|name names w outcome w1 rs w2 Htry Hrest [IHp IHin]].
  - split; [done | by intros ? ?%elem_of_nil].
  - pose proof (runSingleWorkspace_first_request true name w) as Hfirst.
    rewrite caught, Htry in Hfirst.
    assert (requests w ++ [GetJson (workspace_url hostname organization name)]
            `prefix_of` requests w1) as [k Hk] by (by destruct outcome).
    assert (requests (match outcome with
                      | Ok _ => w1
                      | Throw _ => warned (continuing_message name) w1
                      end) = requests w1)
      as Hw by (by destruct outcome).
    unfold requests_since in *. rewrite Hw in IHp, IHin.
    assert (requests w ++ [GetJson (workspace_url hostname organization name)]
            `prefix_of` requests w2) as [more Hmore]
      by (etrans; [by exists k | done]).
    split; [exists ([GetJson (workspace_url hostname organization name)] ++ more);
            by rewrite Hmore, <- app_assoc|].
    intros n [->|Hn]%elem_of_cons.
    + rewrite Hmore, <- app_assoc, drop_app_length. set_solver.
    + specialize (IHin n Hn).
      rewrite Hk, <- app_assoc, length_app in IHin.
      rewrite <- drop_drop in IHin. by apply subseteq_drop in IHin.
Qed.

End requests.

(** ** The claims about the strategies *)

(** C3. Let the apply strategy run on the plan [before ++ wk :: after]. If
    the attempts on the workspaces of [before], made one after the other,
    all succeed, and the attempt on [wk] then fails (its [try] block throws
    [e]), the strategy returns exactly the results of [before], each with
    [success = true], followed by the failure of [wk], with
    [success = false]. The world it leaves is the one the attempt on [wk]
    left: nothing is done for a workspace of [after], and the outcome is the
    same as for the plan that ends with [wk]. *)
Theorem applyWorkspaces_stops_at_failure
    (backend : Backend) (hostname organization : string) (config : TFEConfig)
    (before : list string) (wk : string) (after : list string)
    (w : World) (rs : list WorkspaceOperationResult) (w1 : World)
    (e : Thrown) (w2 : World) :
  all_applied backend hostname organization before w rs w1 →
  runSingleWorkspace_try backend hostname organization false wk w1
    = (Throw e, w2) →
  applyWorkspaces backend hostname organization config (before ++ wk :: after) w
    = (Ok (rs ++ [failed wk e]), w2)
  ∧ workspace <$> (rs ++ [failed wk e]) = before ++ [wk]
  ∧ Forall (λ r, success r = true) rs
  ∧ success (failed wk e) = false
  ∧ applyWorkspaces backend hostname organization config (before ++ wk :: after) w
    = applyWorkspaces backend hostname organization config (before ++ [wk]) w.
Proof.
  intros Hbefore Hwk. unfold applyWorkspaces.
  rewrite !(applyWorkspaces_loop_stops backend hostname organization
              before wk _ [] w rs w1 e w2 Hbefore Hwk).
  apply all_applied_results in Hbefore as [Hnames Hsuccess].
  repeat split; [|done].
  rewrite fmap_app, Hnames. done.
Qed.

Lemma applyWorkspaces_stops_at_failure_witness :
  ∃ rs e w2,
    applyWorkspaces without_db "app.terraform.io" "acme" (layered Apply)
      (["net"] ++ "db" :: ["app"]) epoch
      = (Ok (rs ++ [failed "db" e]), w2)
    ∧ workspace <$> (rs ++ [failed "db" e]) = ["net"] ++ ["db"]
    ∧ Forall (λ r, success r = true) rs
    ∧ success (failed "db" e) = false
    ∧ applyWorkspaces without_db "app.terraform.io" "acme" (layered Apply)
        (["net"] ++ "db" :: ["app"]) epoch
      = applyWorkspaces without_db "app.terraform.io" "acme" (layered Apply)
          (["net"] ++ ["db"]) epoch.
Proof.
  eexists _, _, _.
  eapply (applyWorkspaces_stops_at_failure without_db "app.terraform.io" "acme"
            (layered Apply) ["net"] "db" ["app"] epoch).
  - eapply all_applied_cons; [vm_compute; reflexivity | apply all_applied_nil].
  - vm_compute. reflexivity.
Defined.

(** C4. The destroy strategy, run on any plan, returns one result for each
    workspace of the plan, in the order of the plan. The results are those
    of attempts made one after the other on every workspace of the plan,
    whatever the outcome of the earlier ones: an attempt whose [try] block
    throws is recorded with [success = false], and the next workspace is
    attempted all the same. For every workspace of the plan the request for
    it has been sent. *)
Theorem destroyWorkspaces_attempts_all
    (backend : Backend) (hostname organization : string) (config : TFEConfig)
    (names : list string) (w : World) :
  ∃ rs w',
    destroyWorkspaces backend hostname organization config names w = (Ok rs, w')
    ∧ each_destroyed backend hostname organization names w rs w'
    ∧ length rs = length names
    ∧ workspace <$> rs = names
    ∧ ∀ name, name ∈ names →
        GetJson (workspace_url hostname organization name) ∈ requests_since w w'.
Proof.
  destruct (destroyWorkspaces_loop_returns backend hostname organization names [] w)
    as (rs & w' & Hloop & Heach).
  exists rs, w'. split; [done|]. split; [done|].
  destruct (each_destroyed_results _ _ _ _ _ _ _ Heach) as (Hlen & Hnames & _).
  destruct (each_destroyed_requests _ _ _ _ _ _ _ Heach) as [_ Hreq].
  done.
Qed.

Section parallel.
Variable backend : Backend.
Variables hostname organization : string.

(** The shape of [createWorkspace]: one request, the body of an answer with
    the expected status code, and any failure thrown again behind the prefix
    of the method. *)
Lemma json_call_outcome (req : Request) (code : Z) (prefix : string) (w : World) :
  let call : M Body :=
    try_catch
      (response ← send backend req;
       if negb (bool_decide (statusCode response = Some code))
       then throw (JsError (formatError (statusCode response) (result response)))
       else match result response with
            | None => throw (JsError "No response data from TFE API")
            | Some body => mret body
            end)
      (λ error, throw (JsError (prefix +:+ message_or_String error))) in
  (call w).2 = after_request backend req w
  ∧ (∀ body,
       (call w).1 = Ok body
       ↔ reply backend (requests w) req
         = Resolves {| statusCode := Some code; result := Some body |})
  ∧ (∀ e, (call w).1 = Throw e → ∃ m, e = JsError (prefix +:+ m)).
Proof.
  simpl. unfold try_catch, mbind, M_bind, send.
  destruct (reply backend (requests w) req) as [[sc res]|err]; simpl.
  - case_bool_decide as Hcode; simpl.
    + destruct res as [body|]; simpl.
      * repeat split; [naive_solver.. | done].
      * repeat split; [done | done | naive_solver].
    + repeat split; [done | naive_solver | naive_solver].
  - repeat split; [done | done | naive_solver].
Qed.

Lemma createWorkspace_outcome name options w :
  ∃ attributes,
    attr_name attributes = name
    ∧ (createWorkspace backend hostname organization name options w).2
      = after_request backend
          (PostJson (workspaces_url hostname organization)
             (TFEWorkspaceRequest attributes)) w
    ∧ (∀ body,
         (createWorkspace backend hostname organization name options w).1 = Ok body
         ↔ reply backend (requests w)
             (PostJson (workspaces_url hostname organization)
                (TFEWorkspaceRequest attributes))
           = Resolves {| statusCode := Some 201%Z; result := Some body |}).
Proof.
  eexists. split; [|split].
  2,3: apply (json_call_outcome _ 201 "Failed to create workspace: " w).
  reflexivity.
Qed.




End parallel.



Lemma all_fulfilled_Forall {A : Type} (P : A → Prop) (l : list (Res A)) rs :
  (∀ a, Ok a ∈ l → P a) → all_fulfilled l = Ok rs → Forall P rs.
Proof.
  revert rs. induction l as [|[a|e] l IH]; simpl; intros rs Hl H.
  - by simplify_eq.
  - destruct (all_fulfilled l) as [rs'|]; [|done]. simplify_eq.
    constructor; [apply Hl; left | apply IH; [|done]].
    intros a' Ha'. apply Hl. by right.
  - done.
Qed.

Lemma Promise_all_map_Forall {A : Type} (P : A → Prop) (task : string → M A)
    names w rs w' :
  (∀ name a wi, task name w = (Ok a, wi) → P a) →
  Promise_all_map task names w = (Ok rs, w') → Forall P rs.
Proof.
  intros Htask. unfold Promise_all_map. intros [= H _].
  apply (all_fulfilled_Forall P) in H; [done|].
  intros a Ha. apply list_elem_of_fmap in Ha as ([r wi] & ? & Hin). simpl in *.
  apply list_elem_of_fmap in Hin as (name & Hname & _). subst.
  by eapply Htask.
Qed.

(** C10. Every result that [execute] returns, whatever the action, has this
    shape: with [success = false] the error message is set and there is
    neither a workspace id nor a URL (also when the workspace had been
    created before a later step threw: the [catch] builds the record from
    the name and the error alone); with [success = true] there is no error
    message. *)
Theorem execute_results_well_formed
    (backend : Backend) (hostname organization : string) (config : TFEConfig)
    (w : World) (rs : list WorkspaceOperationResult) (w' : World) :
  execute backend hostname organization config w = (Ok rs, w') →
  Forall well_formed_result rs.
Proof.
  unfold execute. intros H.
  apply bind_Ok_inv in H as (u & w0 & Hvalid & H).
  apply bind_Ok_inv in H as (names & w1 & Horder & H).
  unfold lift in *. simplify_eq.
  destruct (action config).
  - eapply Promise_all_map_Forall; [|exact H].
    intros name r wi Hr. simpl in Hr.
    destruct (createSingleWorkspace_returns backend hostname organization name
                (get (workspaces config) name) w1) as (r' & wi' & Hr' & _ & Hwf).
    congruence.
  - eapply Promise_all_map_Forall; [|exact H].
    intros name r wi Hr.
    destruct (deleteSingleWorkspace_returns backend hostname organization name w1)
      as (r' & wi' & Hr' & _ & Hwf).
    congruence.
  - unfold applyWorkspaces in H.
    destruct (applyWorkspaces_loop_returns backend hostname organization names [] w1)
      as (rs' & w'' & Hloop & new & -> & Hnew).
    rewrite Hloop in H. by simplify_eq.
  - unfold destroyWorkspaces in H.
    destruct (destroyWorkspaces_loop_returns backend hostname organization names [] w1)
      as (rs' & w'' & Hloop & Heach).
    rewrite Hloop in H. simplify_eq.
    by apply each_destroyed_results in Heach as (_ & _ & Hwf).
Qed.

(** The workspace [app] is created, the variable set cannot be attached: the
    result names the error and no workspace id. *)
Example execute_with_variable_set :
  execute without_variable_sets "app.terraform.io" "acme" with_variable_set epoch
  = (Ok [{| workspace := "app"; success := false; workspaceId := None;
            workspaceUrl := None;
            error := Some "Failed to attach variable set: HTTP 500: Request failed" |}],
     {| clock := 160;
        requests :=
          [PostJson "https://app.terraform.io/api/v2/organizations/acme/workspaces"
             (TFEWorkspaceRequest
                {| attr_name := "app"; attr_auto_apply := true;
                   attr_terraform_version := "latest";
                   attr_execution_mode := Remote; attr_vcs_repo := None |});
           PostJson
             "https://app.terraform.io/api/v2/varsets/varset-1/relationships/workspaces"
             (TFEVariableSetAttachRequest "ws-7")];
        warnings := [] |}).
Proof. reflexivity. Qed.

Lemma execute_results_well_formed_witness :
  Forall well_formed_result
    [{| workspace := "app"; success := false; workspaceId := None;
        workspaceUrl := None;
        error := Some "Failed to attach variable set: HTTP 500: Request failed" |}].
Proof.
  eapply (execute_results_well_formed without_variable_sets "app.terraform.io"
            "acme" with_variable_set epoch).
  reflexivity.
Defined.

(** ** The run tracker *)

Section tracker.
Variable backend : Backend.
Variables hostname organization : string.

Lemma poll_terminal runId w run status :
  reply backend (requests w) (GetJson (run_url hostname runId))
    = Resolves {| statusCode := Some 200%Z; result := Some run |} →
  read_status run = Ok status →
  includes terminalStates status = true →
  poll backend hostname runId w
  = if bool_decide (status = Some applied)
    then (Ok (Terminal run),
          after_request backend (GetJson (run_url hostname runId)) w)
    else if bool_decide (status = Some errored)
    then (Throw (JsError ("Run failed with status: " +:+ status_text status)),
          after_request backend (GetJson (run_url hostname runId)) w)
    else (Ok (Terminal run),
          warned ("Run ended with status: " +:+ status_text status)
            (after_request backend (GetJson (run_url hostname runId)) w)).
Proof.
  intros Hreply Hstatus Hterminal.
  unfold poll, try_catch, getJson, send, mbind, M_bind, lift. rewrite Hreply. simpl.
  rewrite Hstatus, Hterminal.
  repeat case_bool_decide; done.
Qed.

Lemma poll_not_yet runId w run status :
  reply backend (requests w) (GetJson (run_url hostname runId))
    = Resolves {| statusCode := Some 200%Z; result := Some run |} →
  read_status run = Ok status →
  includes terminalStates status = false →
  poll backend hostname runId w
  = (Ok NotYet, after_request backend (GetJson (run_url hostname runId)) w).
Proof.
  intros Hreply Hstatus Hterminal.
  unfold poll, try_catch, getJson, send, mbind, M_bind, lift. rewrite Hreply. simpl.
  by rewrite Hstatus, Hterminal.
Qed.

Lemma waitForRun_loop_observes runId timeout startTime w run w' :
  observes backend hostname runId timeout startTime w run w' →
  ∀ status, read_status run = Ok status →
  waitForRun_loop backend hostname runId timeout startTime w
  = if bool_decide (status = Some applied) then (Ok run, w')
    else if bool_decide (status = Some errored)
    then (Throw (JsError ("Run failed with status: " +:+ status_text status)),
          w')
    else (Ok run,
          warned ("Run ended with status: " +:+ status_text status) w').
Proof.
  induction 1 as [w run status0 Htime Hreply Hstatus Hterminal
                 |w r status0 run w' Htime Hreply Hstatus Hterminal _ IH];
    intros status Hread;
    rewrite waitForRun_loop_step, decide_False by done.
  - assert (status0 = status) as -> by congruence.
    rewrite (poll_terminal _ _ _ _ Hreply Hstatus Hterminal).
    repeat case_bool_decide; done.
  - rewrite (poll_not_yet _ _ _ _ Hreply Hstatus Hterminal). simpl. by apply IH.
Qed.

End tracker.

(** C7. A polled run that reaches the status canceled, force_canceled or
    discarded makes [waitForRun] log a warning and return the run; one that
    reaches errored makes it throw. So an attempt of apply or destroy whose
    run is canceled, force-canceled or discarded records a result with
    [success = true]. *)
Theorem waitForRun_canceled_is_success
    (backend : Backend) (hostname organization : string) :
  (∀ runId timeout w run w' s,
     observes backend hostname runId (default 1800000%Z timeout) (clock w) w run w' →
     read_status run = Ok (Some s) →
     (s ∈ [canceled; force_canceled; discarded] →
      waitForRun backend hostname runId timeout w
      = (Ok run,
         warned ("Run ended with status: " +:+ RunStatus_text s) w'))
     ∧ (s = errored →
        waitForRun backend hostname runId timeout w
        = (Throw (JsError "Run failed with status: errored"), w')))
  ∧ (∀ isDestroy name w0 found workspaceId w1 created runId w2 run s w3,
       getWorkspace backend hostname organization name w0 = (Ok found, w1) →
       read_data_id found = Ok workspaceId →
       createRun backend hostname workspaceId (run_message isDestroy)
         isDestroy true w1 = (Ok created, w2) →
       read_data_id created = Ok runId →
       observes backend hostname runId 1800000%Z (clock w2) w2 run w3 →
       read_status run = Ok (Some s) →
       s ∈ [canceled; force_canceled; discarded] →
       attempt backend hostname organization isDestroy name w0
       = (Ok {| workspace := name; success := true;
                workspaceId := Some workspaceId;
                workspaceUrl := None; error := None |},
          warned ("Run ended with status: " +:+ RunStatus_text s) w3)).
Proof.
  assert (∀ runId timeout w run w' s,
            observes backend hostname runId (default 1800000%Z timeout)
              (clock w) w run w' →
            read_status run = Ok (Some s) →
            s ∈ [canceled; force_canceled; discarded] →
            waitForRun backend hostname runId timeout w
            = (Ok run,
               warned ("Run ended with status: " +:+ RunStatus_text s) w'))
    as Hcanceled.
  { intros runId timeout w run w' s Hobs Hread Hstatus.
    unfold waitForRun, mbind, M_bind, Date_now.
    rewrite (waitForRun_loop_observes _ _ _ _ _ _ _ _ Hobs _ Hread).
    rewrite !bool_decide_eq_false_2; [done|..]; intros [= Heq];
      rewrite Heq in Hstatus; set_solver. }
  split.
  - intros runId timeout w run w' s Hobs Hread. split; [by apply Hcanceled|].
    intros ->. unfold waitForRun, mbind, M_bind, Date_now.
    rewrite (waitForRun_loop_observes _ _ _ _ _ _ _ _ Hobs _ Hread). done.
  - intros isDestroy name w0 found workspaceId w1 created runId w2 run s w3
           Hget Hid Hcreate Hrun Hobs Hread Hstatus.
    assert (runSingleWorkspace_try backend hostname organization isDestroy name w0
            = (Ok {| workspace := name; success := true;
                     workspaceId := Some workspaceId;
                     workspaceUrl := None; error := None |},
               warned ("Run ended with status: " +:+ RunStatus_text s) w3))
      as Htry.
    { unfold runSingleWorkspace_try.
      rewrite (bind_Ok _ _ _ _ _ Hget).
      rewrite (bind_Ok (lift (read_data_id found)) _ w1 workspaceId w1)
        by (unfold lift; by rewrite Hid).
      unfold run_message in Hcreate. rewrite (bind_Ok _ _ _ _ _ Hcreate).
      rewrite (bind_Ok (lift (read_data_id created)) _ w2 runId w2)
        by (unfold lift; by rewrite Hrun).
      by rewrite (bind_Ok _ _ _ _ _ (Hcanceled _ None _ _ _ _ Hobs Hread Hstatus)). }
    unfold attempt, destroySingleWorkspace, applySingleWorkspace.
    destruct isDestroy; by rewrite caught, Htry.
Qed.

Lemma waitForRun_canceled_is_success_witness :
  ∃ w3,
    attempt canceling "app.terraform.io" "acme" false "net" epoch
    = (Ok {| workspace := "net"; success := true; workspaceId := Some "ws-9";
             workspaceUrl := None; error := None |},
       warned "Run ended with status: canceled" w3).
Proof.
  eexists.
  eapply (proj2 (waitForRun_canceled_is_success canceling "app.terraform.io" "acme")
            false "net" epoch (resource "ws-9" planning) "ws-9" _
            (resource "run-9" pending) "run-9" _
            (resource "run-9" canceled) canceled).
  - vm_compute. reflexivity.
  - reflexivity.
  - vm_compute. reflexivity.
  - reflexivity.
  - eapply observes_later.
    + by vm_compute.
    + vm_compute. reflexivity.
    + reflexivity.
    + reflexivity.
    + eapply observes_now.
      * by vm_compute.
      * vm_compute. reflexivity.
      * reflexivity.
      * reflexivity.
  - reflexivity.
  - simpl. set_solver.
Defined.

Section timeout.
Variable backend : Backend.
Variable hostname : string.

Lemma clock_after_round runId w :
  (clock w + pollInterval
   ≤ clock (after_timer backend pollInterval
              (after_request backend (GetJson (run_url hostname runId)) w)))%Z.
Proof. unfold after_timer, after_request. simpl. lia. Qed.

Lemma clock_poll_rounds runId n w :
  (clock w + pollInterval * Z.of_nat n ≤ clock (poll_rounds backend hostname runId n w))%Z.
Proof.
  revert w. induction n as [|n IH]; intros w; simpl; [lia|].
  specialize (IH (after_timer backend pollInterval
                    (after_request backend (GetJson (run_url hostname runId)) w))).
  pose proof (clock_after_round runId w). lia.
Qed.

Lemma requests_poll_rounds runId n w :
  requests (poll_rounds backend hostname runId n w)
  = requests w ++ replicate n (GetJson (run_url hostname runId)).
Proof.
  revert w. induction n as [|n IH]; intros w; simpl; [by rewrite app_nil_r|].
  rewrite IH. simpl. by rewrite <- app_assoc.
Qed.

(** A loop that never sees a terminal status ends with the timeout error,
    after a number of rounds bounded by the time that was left. *)
Lemma waitForRun_loop_times_out runId timeout startTime w :
  never_terminal backend hostname runId →
  ∃ n,
    waitForRun_loop backend hostname runId timeout startTime w
    = (Throw (JsError (timed_out_message runId timeout)),
       poll_rounds backend hostname runId n w)
    ∧ (timeout < clock (poll_rounds backend hostname runId n w) - startTime)%Z
    ∧ (Z.of_nat n
       ≤ if decide (timeout < clock w - startTime)%Z then 0
         else (timeout - (clock w - startTime)) / pollInterval + 1)%Z.
Proof.
  intros Hnever.
  funelim (waitForRun_loop backend hostname runId timeout startTime w).
  - exists 0. rewrite decide_True by done. simpl. repeat split; [done | lia].
  - destruct (Hnever (requests w)) as (run & status & Hreply & Hread & Hstatus).
    rewrite (poll_not_yet _ _ _ _ _ _ Hreply Hread Hstatus) in *.
    cbn [fst snd] in *.
    destruct (H NotYet Hnever) as (k & Hloop & Helapsed & Hbound).
    exists (S k). rewrite decide_False by done. cbn [poll_rounds].
    split; [done|]. split; [done|].
    pose proof (clock_after_round runId w) as Hclock.
    set (w2 := after_timer backend pollInterval
                 (after_request backend (GetJson (run_url hostname runId)) w)) in *.
    unfold pollInterval in *.
    assert (0 ≤ (timeout - (clock w - startTime)) / 5000)%Z
      by (apply Z.div_pos; lia).
    destruct (decide (timeout < clock w2 - startTime)%Z); [lia|].
    assert ((timeout - (clock w2 - startTime)) / 5000
            ≤ (timeout - (clock w - startTime) + (-1) * 5000) / 5000)%Z
      by (apply Z.div_le_mono; lia).
    rewrite Z.div_add in * by lia. lia.
Qed.

End timeout.

(** C8. Let the run never report a terminal status, and let the timeout not
    be negative. Then [waitForRun] throws the timeout error, which names the
    run id, and returns no run. Until then it has gone through [polls]
    rounds, each of them one request for the run followed by one timer of
    [pollInterval], which is 5000 ms; [polls] is at most
    ceil(timeout / pollInterval) + 1, and when the error is thrown more than
    [timeout] ms have passed. A call that gives no timeout waits for
    1800000 ms, thirty minutes. *)
Theorem waitForRun_times_out
    (backend : Backend) (hostname runId : string) (timeout : Z) (w : World) :
  never_terminal backend hostname runId →
  (0 ≤ timeout)%Z →
  ∃ polls w',
    waitForRun backend hostname runId (Some timeout) w
      = (Throw (JsError (timed_out_message runId timeout)), w')
    ∧ w' = poll_rounds backend hostname runId polls w
    ∧ requests w' = requests w ++ replicate polls (GetJson (run_url hostname runId))
    ∧ (Z.of_nat polls ≤ (timeout + pollInterval - 1) / pollInterval + 1)%Z
    ∧ (timeout < clock w' - clock w)%Z
    ∧ pollInterval = 5000%Z
    ∧ waitForRun backend hostname runId None w
      = waitForRun backend hostname runId (Some 1800000%Z) w.
Proof.
  intros Hnever Htimeout.
  destruct (waitForRun_loop_times_out backend hostname runId timeout (clock w) w Hnever)
    as (polls & Hloop & Helapsed & Hbound).
  exists polls, (poll_rounds backend hostname runId polls w).
  split; [by unfold waitForRun, mbind, M_bind, Date_now|].
  split; [done|]. split; [apply requests_poll_rounds|].
  split; [|by repeat split].
  rewrite decide_False in Hbound by lia.
  replace (timeout - (clock w - clock w))%Z with timeout in Hbound by lia.
  assert (timeout / pollInterval ≤ (timeout + pollInterval - 1) / pollInterval)%Z
    by (apply Z.div_le_mono; unfold pollInterval; lia).
  lia.
Qed.

Lemma always_planning_never_terminal :
  never_terminal always_planning "app.terraform.io" "run-3".
Proof.
  intros log. eexists _, _. split; [reflexivity|]. by split.
Qed.

Lemma waitForRun_times_out_witness :
  ∃ polls w',
    waitForRun always_planning "app.terraform.io" "run-3" (Some 12000%Z) epoch
      = (Throw (JsError "Run run-3 timed out after 12 seconds"), w')
    ∧ w' = poll_rounds always_planning "app.terraform.io" "run-3" polls epoch
    ∧ requests w'
      = requests epoch
        ++ replicate polls (GetJson (run_url "app.terraform.io" "run-3"))
    ∧ (Z.of_nat polls ≤ (12000 + pollInterval - 1) / pollInterval + 1)%Z
    ∧ (12000 < clock w' - clock epoch)%Z
    ∧ pollInterval = 5000%Z
    ∧ waitForRun always_planning "app.terraform.io" "run-3" None epoch
      = waitForRun always_planning "app.terraform.io" "run-3" (Some 1800000%Z) epoch.
Proof.
  apply (waitForRun_times_out always_planning "app.terraform.io" "run-3" 12000 epoch);
    [apply always_planning_never_terminal | lia].
Defined.

(** On [always_planning], a wait of 12 s polls three times, at 0 s, 5 s and
    10 s. *)
Example waitForRun_always_planning :
  waitForRun always_planning "app.terraform.io" "run-3" (Some 12000%Z) epoch
  = (Throw (JsError "Run run-3 timed out after 12 seconds"),
     {| clock := 15078;
        requests := replicate 3 (GetJson "https://app.terraform.io/api/v2/runs/run-3");
        warnings := [] |}).
Proof. vm_compute. reflexivity. Qed.

(** * Further properties *)

(** ** The resolver *)

Lemma validateDependencies_passes_ordered config :
  dependencies_valid (workspaces config) →
  (action config = Apply ∨ action config = Destroy →
   ¬ has_cycle (workspaces config)) →
  validateDependencies config = Ok ().
Proof.
  intros Hdeps Hacyc.
  destruct (action config) eqn:Ha;
    try (apply validateDependencies_passes; [done | apply Hacyc; by auto]).
  all: unfold validateDependencies; rewrite Ha.
  all: assert (check_entries (list_to_set (Object_keys (workspaces config)))
                 (workspaces config) = Ok ()) as ->; [|done].
  all: apply check_entries_Ok; intros name w dep Hin Hd.
  all: destruct (Hdeps name w dep Hin Hd); set_solver.
Qed.

(** X1. [validateDependencies] returns exactly when every dependency of every
    entry is a workspace of the configuration other than the entry's own
    and, for the actions apply and destroy only, the dependency relation has
    no cycle. For create and delete a cycle is not looked for. *)
Theorem validateDependencies_Ok_iff (config : TFEConfig) :
  validateDependencies config = Ok ()
  ↔ dependencies_valid (workspaces config)
    ∧ (action config = Apply ∨ action config = Destroy →
       ¬ has_cycle (workspaces config)).
Proof.
  split.
  - intros [Hcheck Hsort]%validateDependencies_Ok. split.
    + intros name w dep Hin Hdep.
      rewrite check_entries_Ok in Hcheck.
      destruct (Hcheck name w dep Hin Hdep). set_solver.
    + intros Ha. destruct (Hsort Ha) as [l Hl].
      by apply topologicalSort_acyclic in Hl.
  - intros [Hdeps Hacyc]. by apply validateDependencies_passes_ordered.
Qed.

Lemma dependencies_valid_check ws :
  check_entries (list_to_set (Object_keys ws)) ws = Ok () ↔ dependencies_valid ws.
Proof.
  rewrite check_entries_Ok. unfold dependencies_valid.
  split; intros H name w dep Hin Hdep; destruct (H name w dep Hin Hdep);
    set_solver.
Qed.

Lemma dependencies_valid_irreflexive ws x :
  dependencies_valid ws → ¬ declares ws x x.
Proof.
  intros Hvalid (w & Hw & Hx). apply own_property_elem_of in Hw.
  by destruct (Hvalid x w x Hw Hx).
Qed.

(** X2. When [validateDependencies] throws, the error is one of three: the
    one for a dependency that is no workspace of the configuration, the one
    for a workspace that lists itself, or, for apply and destroy only and
    only when the first pass found nothing, the cycle error of the trial
    resolution behind the prefix "Dependency validation failed: ". The
    reported cycle then has at least two different workspaces, and the
    resolver's own error for an undefined dependency never comes out of the
    validation. *)
Theorem validateDependencies_Throw_cases (config : TFEConfig) (e : Thrown) :
  validateDependencies config = Throw e →
  (∃ name w dep,
     (name, w) ∈ workspaces config ∧ dep ∈ dependsOn_or_empty w
     ∧ (((dep ∉ Object_keys (workspaces config))
         ∧ e = JsError (not_in_configuration_message name dep))
        ∨ (dep = name ∧ e = JsError (self_dependency_message name))))
  ∨ ((action config = Apply ∨ action config = Destroy)
     ∧ dependencies_valid (workspaces config)
     ∧ ∃ lead x y cyc,
         e = JsError ("Dependency validation failed: "
                      +:+ circular_message (lead ++ x :: y :: cyc ++ [x]))
         ∧ chain (workspaces config) (lead ++ x :: y :: cyc ++ [x])
         ∧ NoDup (lead ++ x :: y :: cyc)).
Proof.
  unfold validateDependencies.
  destruct (check_entries _ _) as [[]|e'] eqn:Hcheck.
  - intros Hthrow. right.
    pose proof (proj1 (dependencies_valid_check _) Hcheck) as Hvalid.
    assert ((action config = Apply ∨ action config = Destroy)
            ∧ ∃ m, topologicalSort (workspaces config)
                     (Object_keys (workspaces config)) = Throw (JsError m)
                   ∧ e = JsError ("Dependency validation failed: " +:+ m))
      as (Ha & m & Hsort & ->).
    { unfold resolveExecutionOrder in Hthrow.
      destruct (action config); try done;
        (split; [auto|]);
        destruct (topologicalSort _ _) as [l|[m|t]] eqn:Hs; try done;
        try (by exists m; split; [|injection Hthrow as <-]).
      all: apply topologicalSort_Throw in Hs as [(n & _ & ? & ? & ? & ? & ? & _)|Hu];
        [done|].
      all: destruct Hu as (? & ? & ? & _); done. }
    split; [done|]. split; [done|].
    apply topologicalSort_Throw in Hsort as [(n & _ & Hreport)|Hu].
    + destruct Hreport as (lead & x & cyc & rest & He & _ & Hchain & Hnd).
      destruct cyc as [|y cyc].
      * exfalso. apply (dependencies_valid_irreflexive _ x Hvalid).
        apply chain_drop in Hchain. by apply (Hchain 0).
      * exists lead, x, y, cyc. by simplify_eq.
    + exfalso. eapply undefined_report_defined; [|done].
      by apply check_entries_defined.
  - intros ?; simplify_eq. left.
    apply check_entries_Throw in Hcheck
      as (name & w & dep & Hin & Hdep & [[Hnot He]|[Hself He]]);
      exists name, w, dep; (split; [done|]); (split; [done|]);
      [left | right]; (split; [|done]); [set_solver | done].
Qed.

Lemma validateDependencies_Throw_cases_witness :
  (∃ name w dep,
     (name, w) ∈ workspaces tailed_cycle ∧ dep ∈ dependsOn_or_empty w
     ∧ (((dep ∉ Object_keys (workspaces tailed_cycle))
         ∧ JsError "Dependency validation failed: Circular dependency detected: a -> b -> c -> b"
           = JsError (not_in_configuration_message name dep))
        ∨ (dep = name
           ∧ JsError "Dependency validation failed: Circular dependency detected: a -> b -> c -> b"
             = JsError (self_dependency_message name))))
  ∨ ((action tailed_cycle = Apply ∨ action tailed_cycle = Destroy)
     ∧ dependencies_valid (workspaces tailed_cycle)
     ∧ ∃ lead x y cyc,
         JsError "Dependency validation failed: Circular dependency detected: a -> b -> c -> b"
         = JsError ("Dependency validation failed: "
                    +:+ circular_message (lead ++ x :: y :: cyc ++ [x]))
         ∧ chain (workspaces tailed_cycle) (lead ++ x :: y :: cyc ++ [x])
         ∧ NoDup (lead ++ x :: y :: cyc)).
Proof.
  apply (validateDependencies_Throw_cases tailed_cycle). reflexivity.
Defined.

Lemma visit_dependencies_visited ws fuel path name deps st :
  0 < fuel →
  (∀ dep, dep ∈ deps →
          truthy (get ws dep) = true ∧ (dep ∉ visiting st) ∧ dep ∈ visited st) →
  visit_dependencies ws (λ dep, visit fuel ws dep path) name deps st
  = Some (Ok st).
Proof.
  intros Hfuel. induction deps as [|dep deps IH]; intros Hdeps; simpl; [done|].
  destruct (Hdeps dep) as (-> & Hving & Hved); [left|]. simpl.
  destruct fuel as [|fuel]; [lia|]. rewrite visit_unfold.
  rewrite bool_decide_eq_false_2, bool_decide_eq_true_2 by done.
  apply IH. intros d Hd. apply Hdeps. by right.
Qed.

Lemma visit_all_in_order ws fuel :
  NoDup (Object_keys ws) → keys_in_dependency_order ws → 2 ≤ fuel →
  ∀ post st,
    Object_keys ws = sorted st ++ post →
    visiting st = ∅ → (∀ x, x ∈ visited st ↔ x ∈ sorted st) →
    ∃ st', visit_all fuel ws post st = Some (Ok st')
           ∧ sorted st' = Object_keys ws.
Proof.
  intros Hnd Horder Hfuel.
  induction post as [|name post IH]; intros st Hkeys Hving Hved;
    cbn [visit_all].
  - exists st. split; [done|]. by rewrite Hkeys, app_nil_r.
  - assert (Object_keys ws !! length (sorted st) = Some name) as Hname
      by (rewrite Hkeys; apply list_lookup_middle; done).
    unfold Object_keys in Hname. rewrite list_lookup_fmap in Hname.
    destruct (ws !! length (sorted st)) as [[n w]|] eqn:Hentry; [|done].
    simpl in Hname. injection Hname as ->.
    assert (own_property ws name = Some w) as Hown
      by (apply own_property_NoDup; [done|]; by eapply list_elem_of_lookup_2).
    assert (name ∉ sorted st) as Hfresh.
    { rewrite Hkeys in Hnd. apply NoDup_app in Hnd as (_ & Hdisj & _).
      intros Hin. apply (Hdisj name Hin). left. }
    destruct fuel as [|fuel]; [lia|]. rewrite visit_unfold.
    rewrite !bool_decide_eq_false_2 by (rewrite ?Hving, ?Hved; set_solver).
    unfold get at 1. rewrite Hown. cbn [optional_dependsOn].
    rewrite visit_dependencies_visited.
    + apply IH; simpl.
      * by rewrite <- app_assoc.
      * rewrite Hving. set_solver.
      * intros x. rewrite elem_of_app, list_elem_of_singleton, <- Hved. set_solver.
    + lia.
    + intros dep Hdep. simpl.
      destruct (Horder _ _ _ _ Hentry Hdep) as (j & Hj & Hdepj).
      rewrite Hkeys, lookup_app_l in Hdepj by done.
      apply list_elem_of_lookup_2 in Hdepj.
      repeat split.
      * assert (dep ∈ Object_keys ws) as [w' Hw']%own_property_is_Some
          by (rewrite Hkeys; set_solver).
        unfold get. by rewrite Hw'.
      * rewrite Hving. set_solver.
      * by apply Hved.
Qed.

(** X3. If the keys of the configuration already stand in dependency order
    (every workspace after each of its dependencies; in particular if no
    workspace has dependencies), the order for apply is the order of the
    keys, unchanged, and the order for destroy is its reverse. *)
Theorem resolveExecutionOrder_keeps_dependency_order (config : TFEConfig) :
  NoDup (Object_keys (workspaces config)) →
  keys_in_dependency_order (workspaces config) →
  resolveExecutionOrder (with_action Apply config)
    = Ok (Object_keys (workspaces config))
  ∧ resolveExecutionOrder (with_action Destroy config)
    = Ok (reverse (Object_keys (workspaces config))).
Proof.
  intros Hnd Horder.
  assert (topologicalSort (workspaces config) (Object_keys (workspaces config))
          = Ok (Object_keys (workspaces config))) as Hsort.
  { destruct (workspaces config) as [|entry ws] eqn:Hws; [done|].
    unfold topologicalSort.
    assert (2 ≤ recursion_bound (entry :: ws)) as Hfuel
      by (unfold recursion_bound; simpl; lia).
    destruct (visit_all_in_order (entry :: ws) (recursion_bound (entry :: ws))
                Hnd Horder Hfuel (Object_keys (entry :: ws)) initial_state)
      as (st' & -> & Hst'); [done | done | simpl; set_solver | by rewrite Hst']. }
  unfold resolveExecutionOrder. simpl. by rewrite Hsort.
Qed.

Lemma bottom_up_in_dependency_order a :
  keys_in_dependency_order (workspaces (bottom_up a)).
Proof.
  intros [|[|[|i]]] name w dep Hi Hdep; simpl in Hi; simplify_eq.
  - by apply elem_of_nil in Hdep.
  - apply list_elem_of_singleton in Hdep as ->. exists 0. split; [lia | done].
  - apply elem_of_cons in Hdep as [->|Hdep].
    + exists 1. split; [lia | done].
    + apply list_elem_of_singleton in Hdep as ->. exists 0. split; [lia | done].
Qed.

Lemma resolveExecutionOrder_keeps_dependency_order_witness :
  resolveExecutionOrder (with_action Apply (bottom_up Create))
    = Ok ["net"; "db"; "app"]
  ∧ resolveExecutionOrder (with_action Destroy (bottom_up Create))
    = Ok (reverse ["net"; "db"; "app"]).
Proof.
  apply (resolveExecutionOrder_keeps_dependency_order (bottom_up Create));
    [compute_done | apply bottom_up_in_dependency_order].
Defined.

(** *** The resolver without the validation *)

Lemma visit_dependencies_truthy ws visit_dep name deps st st' :
  (∀ dep s s', truthy (get ws dep) = true → visit_dep dep s = Some (Ok s') →
               Forall (λ x, truthy (get ws x) = true) (sorted s) →
               Forall (λ x, truthy (get ws x) = true) (sorted s')) →
  visit_dependencies ws visit_dep name deps st = Some (Ok st') →
  Forall (λ x, truthy (get ws x) = true) (sorted st) →
  Forall (λ x, truthy (get ws x) = true) (sorted st').
Proof.
  intros Hdep. revert st. induction deps as [|dep deps IH]; simpl; intros st H Hinv.
  - by simplify_eq.
  - destruct (truthy (get ws dep)) eqn:Ht; simpl in H; [|done].
    destruct (visit_dep dep st) as [[s|]|] eqn:Hv; try done.
    apply (IH s); [done|]. by eapply Hdep.
Qed.

Lemma visit_truthy fuel ws name path st st' :
  visit fuel ws name path st = Some (Ok st') →
  truthy (get ws name) = true →
  Forall (λ x, truthy (get ws x) = true) (sorted st) →
  Forall (λ x, truthy (get ws x) = true) (sorted st').
Proof.
  revert name path st st'. induction fuel as [|fuel IH]; intros name path st st'; [done|].
  rewrite visit_unfold.
  case_bool_decide as Hving; [done|].
  case_bool_decide as Hved; [by intros; simplify_eq|].
  destruct (visit_dependencies _ _ _ _ _) as [[st2|]|] eqn:Hdeps; try done.
  intros ? Hname Hinv; simplify_eq. simpl.
  apply Forall_app. split; [|by repeat constructor].
  eapply visit_dependencies_truthy in Hdeps; [done | | done].
  intros dep s s' Ht Hv. by eapply IH.
Qed.

Lemma visit_all_truthy fuel ws names st st' :
  visit_all fuel ws names st = Some (Ok st') →
  names ⊆ Object_keys ws →
  Forall (λ x, truthy (get ws x) = true) (sorted st) →
  Forall (λ x, truthy (get ws x) = true) (sorted st').
Proof.
  revert st. induction names as [|name names IH]; cbn [visit_all]; intros st H Hsub Hinv.
  - by simplify_eq.
  - destruct (visit fuel ws name [] st) as [[s|]|] eqn:Hv; try done.
    apply (IH s); [done | set_solver |].
    eapply visit_truthy; [done | | done].
    assert (name ∈ Object_keys ws) as Hname by set_solver.
    apply own_property_is_Some in Hname as [w Hw]. unfold get. by rewrite Hw.
Qed.

Lemma topologicalSort_inherited ws l :
  topologicalSort ws (Object_keys ws) = Ok l →
  ∀ x, x ∈ l → x ∉ Object_keys ws → x ∈ Object_prototype.
Proof.
  unfold topologicalSort.
  destruct (visit_all _ _ _ _) as [[st|e]|] eqn:Hv; try done.
  intros ? x Hx Hkey; simplify_eq.
  apply visit_all_truthy in Hv; [|done | by constructor].
  rewrite Forall_forall in Hv. specialize (Hv x Hx).
  unfold get in Hv. destruct (own_property ws x) as [w|] eqn:Hown.
  - destruct Hkey. apply own_property_is_Some. by eexists.
  - by case_bool_decide.
Qed.

(** X4. Called on a configuration that has not been validated,
    [resolveExecutionOrder] for apply or destroy returns, if it returns, an
    order that holds once each workspace and each name some workspace lists
    as a dependency. A listed name that is no workspace of the configuration
    is then one of the properties every object inherits (such as toString):
    the resolver's test of [workspaces[dep]] lets such a name through, and it
    is put in the order like a workspace. *)
Theorem resolveExecutionOrder_unvalidated (config : TFEConfig) (order : list string) :
  action config = Apply ∨ action config = Destroy →
  resolveExecutionOrder config = Ok order →
  NoDup order
  ∧ (∀ x, x ∈ order ↔ mentioned (workspaces config) x)
  ∧ (∀ x, x ∈ order → x ∉ Object_keys (workspaces config) → x ∈ Object_prototype).
Proof.
  intros Haction Horder.
  assert (∃ l, topologicalSort (workspaces config) (Object_keys (workspaces config))
               = Ok l ∧ order ≡ₚ l) as (l & Hsort & Hperm).
  { unfold resolveExecutionOrder in Horder.
    destruct Haction as [Ha|Ha]; rewrite Ha in Horder.
    - by exists order.
    - destruct (topologicalSort _ _) as [l|]; [|done]. simplify_eq.
      exists l. split; [done | apply reverse_Permutation]. }
  pose proof (topologicalSort_inherited _ _ Hsort) as Hinherited.
  apply topologicalSort_Ok in Hsort as (Hnd & Hall & Hfirst & Hmen); [|done].
  split; [by rewrite Hperm|]. split.
  - intros x. rewrite Hperm. split; [apply Hmen|].
    intros [Hx|[k Hk]]; [by apply Hall|].
    assert (k ∈ l) as [i Hi]%list_elem_of_lookup
      by (by eapply Hall, declares_own).
    destruct (Hfirst i k x Hi Hk) as (j & Hj & _).
    by eapply list_elem_of_lookup_2.
  - intros x Hx. apply Hinherited. by rewrite <- Hperm.
Qed.

Lemma resolveExecutionOrder_unvalidated_witness :
  resolveExecutionOrder (inheriting Apply) = Ok ["toString"; "app"]
  ∧ NoDup ["toString"; "app"]
  ∧ (∀ x, x ∈ ["toString"; "app"] ↔ mentioned (workspaces (inheriting Apply)) x)
  ∧ (∀ x, x ∈ ["toString"; "app"] →
          x ∉ Object_keys (workspaces (inheriting Apply)) → x ∈ Object_prototype).
Proof.
  split; [reflexivity|].
  apply (resolveExecutionOrder_unvalidated (inheriting Apply));
    [by left | reflexivity].
Defined.

(** ** The client *)

(** X5. Whatever the status code and the body, the text [formatError] gives
    starts with "HTTP ", the status code (or "unknown" when there is none)
    and a colon. *)
Theorem formatError_prefix (statusCode : option Z) (errorData : option Body) :
  ∃ detail,
    formatError statusCode errorData
    = "HTTP " +:+ match statusCode with
                  | Some c => pretty c
                  | None => "unknown"
                  end +:+ ": " +:+ detail.
Proof.
  unfold formatError.
  destruct (errorData ≫= errors) as [[|err errs]|]; [| by eexists |].
  all: destruct statusCode as [c|]; [|by eexists].
  all: destruct (decide (c = 401%Z)) as [->|]; [by eexists|].
  all: destruct (decide (c = 404%Z)) as [->|]; [by eexists|].
  all: destruct (decide (c = 422%Z)) as [->|]; [by eexists|].
  all: exists "Request failed".
  all: destruct c as [|p|p]; try done.
  all: repeat (destruct p as [p|p|]; try done).
Qed.

Section calls.
Variable backend : Backend.
Variables hostname organization : string.

(** The shape [getWorkspace] and [createRun] share: one request and the body
    of an answer with the expected status code, but the id of the body is
    read, for the log, before the body is returned, and a body without
    [data] makes that throw; any failure is thrown again behind the prefix of
    the method. *)
Lemma read_call_outcome (req : Request) (code : Z) (prefix : string) (w : World) :
  let call : M Body :=
    try_catch
      (response ← send backend req;
       if negb (bool_decide (statusCode response = Some code))
       then throw (JsError (formatError (statusCode response) (result response)))
       else match result response with
            | None => throw (JsError "No response data from TFE API")
            | Some body => lift (read_data_id body);; mret body
            end)
      (λ error, throw (JsError (prefix +:+ message_or_String error))) in
  (call w).2 = after_request backend req w
  ∧ (∀ body,
       (call w).1 = Ok body
       ↔ reply backend (requests w) req
         = Resolves {| statusCode := Some code; result := Some body |}
         ∧ ∃ id, read_data_id body = Ok id)
  ∧ (∀ e, (call w).1 = Throw e → ∃ m, e = JsError (prefix +:+ m)).
Proof.
  simpl. unfold try_catch, mbind, M_bind, send, lift.
  destruct (reply backend (requests w) req) as [[sc res]|err]; simpl.
  - case_bool_decide as Hcode; simpl.
    + destruct res as [body|]; simpl.
      * destruct (read_data_id body) as [id|e] eqn:Hid; simpl.
        -- split; [done|]. split; [|done]. intros b. split.
           ++ intros [= <-]. split; [by subst | by exists id].
           ++ intros [[= _ <-] _]. done.
        -- split; [done|]. split; [|naive_solver]. intros b. split; [done|].
           intros [[= _ <-] [id Hid']]. congruence.
      * split; [done|]. split; naive_solver.
    + split; [done|]. split; naive_solver.
  - split; [done|]. split; naive_solver.
Qed.

(** X6. [getWorkspace], [createRun] and [createWorkspace] each send one
    request, whatever comes back: there is no second try. [createWorkspace]
    returns the body exactly when the answer has the status 201 and a body.
    [getWorkspace] and [createRun] read [data.id] of the body before they
    return it: they return the body exactly when the answer has the status
    the method expects (200 and 201) and a body in which that id can be
    read; a body without [data] makes them throw. Whatever a method throws
    is an [Error] whose message starts with the method's own prefix. *)
Theorem body_calls_outcome (name workspaceId message : string)
    (isDestroy autoApply : bool) (options : WorkspaceOptions) (w : World) :
  (∃ req,
     req = GetJson (workspace_url hostname organization name)
     ∧ (getWorkspace backend hostname organization name w).2
       = after_request backend req w
     ∧ (∀ body,
          (getWorkspace backend hostname organization name w).1 = Ok body
          ↔ reply backend (requests w) req
            = Resolves {| statusCode := Some 200%Z; result := Some body |}
            ∧ ∃ id, read_data_id body = Ok id)
     ∧ (∀ e, (getWorkspace backend hostname organization name w).1 = Throw e →
             ∃ m, e = JsError ("Failed to get workspace: " +:+ m)))
  ∧ (∃ req,
       req = PostJson ("https://" +:+ hostname +:+ "/api/v2/runs")
               (TFERunRequest message autoApply isDestroy workspaceId)
       ∧ (createRun backend hostname workspaceId message isDestroy autoApply w).2
         = after_request backend req w
       ∧ (∀ body,
            (createRun backend hostname workspaceId message isDestroy autoApply w).1
              = Ok body
            ↔ reply backend (requests w) req
              = Resolves {| statusCode := Some 201%Z; result := Some body |}
              ∧ ∃ id, read_data_id body = Ok id)
       ∧ (∀ e,
            (createRun backend hostname workspaceId message isDestroy autoApply w).1
              = Throw e →
            ∃ m, e = JsError ("Failed to create run: " +:+ m)))
  ∧ (∃ attributes,
       attr_name attributes = name
       ∧ (createWorkspace backend hostname organization name options w).2
         = after_request backend
             (PostJson (workspaces_url hostname organization)
                (TFEWorkspaceRequest attributes)) w
       ∧ (∀ body,
            (createWorkspace backend hostname organization name options w).1
              = Ok body
            ↔ reply backend (requests w)
                (PostJson (workspaces_url hostname organization)
                   (TFEWorkspaceRequest attributes))
              = Resolves {| statusCode := Some 201%Z; result := Some body |})
       ∧ (∀ e,
            (createWorkspace backend hostname organization name options w).1
              = Throw e →
            ∃ m, e = JsError ("Failed to create workspace: " +:+ m))).
Proof.
  split; [|split].
  - eexists. split; [reflexivity|].
    apply (read_call_outcome
             (GetJson (workspace_url hostname organization name)) 200
             "Failed to get workspace: " w).
  - eexists. split; [reflexivity|].
    apply (read_call_outcome
             (PostJson ("https://" +:+ hostname +:+ "/api/v2/runs")
                (TFERunRequest message autoApply isDestroy workspaceId)) 201
             "Failed to create run: " w).
  - eexists.
    split; [|apply (json_call_outcome backend _ 201 "Failed to create workspace: " w)].
    reflexivity.
Qed.

(** X7. [attachVariableSet] and [deleteWorkspace] each send one request,
    whatever comes back, and return exactly when the answer has the status
    204; the body of the answer plays no part. Anything else they throw as
    an [Error] whose message starts with the method's own prefix. *)
Theorem unit_calls_outcome (variableSetId workspaceId name : string) (w : World) :
  (∃ req,
     req = PostJson ("https://" +:+ hostname +:+ "/api/v2/varsets/"
                     +:+ variableSetId +:+ "/relationships/workspaces")
             (TFEVariableSetAttachRequest workspaceId)
     ∧ (attachVariableSet backend hostname variableSetId workspaceId w).2
       = after_request backend req w
     ∧ ((attachVariableSet backend hostname variableSetId workspaceId w).1 = Ok ()
        ↔ ∃ body, reply backend (requests w) req
                  = Resolves {| statusCode := Some 204%Z; result := body |})
     ∧ (∀ e, (attachVariableSet backend hostname variableSetId workspaceId w).1
               = Throw e →
             ∃ m, e = JsError ("Failed to attach variable set: " +:+ m)))
  ∧ (∃ req,
       req = Del (workspace_url hostname organization name)
       ∧ (deleteWorkspace backend hostname organization name w).2
         = after_request backend req w
       ∧ ((deleteWorkspace backend hostname organization name w).1 = Ok ()
          ↔ ∃ body, reply backend (requests w) req
                    = Resolves {| statusCode := Some 204%Z; result := body |})
       ∧ (∀ e, (deleteWorkspace backend hostname organization name w).1 = Throw e →
               ∃ m, e = JsError ("Failed to delete workspace: " +:+ m))).
Proof.
  split; eexists; (split; [reflexivity|]).
  - unfold attachVariableSet, try_catch, mbind, M_bind, postJson, send.
    destruct (reply _ _ _) as [[sc res]|err]; simpl.
    + case_bool_decide as Hcode; simpl.
      * repeat split; [naive_solver.. | done].
      * repeat split; [done | naive_solver | naive_solver].
    + repeat split; [done | naive_solver | naive_solver].
  - unfold deleteWorkspace, try_catch, mbind, M_bind, del, send.
    destruct (reply _ _ _) as [[sc res]|err]; simpl.
    + case_bool_decide as Hcode; simpl.
      * repeat split; [naive_solver.. | done].
      * repeat split; [done | naive_solver | naive_solver].
    + repeat split; [done | naive_solver | naive_solver].
Qed.

End calls.

Section variables.
Variable backend : Backend.
Variable hostname : string.

Lemma createVariable_outcome url key value w :
  (createVariable backend url key value w).2
  = after_request backend (variable_request url (key, value)) w
  ∧ ∀ e, (createVariable backend url key value w).1 = Throw e →
         ∃ m, e = JsError ("Failed to create variable '" +:+ key +:+ "': " +:+ m).
Proof.
  unfold createVariable, try_catch, mbind, M_bind, postJson, send, variable_request.
  simpl. destruct (reply _ _ _) as [[sc res]|err]; simpl.
  - case_bool_decide; simpl; [destruct res; simpl|]; naive_solver.
  - naive_solver.
Qed.

Lemma createVariables_loop_outcome url entries acc w :
  match createVariables_loop backend url entries acc w with
  | (Ok bodies, w') =>
      length bodies = length acc + length entries
      ∧ requests w' = requests w ++ (variable_request url <$> entries)
  | (Throw e, w') =>
      ∃ sent key value rest m,
        entries = sent ++ (key, value) :: rest
        ∧ requests w'
          = requests w ++ (variable_request url <$> sent ++ [(key, value)])
        ∧ e = JsError ("Failed to create variable '" +:+ key +:+ "': " +:+ m)
  end.
Proof.
  revert acc w. induction entries as [|[key value] entries IH]; intros acc w.
  - simpl. split; [lia | by rewrite app_nil_r].
  - cbn [createVariables_loop]. unfold mbind, M_bind.
    destruct (createVariable_outcome url key value w) as [Hworld Hthrow].
    destruct (createVariable backend url key value w) as [[body|e] w1];
      simpl in Hworld; subst w1.
    + specialize (IH (acc ++ [body])
                    (after_request backend (variable_request url (key, value)) w)).
      destruct (createVariables_loop _ _ _ _ _) as [[bodies|e] w'].
      * destruct IH as [Hlen Hreq]. rewrite length_app in Hlen. simpl in *.
        split; [lia|]. by rewrite Hreq, <- app_assoc.
      * destruct IH as (sent & k & v & rest & m & -> & Hreq & ->).
        exists ((key, value) :: sent), k, v, rest, m.
        split; [done|]. split; [|done].
        rewrite Hreq. simpl. by rewrite <- app_assoc.
    + destruct (Hthrow e eq_refl) as [m ->].
      exists [], key, value, entries, m. by repeat split.
Qed.

(** X8. [createVariables] posts the variables one after the other, in the
    order of the entries. If every post is answered with 201 and a body, it
    returns as many bodies as there are variables. Otherwise it stops at the
    first variable that fails: nothing is sent for the variables after it,
    and the error names its key. *)
Theorem createVariables_outcome (workspaceId : string)
    (variables : list (string * VariableValue)) (w : World) :
  match createVariables backend hostname workspaceId variables w with
  | (Ok bodies, w') =>
      length bodies = length variables
      ∧ requests_since w w'
        = variable_request (variables_url hostname workspaceId) <$> variables
  | (Throw e, w') =>
      ∃ sent key value rest m,
        variables = sent ++ (key, value) :: rest
        ∧ requests_since w w'
          = variable_request (variables_url hostname workspaceId)
            <$> sent ++ [(key, value)]
        ∧ e = JsError ("Failed to create variable '" +:+ key +:+ "': " +:+ m)
  end.
Proof.
  unfold createVariables, requests_since.
  pose proof (createVariables_loop_outcome
                (variables_url hostname workspaceId) variables [] w) as H.
  unfold variables_url in *.
  destruct (createVariables_loop _ _ _ _ _) as [[bodies|e] w'].
  - destruct H as [Hlen ->]. by rewrite drop_app_length.
  - destruct H as (sent & key & value & rest & m & -> & -> & ->).
    exists sent, key, value, rest, m. by rewrite drop_app_length.
Qed.

End variables.

(** ** Waiting for a run *)

Section waiting.
Variable backend : Backend.
Variable hostname : string.

Lemma waitForRun_loop_still_pending runId timeout startTime n w :
  still_pending backend hostname runId timeout startTime n w →
  waitForRun_loop backend hostname runId timeout startTime w
  = waitForRun_loop backend hostname runId timeout startTime
      (poll_rounds backend hostname runId n w).
Proof.
  revert w. induction n as [|n IH]; intros w; [done|].
  intros (Htime & (run & status & Hreply & Hread & Hstatus) & Hrest).
  cbn [poll_rounds].
  rewrite waitForRun_loop_step, decide_False by done.
  rewrite (poll_not_yet _ _ _ _ _ _ Hreply Hread Hstatus). simpl. by apply IH.
Qed.

Lemma observes_warnings runId timeout startTime w run w' :
  observes backend hostname runId timeout startTime w run w' →
  warnings w' = warnings w.
Proof. induction 1 as [|w r status run w' _ _ _ _ _ IH]; [done | by rewrite IH]. Qed.

Lemma poll_fails runId w m :
  poll_error (reply backend (requests w) (GetJson (run_url hostname runId)))
    = Some m →
  poll backend hostname runId w
  = (Throw (JsError m),
     after_request backend (GetJson (run_url hostname runId)) w).
Proof.
  unfold poll_error, poll, try_catch, getJson, send, mbind, M_bind, lift.
  destruct (reply _ _ _) as [[sc res]|[m'|text]]; simpl.
  - case_bool_decide; simpl; [destruct res as [run|]; simpl|].
    + destruct (read_status run) as [status|[m'|text]]; intros; by simplify_eq.
    + intros; by simplify_eq.
    + intros; by simplify_eq.
  - intros; by simplify_eq.
  - intros; by simplify_eq.
Qed.

Lemma poll_step runId w :
  requests (poll backend hostname runId w).2
  = requests w ++ [GetJson (run_url hostname runId)]
  ∧ (clock w ≤ clock (poll backend hostname runId w).2)%Z
  ∧ ∀ e, (poll backend hostname runId w).1 = Throw e → ∃ m, e = JsError m.
Proof.
  unfold poll, try_catch, getJson, send, mbind, M_bind, after_request, lift.
  destruct (reply _ _ _) as [[sc res]|[m|text]]; simpl.
  - case_bool_decide; simpl; [destruct res as [run|]; simpl|].
    + destruct (read_status run) as [status|[m|text]]; simpl.
      * destruct (includes terminalStates status); simpl;
          repeat (case_bool_decide; simpl); repeat split; (lia || naive_solver).
      * repeat split; (lia || naive_solver).
      * repeat split; (lia || naive_solver).
    + repeat split; (lia || naive_solver).
    + repeat split; (lia || naive_solver).
  - repeat split; (lia || naive_solver).
  - repeat split; (lia || naive_solver).
Qed.

Lemma waitForRun_loop_bounded runId timeout startTime w :
  (∃ n,
     requests (waitForRun_loop backend hostname runId timeout startTime w).2
     = requests w ++ replicate n (GetJson (run_url hostname runId))
     ∧ (Z.of_nat n
        ≤ if decide (timeout < clock w - startTime)%Z then 0
          else (timeout - (clock w - startTime)) / pollInterval + 1)%Z)
  ∧ ∀ e, (waitForRun_loop backend hostname runId timeout startTime w).1 = Throw e →
         ∃ m, e = JsError m.
Proof.
  funelim (waitForRun_loop backend hostname runId timeout startTime w).
  - rewrite decide_True by done. simpl. split; [|naive_solver].
    exists 0. simpl. by rewrite app_nil_r.
  - rewrite decide_False by done.
    destruct (poll_step runId w) as (Hreq & Hclock & Hthrow).
    assert (0 ≤ (timeout - (clock w - startTime)) / pollInterval)%Z as Hpos
      by (unfold pollInterval; apply Z.div_pos; lia).
    destruct (poll backend hostname runId w) as [[[run|]|e] w1] eqn:Hpoll;
      cbn [fst snd] in *.
    + split; [|done]. exists 1. split; [done | lia].
    + destruct (H NotYet) as [(k & Hk & Hbound) Hloop].
      split; [|done]. exists (S k). split.
      { rewrite Hk. simpl. rewrite Hreq, <- app_assoc. done. }
      set (w2 := after_timer backend pollInterval w1) in *.
      assert (clock w + pollInterval ≤ clock w2)%Z
        by (unfold w2, after_timer; simpl; lia).
      unfold pollInterval in *.
      destruct (decide (timeout < clock w2 - startTime)%Z); [lia|].
      assert ((timeout - (clock w2 - startTime)) / 5000
              ≤ (timeout - (clock w - startTime) + (-1) * 5000) / 5000)%Z
        by (apply Z.div_le_mono; lia).
      rewrite Z.div_add in * by lia. lia.
    + split; [|naive_solver]. exists 1. split; [done | lia].
Qed.

End waiting.

(** X9. A polled run that reaches the status applied makes [waitForRun]
    return the run, and no warning is logged on the way. *)
Theorem waitForRun_applied
    (backend : Backend) (hostname runId : string) (timeout : option Z)
    (w : World) (run : Body) (w' : World) :
  observes backend hostname runId (default 1800000%Z timeout) (clock w) w run w' →
  read_status run = Ok (Some applied) →
  waitForRun backend hostname runId timeout w = (Ok run, w')
  ∧ warnings w' = warnings w.
Proof.
  intros Hobs Happlied. split; [|by eapply observes_warnings].
  unfold waitForRun, mbind, M_bind, Date_now.
  by rewrite (waitForRun_loop_observes _ _ _ _ _ _ _ _ Hobs _ Happlied).
Qed.

Lemma waitForRun_applied_witness :
  ∃ w',
    waitForRun without_db "app.terraform.io" "run-1" None epoch
    = (Ok (resource "ws-1" applied), w')
    ∧ warnings w' = warnings epoch.
Proof.
  eexists.
  apply (waitForRun_applied without_db "app.terraform.io" "run-1" None epoch);
    [|reflexivity].
  by eapply observes_now; [by vm_compute | reflexivity..].
Defined.

(** X10. A poll that fails ends [waitForRun] at once: after [n] polls that
    found the run pending, if the next poll, made in time, is rejected, or
    answered with a status other than 200, or answered without a body, or
    with a body in which the status cannot be read (no [data], or no
    [data.attributes]), [waitForRun] throws the error of that poll (an
    [Error] as it is, anything else wrapped) and sends nothing more. *)
Theorem waitForRun_poll_fails
    (backend : Backend) (hostname runId : string) (timeout : option Z)
    (n : nat) (w : World) (m : string) :
  let wn := poll_rounds backend hostname runId n w in
  still_pending backend hostname runId (default 1800000%Z timeout) (clock w) n w →
  ¬ (default 1800000%Z timeout < clock wn - clock w)%Z →
  poll_error (reply backend (requests wn) (GetJson (run_url hostname runId)))
    = Some m →
  waitForRun backend hostname runId timeout w
  = (Throw (JsError m),
     after_request backend (GetJson (run_url hostname runId)) wn).
Proof.
  intros wn Hpending Htime Herror.
  unfold waitForRun, mbind, M_bind, Date_now.
  rewrite (waitForRun_loop_still_pending _ _ _ _ _ _ _ Hpending).
  fold wn. rewrite waitForRun_loop_step, decide_False by done.
  by rewrite (poll_fails _ _ _ _ _ Herror).
Qed.

Lemma waitForRun_poll_fails_witness :
  waitForRun failing_second_poll "app.terraform.io" "run-5" (Some 60000%Z) epoch
  = (Throw (JsError "Failed to get run status: HTTP 503"),
     after_request failing_second_poll
       (GetJson (run_url "app.terraform.io" "run-5"))
       (poll_rounds failing_second_poll "app.terraform.io" "run-5" 1 epoch)).
Proof.
  apply (waitForRun_poll_fails failing_second_poll "app.terraform.io" "run-5"
           (Some 60000%Z) 1 epoch).
  - split; [by vm_compute|]. split; [|done].
    eexists _, _. split; [reflexivity|]. by split.
  - by vm_compute.
  - reflexivity.
Defined.

(** X11. The deadline is looked at before every poll: after [n] polls that
    found the run pending, if more than [timeout] ms have passed since the
    call, [waitForRun] throws the timeout error and sends nothing more,
    whatever the run's status may be by then. With [n = 0]: a negative
    timeout makes [waitForRun] throw before the first request. *)
Theorem waitForRun_deadline
    (backend : Backend) (hostname runId : string) (timeout : option Z)
    (n : nat) (w : World) :
  let wn := poll_rounds backend hostname runId n w in
  still_pending backend hostname runId (default 1800000%Z timeout) (clock w) n w →
  (default 1800000%Z timeout < clock wn - clock w)%Z →
  waitForRun backend hostname runId timeout w
  = (Throw (JsError (timed_out_message runId (default 1800000%Z timeout))), wn).
Proof.
  intros wn Hpending Htime.
  unfold waitForRun, mbind, M_bind, Date_now.
  rewrite (waitForRun_loop_still_pending _ _ _ _ _ _ _ Hpending).
  fold wn. by rewrite waitForRun_loop_step, decide_True.
Qed.

Lemma waitForRun_deadline_witness :
  waitForRun without_db "app.terraform.io" "run-1" (Some (-1)%Z) epoch
  = (Throw (JsError "Run run-1 timed out after -0.001 seconds"), epoch).
Proof.
  apply (waitForRun_deadline without_db "app.terraform.io" "run-1"
           (Some (-1)%Z) 0 epoch); [done | by vm_compute].
Defined.

(** X12. Whatever the backend answers, [waitForRun] sends nothing but
    requests for the run it waits for, and no more than
    floor(timeout / 5000) + 1 of them (none when the timeout is negative;
    361 when the timeout is left out); if it throws, what it throws is an
    [Error]. *)
Theorem waitForRun_bounded
    (backend : Backend) (hostname runId : string) (timeout : option Z)
    (w : World) :
  (∃ n,
     requests_since w (waitForRun backend hostname runId timeout w).2
     = replicate n (GetJson (run_url hostname runId))
     ∧ n ≤ Z.to_nat (default 1800000%Z timeout / pollInterval + 1)
     ∧ (timeout = None → n ≤ 361))
  ∧ ∀ e, (waitForRun backend hostname runId timeout w).1 = Throw e →
         ∃ m, e = JsError m.
Proof.
  unfold waitForRun, mbind, M_bind, Date_now, requests_since.
  destruct (waitForRun_loop_bounded backend hostname runId
              (default 1800000%Z timeout) (clock w) w)
    as [(n & Hreq & Hbound) Hthrow].
  split; [|done]. exists n. rewrite Hreq, drop_app_length.
  split; [done|].
  replace (clock w - clock w)%Z with 0%Z in Hbound by lia.
  rewrite Z.sub_0_r in Hbound.
  split.
  - destruct (decide _); lia.
  - intros ->. simpl in Hbound.
    change (1800000 / pollInterval + 1)%Z with 361%Z in Hbound. lia.
Qed.

(** ** The attempts, request by request *)

Section steps.
Variable backend : Backend.
Variables hostname organization : string.

Lemma getWorkspace_outcome name w :
  (getWorkspace backend hostname organization name w).2
  = after_request backend (GetJson (workspace_url hostname organization name)) w
  ∧ (∀ body,
       (getWorkspace backend hostname organization name w).1 = Ok body
       ↔ reply backend (requests w)
           (GetJson (workspace_url hostname organization name))
         = Resolves {| statusCode := Some 200%Z; result := Some body |}
         ∧ ∃ id, read_data_id body = Ok id)
  ∧ (∀ e, (getWorkspace backend hostname organization name w).1 = Throw e →
          ∃ m, e = JsError ("Failed to get workspace: " +:+ m)).
Proof.
  apply (read_call_outcome backend
           (GetJson (workspace_url hostname organization name)) 200
           "Failed to get workspace: " w).
Qed.

Lemma createRun_outcome isDestroy workspaceId w :
  (createRun backend hostname workspaceId (run_message isDestroy) isDestroy true w).2
  = after_request backend (run_request hostname isDestroy workspaceId) w
  ∧ (∀ body,
       (createRun backend hostname workspaceId (run_message isDestroy)
          isDestroy true w).1 = Ok body
       ↔ reply backend (requests w) (run_request hostname isDestroy workspaceId)
         = Resolves {| statusCode := Some 201%Z; result := Some body |}
         ∧ ∃ id, read_data_id body = Ok id)
  ∧ (∀ e, (createRun backend hostname workspaceId (run_message isDestroy)
             isDestroy true w).1 = Throw e →
          ∃ m, e = JsError ("Failed to create run: " +:+ m)).
Proof.
  apply (read_call_outcome backend (run_request hostname isDestroy workspaceId)
           201 "Failed to create run: " w).
Qed.

Lemma waitForRun_requests runId w :
  ∃ n, n ≤ 361
       ∧ requests (waitForRun backend hostname runId None w).2
         = requests w ++ replicate n (GetJson (run_url hostname runId)).
Proof.
  unfold waitForRun, mbind, M_bind, Date_now.
  destruct (waitForRun_loop_bounded backend hostname runId 1800000 (clock w) w)
    as [(n & Hreq & Hbound) _].
  exists n. split; [|done].
  replace (clock w - clock w)%Z with 0%Z in Hbound by lia.
  destruct (decide _) in Hbound; [lia|].
  change ((1800000 - 0) / pollInterval + 1)%Z with 361%Z in Hbound. lia.
Qed.

Lemma requests_since_app w w' l :
  requests w' = requests w ++ l → requests_since w w' = l.
Proof. unfold requests_since. intros ->. by rewrite drop_app_length. Qed.

Lemma runSingleWorkspace_steps isDestroy name w :
  let get := GetJson (workspace_url hostname organization name) in
  ∃ r w',
    try_catch (runSingleWorkspace_try backend hostname organization isDestroy name)
      (λ error, mret (failed name error)) w = (Ok r, w')
    ∧ ((∀ found foundId,
          reply backend (requests w) get
          = Resolves {| statusCode := Some 200%Z; result := Some found |} →
          read_data_id found ≠ Ok foundId) →
       requests_since w w' = [get] ∧ success r = false)
    ∧ (∀ found foundId,
         reply backend (requests w) get
         = Resolves {| statusCode := Some 200%Z; result := Some found |} →
         read_data_id found = Ok foundId →
         let post := run_request hostname isDestroy foundId in
         ((∀ created runId,
             reply backend (requests w ++ [get]) post
             = Resolves {| statusCode := Some 201%Z; result := Some created |} →
             read_data_id created ≠ Ok runId) →
          requests_since w w' = [get; post] ∧ success r = false)
         ∧ (∀ created runId,
              reply backend (requests w ++ [get]) post
              = Resolves {| statusCode := Some 201%Z; result := Some created |} →
              read_data_id created = Ok runId →
              ∃ n,
                n ≤ 361
                ∧ requests_since w w'
                  = get :: post :: replicate n (GetJson (run_url hostname runId))
                ∧ (success r = true → workspaceId r = Some foundId))).
Proof.
  cbv zeta. rewrite caught.
  unfold runSingleWorkspace_try, mbind at 1, M_bind at 1.
  destruct (getWorkspace_outcome name w) as (Hw1 & Hfound & _).
  destruct (getWorkspace backend hostname organization name w) as [[found|e] w1];
    cbn [fst snd] in *; subst w1.
  all: set (get := GetJson (workspace_url hostname organization name)) in *.
  - destruct (proj1 (Hfound found) eq_refl) as [Hreply [foundId Hid]].
    unfold mbind at 1, M_bind at 1, lift at 1. rewrite Hid.
    unfold mbind at 1, M_bind at 1.
    fold (run_message isDestroy).
    destruct (createRun_outcome isDestroy foundId
                (after_request backend get w)) as (Hw2 & Hcreated & _).
    destruct (createRun backend hostname foundId (run_message isDestroy)
                isDestroy true (after_request backend get w))
      as [[created|e] w2]; cbn [fst snd] in *; subst w2.
    + destruct (proj1 (Hcreated created) eq_refl) as [Hpost [runId Hrun]].
      unfold mbind at 1, M_bind at 1, lift at 1. rewrite Hrun.
      unfold mbind, M_bind.
      destruct (waitForRun_requests runId
                  (after_request backend
                     (run_request hostname isDestroy foundId)
                     (after_request backend get w))) as (n & Hn & Hreq).
      destruct (waitForRun backend hostname runId None _)
        as [[run|e] w3]; cbn [fst snd] in *.
      all: eexists _, w3; split; [reflexivity|].
      all: split; [intros Hnone; by destruct (Hnone found foundId)|].
      all: intros found' foundId' Hfound' Hid'.
      all: pose proof (eq_trans (eq_sym Hreply) Hfound') as Hsame.
      all: injection Hsame as <-.
      all: assert (foundId' = foundId) as -> by congruence.
      all: split; [intros Hnone; by destruct (Hnone created runId)|].
      all: intros created' runId' Hcreated' Hrun'.
      all: pose proof (eq_trans (eq_sym Hpost) Hcreated') as Hsame.
      all: injection Hsame as <-.
      all: assert (runId' = runId) as -> by congruence.
      all: exists n; split; [done|]; split; [|done].
      all: apply requests_since_app; rewrite Hreq; simpl.
      all: by rewrite <- !app_assoc.
    + eexists _, _. split; [reflexivity|].
      split; [intros Hnone; by destruct (Hnone found foundId)|].
      intros found' foundId' Hfound' Hid'.
      pose proof (eq_trans (eq_sym Hreply) Hfound') as Hsame.
      injection Hsame as <-.
      assert (foundId' = foundId) as -> by congruence.
      split.
      * intros _. split; [|done]. apply requests_since_app. simpl.
        by rewrite <- app_assoc.
      * intros created runId Hpost Hrun.
        assert (Throw e = Ok created) by (apply Hcreated; eauto). done.
  - eexists _, _. split; [reflexivity|]. split.
    + intros _. split; [|done]. by apply requests_since_app.
    + intros found foundId Hreply Hid.
      assert (Throw e = Ok found) by (apply Hfound; eauto). done.
Qed.

End steps.

(** X13. An attempt of apply or destroy on a workspace never throws, and
    what it sends is fixed by the answers. It first asks for the workspace;
    if that is not answered with 200 and a body in which [data.id] can be
    read, the attempt fails and nothing else is sent: no run is created.
    Otherwise it posts one run for the id found, with auto-apply set and the
    destroy flag of the action; if that is not answered with 201 and a body
    in which [data.id] can be read, the attempt fails after these two
    requests. Otherwise it polls the run created, at most 361 times, and
    sends nothing else; a successful result carries the id found. *)
Theorem attempt_requests
    (backend : Backend) (hostname organization : string)
    (isDestroy : bool) (name : string) (w : World) :
  let get := GetJson (workspace_url hostname organization name) in
  ∃ r w',
    attempt backend hostname organization isDestroy name w = (Ok r, w')
    ∧ ((∀ found foundId,
          reply backend (requests w) get
          = Resolves {| statusCode := Some 200%Z; result := Some found |} →
          read_data_id found ≠ Ok foundId) →
       requests_since w w' = [get] ∧ success r = false)
    ∧ (∀ found foundId,
         reply backend (requests w) get
         = Resolves {| statusCode := Some 200%Z; result := Some found |} →
         read_data_id found = Ok foundId →
         let post := run_request hostname isDestroy foundId in
         ((∀ created runId,
             reply backend (requests w ++ [get]) post
             = Resolves {| statusCode := Some 201%Z; result := Some created |} →
             read_data_id created ≠ Ok runId) →
          requests_since w w' = [get; post] ∧ success r = false)
         ∧ (∀ created runId,
              reply backend (requests w ++ [get]) post
              = Resolves {| statusCode := Some 201%Z; result := Some created |} →
              read_data_id created = Ok runId →
              ∃ n,
                n ≤ 361
                ∧ requests_since w w'
                  = get :: post :: replicate n (GetJson (run_url hostname runId))
                ∧ (success r = true → workspaceId r = Some foundId))).
Proof.
  unfold attempt, destroySingleWorkspace, applySingleWorkspace.
  destruct isDestroy; apply runSingleWorkspace_steps.
Qed.

Lemma attempt_requests_witness :
  ∃ r w' n,
    attempt without_db "app.terraform.io" "acme" false "net" epoch = (Ok r, w')
    ∧ n ≤ 361
    ∧ requests_since epoch w'
      = GetJson (workspace_url "app.terraform.io" "acme" "net")
        :: run_request "app.terraform.io" false "ws-1"
        :: replicate n (GetJson (run_url "app.terraform.io" "run-1")).
Proof.
  destruct (attempt_requests without_db "app.terraform.io" "acme" false "net" epoch)
    as (r & w' & Hr & _ & Hfound).
  destruct (Hfound (resource "ws-1" applied) "ws-1" eq_refl eq_refl)
    as [_ Hcreated].
  destruct (Hcreated (resource "run-1" pending) "run-1" eq_refl eq_refl)
    as (n & Hn & Hreq & _).
  by exists r, w', n.
Defined.

(** The workspace is found, but the answer to the creation of the run has a
    body without [data]: the attempt fails on reading the id of the run,
    and no poll is sent. *)
Example attempt_run_without_data :
  attempt run_without_data "app.terraform.io" "acme" false "net" epoch
  = (Ok {| workspace := "net"; success := false; workspaceId := None;
           workspaceUrl := None;
           error := Some ("Failed to create run: "
                          +:+ "Cannot read properties of undefined (reading 'id')") |},
     {| clock := 20;
        requests := [GetJson (workspace_url "app.terraform.io" "acme" "net");
                     run_request "app.terraform.io" false "ws-2"];
        warnings := [] |}).
Proof. reflexivity. Qed.

Section creation.
Variable backend : Backend.
Variables hostname organization : string.

Lemma attachVariableSet_request variableSetId workspaceId w :
  (attachVariableSet backend hostname variableSetId workspaceId w).2
  = after_request backend (attach_request hostname variableSetId workspaceId) w.
Proof.
  unfold attachVariableSet, try_catch, mbind, M_bind, postJson, send, attach_request.
  destruct (reply _ _ _) as [[sc res]|err]; simpl; [|done].
  by case_bool_decide.
Qed.

Lemma createVariables_requests workspaceId variables w :
  ∃ sent,
    requests (createVariables backend hostname workspaceId variables w).2
    = requests w ++ sent
    ∧ sent `prefix_of`
        (variable_request (variables_url hostname workspaceId) <$> variables)
    ∧ (variables ≠ [] → sent ≠ [])
    ∧ ((∃ bodies,
          (createVariables backend hostname workspaceId variables w).1 = Ok bodies) →
       sent = variable_request (variables_url hostname workspaceId) <$> variables).
Proof.
  unfold createVariables.
  pose proof (createVariables_loop_outcome backend
                (variables_url hostname workspaceId) variables [] w) as H.
  unfold variables_url in *.
  destruct (createVariables_loop _ _ _ _ _) as [[bodies|e] w'].
  - destruct H as [_ Hreq]. eexists. split; [exact Hreq|].
    split; [done|]. split; [|done]. by destruct variables.
  - destruct H as (sent & key & value & rest & m & -> & Hreq & ->).
    eexists. split; [exact Hreq|]. split; [|split].
    + rewrite !fmap_app. apply prefix_app, prefix_cons, prefix_nil.
    + intros _. rewrite fmap_app. by destruct (_ <$> sent).
    + by intros [? ?].
Qed.

(** What [createSingleWorkspace] does once the workspace is created and its
    id and URL are read. *)
Lemma after_creation_steps (name workspaceId : string) (workspaceUrl : option string)
    (config : WorkspaceConfig) (w1 : World) :
  ∃ outcome w3 sent,
    ((match variable_set_id config with
      | Some id =>
          if bool_decide (id = "") then mret ()
          else attachVariableSet backend hostname id workspaceId
      | None => mret ()
      end;;
      match variables config with
      | Some (v :: vs) =>
          createVariables backend hostname workspaceId (v :: vs);; mret ()
      | _ => mret ()
      end;;
      mret {| workspace := name; success := true;
              workspaceId := Some workspaceId;
              workspaceUrl := workspaceUrl; error := None |}) : M _) w1
    = (outcome, w3)
    ∧ requests w3 = requests w1 ++ sent
    ∧ sent `prefix_of` requests_after_creation hostname workspaceId config
    ∧ match outcome with
      | Ok r =>
          r = {| workspace := name; success := true;
                 workspaceId := Some workspaceId;
                 workspaceUrl := workspaceUrl; error := None |}
          ∧ sent = requests_after_creation hostname workspaceId config
      | Throw _ => sent ≠ []
      end.
Proof.
  assert (∃ sent1 ok1 w2,
            (match variable_set_id config with
             | Some id =>
                 if bool_decide (id = "") then mret ()
                 else attachVariableSet backend hostname id workspaceId
             | None => mret ()
             end) w1 = (ok1, w2)
            ∧ requests w2 = requests w1 ++ sent1
            ∧ sent1 = match variable_set_id config with
                      | Some id =>
                          if bool_decide (id = "") then []
                          else [attach_request hostname id workspaceId]
                      | None => []
                      end
            ∧ ((∃ e, ok1 = Throw e) → sent1 ≠ []))
    as (sent1 & ok1 & w2 & Hattach & Hreq1 & Hsent1 & Hfail1).
  { destruct (variable_set_id config) as [id|].
    - case_bool_decide.
      + eexists [], _, _. split; [reflexivity|]. rewrite app_nil_r.
        repeat split. by intros [? ?].
      + pose proof (attachVariableSet_request id workspaceId w1) as Hw2.
        destruct (attachVariableSet _ _ _ _ _) as [ok1 w2]. simpl in Hw2. subst w2.
        eexists _, ok1, _. split; [reflexivity|]. by repeat split.
    - eexists [], _, _. split; [reflexivity|]. rewrite app_nil_r.
      repeat split. by intros [? ?]. }
  unfold mbind at 1, M_bind at 1. rewrite Hattach.
  destruct ok1 as [[]|e1].
  2: { eexists _, _, sent1. split; [reflexivity|]. split; [done|].
       split; [unfold requests_after_creation; rewrite <- Hsent1;
               by apply prefix_app_r|].
       apply Hfail1. by eexists. }
  assert (∃ sent2 ok2 w3,
            (match variables config with
             | Some (v :: vs) =>
                 createVariables backend hostname workspaceId (v :: vs);; mret ()
             | _ => mret ()
             end) w2 = (ok2, w3)
            ∧ requests w3 = requests w2 ++ sent2
            ∧ sent2 `prefix_of`
                (variable_request (variables_url hostname workspaceId)
                 <$> default [] (variables config))
            ∧ ((∃ e, ok2 = Throw e) → sent2 ≠ [])
            ∧ ((∃ u, ok2 = Ok u) →
               sent2 = variable_request (variables_url hostname workspaceId)
                       <$> default [] (variables config)))
    as (sent2 & ok2 & w3 & Hvars & Hreq2 & Hsent2 & Hfail2 & Hall2).
  { destruct (variables config) as [[|v vs]|]; simpl.
    1,3: eexists [], _, _; split; [reflexivity|]; rewrite app_nil_r;
         split; [done|]; split; [apply prefix_nil|];
         split; [by intros [? ?] | done].
    destruct (createVariables_requests workspaceId (v :: vs) w2)
      as (sent2 & Hreq2 & Hprefix & Hnonempty & Hall).
    unfold mbind, M_bind.
    destruct (createVariables _ _ _ _ _) as [[bodies|e2] w3]; cbn [fst snd] in *.
    - eexists sent2, _, _. split; [reflexivity|]. repeat split; try done.
      + by intros [? ?].
      + intros _. apply Hall. by eexists.
    - eexists sent2, _, _. split; [reflexivity|]. repeat split; try done.
      + intros _. by apply Hnonempty.
      + by intros [? ?]. }
  unfold mbind at 1, M_bind at 1. rewrite Hvars.
  assert (requests w3 = requests w1 ++ sent1 ++ sent2) as Hreq
    by (by rewrite Hreq2, Hreq1, <- app_assoc).
  assert (sent1 ++ sent2
          `prefix_of` requests_after_creation hostname workspaceId config)
    as Hprefix.
  { unfold requests_after_creation. rewrite <- Hsent1. by apply prefix_app. }
  destruct ok2 as [[]|e2].
  - eexists _, _, (sent1 ++ sent2). split; [reflexivity|].
    split; [done|]. split; [done|]. split; [done|].
    unfold requests_after_creation. rewrite <- Hsent1. f_equal. apply Hall2.
    by eexists.
  - eexists _, _, (sent1 ++ sent2). split; [reflexivity|].
    split; [done|]. split; [done|].
    intros Hnil. apply app_eq_nil in Hnil as [_ Hnil].
    revert Hnil. apply Hfail2. by eexists.
Qed.

End creation.

(** X14. [createSingleWorkspace] never throws, and what it sends is fixed by
    the configuration and the answers. It first posts the workspace, under
    the name given; if that is not answered with 201 and a body in which
    [data.id] and [data.attributes['html-url']] can be read (a body that
    holds [data] and [data.attributes]), the result is a failure and nothing
    else is sent. Otherwise it goes through the variable set (if one is
    configured and not the empty string) and then the variables, in the
    order of their entries, all for the id the creation returned, and stops
    at the first step that fails. A success has sent them all and carries
    the id and the URL of the creation; a failure after the creation carries
    neither, and nothing is sent to remove the workspace. *)
Theorem createSingleWorkspace_steps
    (backend : Backend) (hostname organization name : string)
    (config : WorkspaceConfig) (w : World) :
  ∃ r w' attributes,
    let create := PostJson (workspaces_url hostname organization)
                    (TFEWorkspaceRequest attributes) in
    createSingleWorkspace backend hostname organization name (OwnValue config) w
      = (Ok r, w')
    ∧ attr_name attributes = name
    ∧ ((∀ body createdId createdUrl,
          reply backend (requests w) create
          = Resolves {| statusCode := Some 201%Z; result := Some body |} →
          read_data_id body = Ok createdId →
          read_html_url body ≠ Ok createdUrl) →
       requests_since w w' = [create] ∧ success r = false)
    ∧ (∀ body createdId createdUrl,
         reply backend (requests w) create
         = Resolves {| statusCode := Some 201%Z; result := Some body |} →
         read_data_id body = Ok createdId →
         read_html_url body = Ok createdUrl →
         ∃ sent,
           requests_since w w' = create :: sent
           ∧ sent `prefix_of` requests_after_creation hostname createdId config
           ∧ (success r = true →
              sent = requests_after_creation hostname createdId config
              ∧ workspaceId r = Some createdId
              ∧ workspaceUrl r = createdUrl)
           ∧ (success r = false →
              sent ≠ []
              ∧ workspaceId r = None
              ∧ workspaceUrl r = None)).
Proof.
  unfold createSingleWorkspace. rewrite caught.
  unfold createSingleWorkspace_try.
  erewrite bind_Ok by reflexivity.
  unfold mbind at 1, M_bind at 1.
  destruct (createWorkspace_outcome backend hostname organization name
              {| autoApply := auto_apply config;
                 terraformVersion := terraform_version config;
                 executionMode := execution_mode config;
                 options_vcs := vcs config |} w)
    as (attributes & Hname & Hw1 & Hbody).
  destruct (createWorkspace _ _ _ _ _ _) as [[body|e] w1];
    cbn [fst snd] in *; subst w1.
  2: { eexists _, _, attributes. split; [reflexivity|]. split; [done|]. split.
       - intros _. split; [|done]. by apply requests_since_app.
       - intros body createdId createdUrl Hreply. by apply Hbody in Hreply. }
  assert (reply backend (requests w)
            (PostJson (workspaces_url hostname organization)
               (TFEWorkspaceRequest attributes))
          = Resolves {| statusCode := Some 201%Z; result := Some body |})
    as Hreply by (by apply Hbody).
  destruct (read_data_id body) as [createdId|e] eqn:Hid.
  all: cycle 1.
  { erewrite bind_Throw by reflexivity.
    eexists _, _, attributes. split; [reflexivity|]. split; [done|]. split.
       - intros _. split; [|done]. by apply requests_since_app.
       - intros body' createdId' createdUrl' Hbody' Hid'.
         pose proof (eq_trans (eq_sym Hreply) Hbody') as Hsame.
         injection Hsame as <-. congruence. }
  erewrite bind_Ok by reflexivity.
  destruct (read_html_url body) as [createdUrl|e] eqn:Hurl.
  all: cycle 1.
  { erewrite bind_Throw by reflexivity.
    eexists _, _, attributes. split; [reflexivity|]. split; [done|]. split.
       - intros _. split; [|done]. by apply requests_since_app.
       - intros body' createdId' createdUrl' Hbody' Hid' Hurl'.
         pose proof (eq_trans (eq_sym Hreply) Hbody') as Hsame.
         injection Hsame as <-. congruence. }
  erewrite bind_Ok by reflexivity.
  destruct (after_creation_steps backend hostname name createdId createdUrl
              config
              (after_request backend
                 (PostJson (workspaces_url hostname organization)
                    (TFEWorkspaceRequest attributes)) w))
    as (outcome & w3 & sent & Hrun & Hreq & Hprefix & Houtcome).
  rewrite Hrun.
  assert (requests_since w w3
          = PostJson (workspaces_url hostname organization)
              (TFEWorkspaceRequest attributes) :: sent) as Hsince.
  { apply requests_since_app. rewrite Hreq. simpl. by rewrite <- app_assoc. }
  destruct outcome as [r|e].
  - destruct Houtcome as [-> Hall].
    eexists _, _, attributes. split; [reflexivity|]. split; [done|]. split.
    + intros Hnone. by destruct (Hnone body createdId createdUrl).
    + intros body' createdId' createdUrl' Hbody' Hid' Hurl'.
      pose proof (eq_trans (eq_sym Hreply) Hbody') as Hsame.
      injection Hsame as <-.
      assert (createdId' = createdId) as -> by congruence.
      assert (createdUrl' = createdUrl) as -> by congruence.
      exists sent. by repeat split.
  - eexists _, _, attributes. split; [reflexivity|]. split; [done|]. split.
    + intros Hnone. by destruct (Hnone body createdId createdUrl).
    + intros body' createdId' createdUrl' Hbody' Hid' Hurl'.
      pose proof (eq_trans (eq_sym Hreply) Hbody') as Hsame.
      injection Hsame as <-.
      assert (createdId' = createdId) as -> by congruence.
      exists sent. by repeat split.
Qed.

(** The creation is answered with 201 and a body whose [data] has no
    [attributes], as in the repository's test of partial failures: the
    result is a failure, and the variable set and the variables configured
    are not sent. *)
Lemma createSingleWorkspace_steps_witness :
  ∃ r w' create,
    createSingleWorkspace without_attributes "app.terraform.io" "acme" "workspace2"
      (OwnValue with_variables) epoch = (Ok r, w')
    ∧ requests_since epoch w' = [create]
    ∧ success r = false.
Proof.
  destruct (createSingleWorkspace_steps without_attributes "app.terraform.io"
              "acme" "workspace2" with_variables epoch)
    as (r & w' & attributes & Hr & _ & Hnone & _).
  destruct Hnone as [Hsince Hfail].
  { intros body workspaceId workspaceUrl [= <-] _. done. }
  by eexists r, w', _.
Defined.

Example createSingleWorkspace_without_attributes :
  (createSingleWorkspace without_attributes "app.terraform.io" "acme" "workspace2"
     (OwnValue with_variables) epoch).1
  = Ok {| workspace := "workspace2"; success := false; workspaceId := None;
          workspaceUrl := None;
          error := Some "Cannot read properties of undefined (reading 'html-url')" |}.
Proof. reflexivity. Qed.

(** X15. [deleteSingleWorkspace] never throws and sends exactly one request,
    the deletion of the workspace named. Its result is a success exactly
    when the answer has the status 204; it never carries a workspace id or
    a URL. *)
Theorem deleteSingleWorkspace_outcome
    (backend : Backend) (hostname organization name : string) (w : World) :
  ∃ r,
    deleteSingleWorkspace backend hostname organization name w
    = (Ok r, after_request backend
               (Del (workspace_url hostname organization name)) w)
    ∧ workspace r = name
    ∧ (success r = true
       ↔ ∃ body,
           reply backend (requests w)
             (Del (workspace_url hostname organization name))
           = Resolves {| statusCode := Some 204%Z; result := body |})
    ∧ workspaceId r = None ∧ workspaceUrl r = None.
Proof.
  unfold deleteSingleWorkspace. rewrite caught.
  unfold deleteSingleWorkspace_try, deleteWorkspace, try_catch, mbind, M_bind,
    del, send.
  destruct (reply _ _ _) as [[sc res]|err]; simpl.
  - case_bool_decide as Hcode; simpl.
    + eexists. split; [reflexivity|]. simpl. subst sc. repeat split; eauto.
    + eexists. split; [reflexivity|]. simpl.
      repeat split; [done | naive_solver].
  - eexists. split; [reflexivity|]. simpl.
    repeat split; [done | naive_solver].
Qed.

(** ** The strategies, whatever the answers *)

Section plans.
Variable backend : Backend.
Variables hostname organization : string.

Lemma applyWorkspaces_loop_prefix names acc w :
  ∃ new w',
    applyWorkspaces_loop backend hostname organization names acc w
      = (Ok (acc ++ new), w')
    ∧ workspace <$> new `prefix_of` names
    ∧ (∀ i r, new !! i = Some r → S i < length new → success r = true)
    ∧ (length new < length names → ∃ r, last new = Some r ∧ success r = false)
    ∧ (names ≠ [] → new ≠ []).
Proof.
  revert acc w. induction names as [|name names IH]; intros acc w; simpl.
  - exists [], w. rewrite app_nil_r. split; [done|]. split; [done|].
    split; [by intros i r ?|]. split; [simpl; lia | done].
  - destruct (applySingleWorkspace_returns backend hostname organization name w)
      as (r & w1 & Hr & Hname & _).
    rewrite (bind_Ok _ _ _ _ _ Hr).
    destruct (success r) eqn:Hs; simpl.
    + destruct (IH (acc ++ [r]) w1)
        as (new & w' & Hloop & Hprefix & Hbut & Hlast & _).
      exists (r :: new), w'. rewrite <- app_assoc in Hloop.
      split; [done|]. split; [|split; [|split; [|done]]].
      * rewrite fmap_cons, Hname. by apply prefix_cons.
      * intros [|i] r' Hi Hlen; simpl in *; [by simplify_eq|].
        apply (Hbut i r' Hi). lia.
      * intros Hlen. simpl in Hlen.
        destruct Hlast as (r' & Hr' & Hfail); [lia|].
        exists r'. split; [|done]. rewrite last_cons. by rewrite Hr'.
    + exists [r], w1. split; [done|]. split; [|split; [|split; [|done]]].
      * rewrite fmap_cons, Hname. apply prefix_cons, prefix_nil.
      * intros [|i] r' Hi Hlen; simpl in *; lia.
      * intros _. by exists r.
Qed.

End plans.

(** X16. [applyWorkspaces] never throws, whatever the plan and the answers.
    The workspaces of its results are a prefix of the plan, in the plan's
    order; every result but the last is a success; and when there are fewer
    results than workspaces in the plan, the last result is a failure. A
    plan that is not empty gives at least one result. *)
Theorem applyWorkspaces_results
    (backend : Backend) (hostname organization : string) (config : TFEConfig)
    (names : list string) (w : World) :
  ∃ rs w',
    applyWorkspaces backend hostname organization config names w = (Ok rs, w')
    ∧ workspace <$> rs `prefix_of` names
    ∧ (∀ i r, rs !! i = Some r → S i < length rs → success r = true)
    ∧ (length rs < length names → ∃ r, last rs = Some r ∧ success r = false)
    ∧ (names ≠ [] → rs ≠ []).
Proof.
  destruct (applyWorkspaces_loop_prefix backend hostname organization names [] w)
    as (rs & w' & Hloop & H).
  by exists rs, w'.
Qed.

(** ** [execute], from validation to results *)

Section execution.
Variable backend : Backend.
Variables hostname organization : string.

Lemma strategies_return config names w :
  ∃ rs w',
    match action config with
    | Create => createWorkspaces backend hostname organization config names
    | Delete => deleteWorkspaces backend hostname organization config names
    | Apply => applyWorkspaces backend hostname organization config names
    | Destroy => destroyWorkspaces backend hostname organization config names
    end w = (Ok rs, w').
Proof.
  destruct (action config).
  - destruct (Promise_all_map_fulfilled
                (λ name, createSingleWorkspace backend hostname organization name
                           (get (workspaces config) name)) names w)
      as (rs & w' & Hall & _); [|by exists rs, w'].
    intros name.
    destruct (createSingleWorkspace_returns backend hostname organization name
                (get (workspaces config) name) w) as (r & wi & Hr & _).
    by exists r, wi.
  - destruct (Promise_all_map_fulfilled
                (deleteSingleWorkspace backend hostname organization) names w)
      as (rs & w' & Hall & _); [|by exists rs, w'].
    intros name.
    destruct (deleteSingleWorkspace_returns backend hostname organization name w)
      as (r & wi & Hr & _).
    by exists r, wi.
  - destruct (applyWorkspaces_loop_returns backend hostname organization names [] w)
      as (rs & w' & Hloop & _).
    by exists rs, w'.
  - destruct (destroyWorkspaces_loop_returns backend hostname organization names [] w)
      as (rs & w' & Hloop & _).
    by exists rs, w'.
Qed.

Lemma validated_resolves config :
  validateDependencies config = Ok () →
  ∃ names, resolveExecutionOrder config = Ok names.
Proof.
  intros [_ Hsort]%validateDependencies_Ok. unfold resolveExecutionOrder.
  destruct (action config); [by eexists | by eexists |..].
  - destruct Hsort as [l ->]; [by left | by eexists].
  - destruct Hsort as [l ->]; [by right | by eexists].
Qed.

Lemma execute_Ok_inv config w rs w' :
  execute backend hostname organization config w = (Ok rs, w') →
  validateDependencies config = Ok ()
  ∧ ∃ names,
      resolveExecutionOrder config = Ok names
      ∧ match action config with
        | Create => createWorkspaces backend hostname organization config names
        | Delete => deleteWorkspaces backend hostname organization config names
        | Apply => applyWorkspaces backend hostname organization config names
        | Destroy => destroyWorkspaces backend hostname organization config names
        end w = (Ok rs, w').
Proof.
  unfold execute. intros H.
  apply bind_Ok_inv in H as ([] & w0 & Hvalid & H).
  apply bind_Ok_inv in H as (names & w1 & Horder & H).
  unfold lift in *. simplify_eq. split; [done|]. by exists names.
Qed.

Lemma sorted_keys ws l :
  check_entries (list_to_set (Object_keys ws)) ws = Ok () →
  topologicalSort ws (Object_keys ws) = Ok l →
  NoDup l ∧ (∀ x, x ∈ l ↔ x ∈ Object_keys ws) ∧ dependencies_first ws l.
Proof.
  intros Hdef%check_entries_defined
         (Hnd & Hall & Hfirst & Hmen)%topologicalSort_Ok; [|done].
  split; [done|]. split; [|done].
  intros x. split; [|apply Hall].
  intros [Hx|[k Hk]]%Hmen; [done | by eapply Hdef].
Qed.

End execution.

(** X17. [execute] throws exactly when the validation of the configuration
    throws, and then it throws the validation's error before anything is
    sent or logged. Once the validation has passed, neither the resolution
    of the order nor any strategy makes [execute] throw: every failure on
    the remote side ends up in a result. *)
Theorem execute_throws_iff
    (backend : Backend) (hostname organization : string) (config : TFEConfig)
    (w : World) (e : Thrown) (w' : World) :
  execute backend hostname organization config w = (Throw e, w')
  ↔ validateDependencies config = Throw e ∧ w' = w.
Proof.
  unfold execute, lift. unfold mbind at 1, M_bind at 1.
  destruct (validateDependencies config) as [[]|e0] eqn:Hvalid.
  - destruct (validated_resolves config Hvalid) as [names ->].
    unfold mbind, M_bind.
    destruct (strategies_return backend hostname organization config names w)
      as (rs & w1 & ->).
    split; [done | by intros [? _]].
  - split; [by intros [= -> ->] | by intros [[= ->] ->]].
Qed.

(** X18. When [execute] with action apply returns, every workspace that has
    a result had all its declared dependencies attempted before it, each
    with a successful result: no workspace is applied after the failure of
    one it depends on. *)
Theorem execute_apply_dependencies_succeeded
    (backend : Backend) (hostname organization : string) (config : TFEConfig)
    (w : World) (rs : list WorkspaceOperationResult) (w' : World) :
  action config = Apply →
  execute backend hostname organization config w = (Ok rs, w') →
  ∀ i r dep,
    rs !! i = Some r → declares (workspaces config) (workspace r) dep →
    ∃ j r', j < i ∧ rs !! j = Some r' ∧ workspace r' = dep ∧ success r' = true.
Proof.
  intros Haction (Hvalid & names & Horder & Hrun)%execute_Ok_inv.
  rewrite Haction in Hrun.
  apply validateDependencies_Ok in Hvalid as [Hcheck _].
  unfold resolveExecutionOrder in Horder. rewrite Haction in Horder.
  destruct (sorted_keys _ _ Hcheck Horder) as (_ & _ & Hfirst).
  destruct (applyWorkspaces_loop_prefix backend hostname organization names [] w)
    as (rs' & w'' & Hloop & Hprefix & Hbut & _).
  unfold applyWorkspaces in Hrun. rewrite Hloop in Hrun. simplify_eq.
  intros i r dep Hi Hdep.
  assert (names !! i = Some (workspace r)) as Hni.
  { eapply prefix_lookup_Some; [|done]. by apply list_lookup_fmap_Some_2. }
  destruct (Hfirst i (workspace r) dep Hni Hdep) as (j & Hj & Hlt).
  pose proof (lookup_lt_Some _ _ _ Hi) as Hlen.
  destruct (lookup_lt_is_Some_2 rs j) as [r' Hr']; [lia|].
  exists j, r'. split; [done|]. split; [done|]. split.
  - assert (names !! j = Some (workspace r')) as Hnj.
    { eapply prefix_lookup_Some; [|done]. by apply list_lookup_fmap_Some_2. }
    congruence.
  - apply (Hbut j r' Hr'). lia.
Qed.

Lemma execute_apply_dependencies_succeeded_witness :
  ∃ rs w',
    execute without_db "app.terraform.io" "acme" (layered Apply) epoch = (Ok rs, w')
    ∧ ∀ i r dep,
        rs !! i = Some r → declares (workspaces (layered Apply)) (workspace r) dep →
        ∃ j r', j < i ∧ rs !! j = Some r' ∧ workspace r' = dep ∧ success r' = true.
Proof.
  eexists _, _. split; [vm_compute; reflexivity|].
  eapply (execute_apply_dependencies_succeeded without_db "app.terraform.io" "acme"
           (layered Apply) epoch);
    [reflexivity | vm_compute; reflexivity].
Defined.

(** X19. When [execute] with action destroy returns, there is exactly one
    result for every workspace of the configuration, and the result of a
    workspace stands before the results of all its declared dependencies:
    a workspace is destroyed before anything it depends on, whether or not
    the attempts succeed. *)
Theorem execute_destroy_dependents_first
    (backend : Backend) (hostname organization : string) (config : TFEConfig)
    (w : World) (rs : list WorkspaceOperationResult) (w' : World) :
  action config = Destroy →
  execute backend hostname organization config w = (Ok rs, w') →
  NoDup (workspace <$> rs)
  ∧ (∀ name, name ∈ workspace <$> rs ↔ name ∈ Object_keys (workspaces config))
  ∧ ∀ i r dep,
      rs !! i = Some r → declares (workspaces config) (workspace r) dep →
      ∃ j r', i < j ∧ rs !! j = Some r' ∧ workspace r' = dep.
Proof.
  intros Haction (Hvalid & names & Horder & Hrun)%execute_Ok_inv.
  rewrite Haction in Hrun.
  apply validateDependencies_Ok in Hvalid as [Hcheck _].
  unfold resolveExecutionOrder in Horder. rewrite Haction in Horder.
  destruct (topologicalSort _ _) as [l|] eqn:Hsort; [|done]. simplify_eq.
  destruct (sorted_keys _ _ Hcheck Hsort) as (Hnd & Hkeys & Hfirst).
  destruct (destroyWorkspaces_loop_returns backend hostname organization
              (reverse l) [] w) as (rs' & w'' & Hloop & Heach).
  unfold destroyWorkspaces in Hrun. rewrite Hloop in Hrun. simplify_eq.
  apply each_destroyed_results in Heach as (_ & Hnames & _).
  rewrite Hnames. split; [|split].
  - by rewrite reverse_Permutation.
  - intros name. by rewrite elem_of_reverse.
  - intros i r dep Hi Hdep.
    assert (reverse l !! i = Some (workspace r)) as Hri
      by (rewrite <- Hnames; by apply list_lookup_fmap_Some_2).
    apply reverse_lookup_Some in Hri as [Hli Hlen].
    destruct (Hfirst _ _ dep Hli Hdep) as (j & Hj & Hlt).
    assert (reverse l !! (length l - S j) = Some dep) as Hrj.
    { apply reverse_lookup_Some. split; [|lia].
      by replace (length l - S (length l - S j)) with j by lia. }
    rewrite <- Hnames in Hrj.
    apply list_lookup_fmap_Some_1 in Hrj as (r' & Hdep' & Hr').
    exists (length l - S j), r'. split; [lia|]. by split.
Qed.

Lemma execute_destroy_dependents_first_witness :
  ∃ rs w',
    execute without_db "app.terraform.io" "acme" (layered Destroy) epoch
      = (Ok rs, w')
    ∧ NoDup (workspace <$> rs)
    ∧ (∀ name, name ∈ workspace <$> rs
               ↔ name ∈ Object_keys (workspaces (layered Destroy)))
    ∧ ∀ i r dep,
        rs !! i = Some r → declares (workspaces (layered Destroy)) (workspace r) dep →
        ∃ j r', i < j ∧ rs !! j = Some r' ∧ workspace r' = dep.
Proof.
  eexists _, _. split; [vm_compute; reflexivity|].
  eapply (execute_destroy_dependents_first without_db "app.terraform.io" "acme"
           (layered Destroy) epoch);
    [reflexivity | vm_compute; reflexivity].
Defined.

(** X20. With action create or delete, [execute] pays no regard to the
    dependencies beyond their validation: for a configuration whose
    dependencies are all other workspaces of it, also one with a cycle, it
    returns one result for each workspace, in the order of the keys of the
    configuration. *)
Theorem execute_parallel_in_key_order
    (backend : Backend) (hostname organization : string) (config : TFEConfig)
    (w : World) :
  action config = Create ∨ action config = Delete →
  dependencies_valid (workspaces config) →
  ∃ rs w',
    execute backend hostname organization config w = (Ok rs, w')
    ∧ workspace <$> rs = Object_keys (workspaces config).
Proof.
  intros Haction Hvalid.
  assert (validateDependencies config = Ok ()) as Hpass.
  { apply validateDependencies_passes_ordered; [done|].
    intros [Ha|Ha]; destruct Haction; congruence. }
  assert (resolveExecutionOrder config = Ok (Object_keys (workspaces config)))
    as Horder
    by (unfold resolveExecutionOrder; by destruct Haction as [-> | ->]).
  unfold execute, lift, mbind, M_bind. rewrite Hpass, Horder.
  assert (∀ (task : string → M WorkspaceOperationResult) names,
            (∀ name, ∃ r wi, task name w = (Ok r, wi) ∧ workspace r = name) →
            ∃ rs w', Promise_all_map task names w = (Ok rs, w')
                     ∧ workspace <$> rs = names) as Hall.
  { intros task names Htask.
    destruct (Promise_all_map_fulfilled task names w) as (rs & w' & Hrs & Hlen & Hnth).
    { intros name. destruct (Htask name) as (r & wi & Hr & _). by exists r, wi. }
    exists rs, w'. split; [done|].
    apply list_eq_same_length with (length names);
      [done | by rewrite length_fmap |].
    intros i x y Hi Hx Hy.
    destruct (Hnth i y Hy) as (r & wi & Hr & Hri).
    rewrite list_lookup_fmap, Hri in Hx. simpl in Hx. simplify_eq.
    destruct (Htask y) as (r' & wi' & Hr' & Hname). congruence. }
  destruct Haction as [-> | ->]; apply Hall; intros name.
  - destruct (createSingleWorkspace_returns backend hostname organization name
                (get (workspaces config) name) w) as (r & wi & Hr & Hname & _).
    by exists r, wi.
  - destruct (deleteSingleWorkspace_returns backend hostname organization name w)
      as (r & wi & Hr & Hname & _).
    by exists r, wi.
Qed.

Lemma execute_parallel_in_key_order_witness :
  has_cycle (workspaces (with_action Delete tailed_cycle))
  ∧ ∃ rs w',
      execute without_db "app.terraform.io" "acme"
        (with_action Delete tailed_cycle) epoch = (Ok rs, w')
      ∧ workspace <$> rs = ["a"; "b"; "c"].
Proof.
  split; [apply tailed_cycle_has_cycle|].
  apply (execute_parallel_in_key_order without_db "app.terraform.io" "acme"
           (with_action Delete tailed_cycle) epoch); [by right|].
  apply dependencies_valid_check. reflexivity.
Defined.

(** ** The warnings of the destroy strategy *)

Lemma logs_on_ret {A : Type} (a : A) : logs_on (mret a).
Proof. by intros w. Qed.

Lemma logs_on_throw {A : Type} (e : Thrown) : logs_on (@throw A e).
Proof. by intros w. Qed.

Lemma logs_on_lift {A : Type} (r : Res A) : logs_on (lift r).
Proof. by intros w. Qed.

Lemma logs_on_core_warning line : logs_on (core_warning line).
Proof. intros w. by apply prefix_app_r. Qed.

Lemma logs_on_send backend req : logs_on (send backend req).
Proof. intros w. unfold send. by destruct (reply _ _ _). Qed.

Lemma logs_on_bind {A B : Type} (m : M A) (f : A → M B) :
  logs_on m → (∀ a, logs_on (f a)) → logs_on (m ≫= f).
Proof.
  intros Hm Hf w. unfold mbind, M_bind.
  specialize (Hm w). destruct (m w) as [[a|e] w1]; simpl in *; [|done].
  etrans; [done | apply Hf].
Qed.

Lemma logs_on_try_catch {A : Type} (body : M A) (handler : Thrown → M A) :
  logs_on body → (∀ e, logs_on (handler e)) → logs_on (try_catch body handler).
Proof.
  intros Hb Hh w. unfold try_catch.
  specialize (Hb w). destruct (body w) as [[a|e] w1]; simpl in *; [done|].
  etrans; [done | apply Hh].
Qed.

(** Proves that a computation built from the pieces above logs on. *)
Ltac solve_logs_on :=
  repeat first
    [ apply logs_on_ret | apply logs_on_throw | apply logs_on_lift
    | apply logs_on_core_warning
    | apply logs_on_send
    | apply logs_on_bind; [|intros ?] | apply logs_on_try_catch; [|intros ?]
    | progress case_match | progress case_bool_decide ].

Section logging.
Variable backend : Backend.
Variables hostname organization : string.

Lemma logs_on_poll runId : logs_on (poll backend hostname runId).
Proof. unfold poll, getJson. solve_logs_on. Qed.

Lemma logs_on_waitForRun_loop runId timeout startTime :
  logs_on (waitForRun_loop backend hostname runId timeout startTime).
Proof.
  intros w. funelim (waitForRun_loop backend hostname runId timeout startTime w);
    [done|].
  pose proof (logs_on_poll runId w) as Hpoll.
  destruct (poll backend hostname runId w) as [[[run|]|e] w1]; simpl in *; try done.
  etrans; [exact Hpoll|]. apply H. exact NotYet.
Qed.

Lemma logs_on_runSingleWorkspace_try isDestroy name :
  logs_on (runSingleWorkspace_try backend hostname organization isDestroy name).
Proof.
  unfold runSingleWorkspace_try.
  apply logs_on_bind; [unfold getWorkspace, getJson; solve_logs_on|].
  intros found. apply logs_on_bind; [apply logs_on_lift|]. intros workspaceId.
  apply logs_on_bind; [unfold createRun, postJson; solve_logs_on|].
  intros created. apply logs_on_bind; [apply logs_on_lift|]. intros runId.
  apply logs_on_bind; [|intros _; apply logs_on_ret].
  unfold waitForRun. apply logs_on_bind; [by intros w|].
  intros startTime. apply logs_on_waitForRun_loop.
Qed.

Lemma each_destroyed_warnings names w rs w' :
  each_destroyed backend hostname organization names w rs w' →
  warnings w `prefix_of` warnings w'
  ∧ ∀ r, r ∈ rs → success r = false →
         continuing_message (workspace r) ∈ warnings_since w w'.
Proof.
  induction 1 as [|name names w outcome w1 rs w2 Htry Hrest [IHp IHin]].
  - split; [done | by intros ? ?%elem_of_nil].
  - pose proof (logs_on_runSingleWorkspace_try true name w) as Hlog.
    rewrite Htry in Hlog. simpl in Hlog.
    set (wm := match outcome with
               | Ok _ => w1
               | Throw _ => warned (continuing_message name) w1
               end) in *.
    assert (warnings w1 `prefix_of` warnings wm) as Hmid
      by (destruct outcome; [done | by apply prefix_app_r]).
    assert (warnings w `prefix_of` warnings wm) as [k Hk] by (by etrans).
    split; [by etrans; [exists k|]|].
    assert (warnings_since wm w2 ⊆ warnings_since w w2) as Hsub.
    { unfold warnings_since. rewrite Hk, length_app, <- drop_drop.
      apply subseteq_drop. }
    intros r [->|Hr]%elem_of_cons Hfail; [|by apply Hsub, IHin].
    destruct outcome as [r|e]; simpl in *.
    + apply runSingleWorkspace_try_result in Htry as (_ & Hs & _). congruence.
    + destruct Hlog as [k1 Hk1]. destruct IHp as [k2 Hk2].
      unfold warnings_since. rewrite Hk2. simpl. rewrite Hk1.
      rewrite <- !app_assoc, drop_app_length. set_solver.
Qed.

End logging.

(** X21. The destroy strategy logs, for every workspace whose result is a
    failure, the warning that it goes on with the remaining workspaces; the
    warning names the workspace. *)
Theorem destroyWorkspaces_warns
    (backend : Backend) (hostname organization : string) (config : TFEConfig)
    (names : list string) (w : World) :
  ∃ rs w',
    destroyWorkspaces backend hostname organization config names w = (Ok rs, w')
    ∧ ∀ r, r ∈ rs → success r = false →
           ("Failed to destroy workspace " +:+ workspace r
            +:+ ", continuing with remaining workspaces...")
           ∈ warnings_since w w'.
Proof.
  destruct (destroyWorkspaces_loop_returns backend hostname organization names [] w)
    as (rs & w' & Hloop & Heach).
  exists rs, w'. split; [done|].
  by apply each_destroyed_warnings in Heach as [_ Hwarn].
Qed.

(** X22. On a configuration without workspaces [execute] returns no result,
    whatever the action, and leaves the world as it was: nothing is sent and
    nothing is logged. *)
Theorem execute_no_workspaces
    (backend : Backend) (hostname organization : string) (config : TFEConfig)
    (w : World) :
  workspaces config = [] →
  execute backend hostname organization config w = (Ok [], w).
Proof.
  intros Hnone. unfold execute, validateDependencies, resolveExecutionOrder.
  rewrite Hnone. destruct w as [c rq wn].
  destruct (action config); cbn.
  all: unfold lift, mbind, M_bind, createWorkspaces, deleteWorkspaces,
         applyWorkspaces, destroyWorkspaces, Promise_all_map, joined; simpl.
  all: by rewrite ?app_nil_r.
Qed.

Lemma execute_no_workspaces_witness :
  execute silent "app.terraform.io" "acme"
    {| action := Destroy; workspaces := [] |} epoch = (Ok [], epoch).
Proof.
  by apply (execute_no_workspaces silent "app.terraform.io" "acme"
              {| action := Destroy; workspaces := [] |} epoch).
Defined.
